(** * Artie local file registry (onix/artie/registry/fileRegistry.go)

    A shallow embedding of the local artefact registry of the Onix "artie"
    tool and the properties its specification states about it.

    Go values are modelled as follows.
    - [string] is Go's byte string; slicing and [len] count bytes.
    - A slice of pointers ([[]*repository], [[]*artefact]) is a list of
      records.  A pointer into the registry is the path (repository index,
      artefact index) of the record it designates; the registry is a tree
      (no operation stores one record in two places), so a path names one
      record as long as the lists above it are not restructured.
    - [*FileRegistry] methods thread a [world]: the in-memory index, the
      persisted registry document, the files of the host and the text
      written to the console.
    - [log.Fatal] and a Go panic end the process: an operation returns
      [Abort] with the world at that point.  So do [core.RaiseErr] and
      [core.CheckErr] on an error; they are not part of the sources at
      hand, and the specification has validation, ambiguity and I/O errors
      abort the current command.
    - [float64] is Rocq's primitive binary64 float.

    [Push], [Pull] and the loading of the registry at start-up have no
    part in the properties below and are left out. *)

From Stdlib Require Import ZArith String Ascii List Floats Uint63 DecimalString.
From stdpp Require Import base list strings option.

Open Scope Z_scope.

(** ** The parts of Go's standard library the registry uses *)
Module Go.

(** [strings.Contains(s, substr)] *)
Fixpoint Contains (s substr : string) : bool :=
  String.prefix substr s ||
  match s with
  | EmptyString => false
  | String _ s' => Contains s' substr
  end.

(** [strings.HasSuffix] and [strings.TrimSuffix] *)
Definition HasSuffix (s suffix : string) : bool :=
  let n := String.length s in
  let k := String.length suffix in
  (k <=? n)%nat && String.eqb (substring (n - k) k s) suffix.

Definition TrimSuffix (s suffix : string) : string :=
  if HasSuffix s suffix
  then substring 0 (String.length s - String.length suffix) s
  else s.

(** [path.Ext]: the suffix beginning at the final dot in the final
    slash-separated element of the path, empty if there is no dot. *)
Fixpoint Ext_from (p ext : string) : string :=
  match p with
  | EmptyString => ext
  | String c p' =>
      if Ascii.eqb c "/" then Ext_from p' EmptyString
      else if Ascii.eqb c "." then Ext_from p' p
      else Ext_from p' ext
  end.

Definition Ext (p : string) : string := Ext_from p EmptyString.

(** The slice expression [s[lo:hi]] on a string: a run-time panic unless
    [lo <= hi <= len(s)]. *)
Definition slice (s : string) (lo hi : nat) : option string :=
  if (lo <=? hi)%nat && (hi <=? String.length s)%nat
  then Some (substring lo (hi - lo) s)
  else None.

(** The verb [%d] of [fmt.Sprintf] at an [int64]. *)
Definition fmt_d (z : Z) : string := NilEmpty.string_of_int (Z.to_int z).

(** [os.Remove] on the set of files of the host: an error when the file
    is not there. *)
Definition os_Remove (path : string) (fs : list string) : option (list string) :=
  if bool_decide (path ∈ fs)
  then Some (filter (λ f, f ≠ path) fs)
  else None.

(** *** float64 and time.Duration *)

(** The conversion [float64(n)] of an integer. *)
Definition float64 (z : Z) : float :=
  if z <? 0 then PrimFloat.opp (PrimFloat.of_uint63 (Uint63.of_Z (- z)))
  else PrimFloat.of_uint63 (Uint63.of_Z z).

(** The conversion [int64(x)] of a float: the fraction is discarded. *)
Definition int64 (x : float) : Z :=
  match Prim2SF x with
  | S754_finite s m e =>
      let v := if 0 <=? e then Z.pos m * 2 ^ e else Z.pos m / 2 ^ (- e) in
      if s then - v else v
  | _ => 0
  end.

(** [math.Trunc] *)
Definition Trunc (x : float) : float :=
  match Prim2SF x with
  | S754_finite _ _ _ => float64 (int64 x)
  | _ => x
  end.

(** A [time.Duration] is a count of nanoseconds in an [int64]. *)
Definition Second : Z := 1000000000.
Definition Minute : Z := 60 * Second.
Definition Hour : Z := 60 * Minute.

Definition minDuration : Z := - 2 ^ 63.
Definition maxDuration : Z := 2 ^ 63 - 1.

(** [Duration.Seconds], [Duration.Minutes], [Duration.Hours]: the whole
    part and the remainder are converted apart and added. *)
Definition Seconds (d : Z) : float :=
  (float64 (Z.quot d Second) + float64 (Z.rem d Second) / 1e9)%float.

Definition Minutes (d : Z) : float :=
  (float64 (Z.quot d Minute) + float64 (Z.rem d Minute) / 6e10)%float.

Definition Hours (d : Z) : float :=
  (float64 (Z.quot d Hour) + float64 (Z.rem d Hour) / 3.6e12)%float.

(** [t.Sub(u)] on instants counted in nanoseconds: the difference,
    saturated to the range of a Duration. *)
Definition Sub (t u : Z) : Z :=
  Z.max minDuration (Z.min maxDuration (t - u)).

End Go.

(** ** Package core *)
Module core.

(** Modelled from the spec: the artefact name type [core.ArtieName] is not
    part of the sources at hand.  The Name Resolver contract maps a
    reference to its tag, its bare name fragment and its canonical
    fully-qualified repository name. *)
Record ArtieName := {
  Name : string;
  Tag : string;
  FullyQualifiedName : string;
}.

(** Modelled from the spec: [ArtieName.IsInTheSameRepositoryAs], the
    same-repository comparison of two references; a Repository is keyed
    by its fully-qualified name. *)
Definition IsInTheSameRepositoryAs (a name : ArtieName) : bool :=
  String.eqb (FullyQualifiedName a) (FullyQualifiedName name).

(** Modelled from the spec: the manifest type is not part of the sources
    at hand.  The Seal Provider yields, for a built artefact, a type
    label, a size label and a creation-time label. *)
Record Manifest := {
  Type_ : string;
  Size : string;
  Time : string;
}.

(** Modelled from the spec: the seal type is not part of the sources at
    hand.  A seal holds the manifest of a built artefact and what its
    content-derived identifier is computed from. *)
Record Seal := {
  manifest : Manifest;
  identifier : string;
}.

(** Modelled from the spec: [core.ArtefactId] is not part of the sources
    at hand; it yields the content-derived identifier of a sealed
    artefact. *)
Definition ArtefactId (s : Seal) : string := identifier s.

(** Modelled from the spec: [core.RemoveElement] is not part of the
    sources at hand; it removes one tag string from a tag list (here the
    first occurrence, the others keep their order). *)
Fixpoint RemoveElement (a : list string) (value : string) : list string :=
  match a with
  | [] => []
  | x :: a' => if String.eqb x value then a' else x :: RemoveElement a' value
  end.

Definition CliName : string := "artie".

(** What the registry takes from its host: the user's home directory,
    the operating system's path functions ([path/filepath]), the file
    relocation helper [RenameFile] of the registry package (not part of
    the sources at hand; it acts on the set of files and may fail), the
    clock and the parser of RFC 850 time stamps (instants are counted in
    nanoseconds). *)
Class Host := {
  HomeDir : string;
  Join : string → string → string;
  Base : string → string;
  Dir : string → string;
  RenameFile : string → string → bool → list string → option (list string);
  ParseRFC850 : string → option Z;
  Now : Z;
}.

(** [core.RegistryPath] *)
Definition RegistryPath `{Host} : string := Join HomeDir ("." +:+ CliName).

End core.

(** ** Package registry *)
Module registry.

(** *** Data model *)

Record artefact := {
  Id : string;
  Type_ : string;
  FileRef : string;
  Tags : list string;
  Size : string;
  Created : string;
}.

Record repository := {
  Repository : string;
  Artefacts : list artefact;
}.

(** A [*repository] is the index of the repository in
    [r.Repositories]; an [*artefact] is the index of its repository and
    its index in that repository's [Artefacts]. *)
Abbreviation repo_ptr := nat (only parsing).
Abbreviation artefact_ptr := (nat * nat)%type (only parsing).

Definition with_Tags (tags : list string) (a : artefact) : artefact :=
  {| Id := Id a; Type_ := Type_ a; FileRef := FileRef a;
     Tags := tags; Size := Size a; Created := Created a |}.

Definition with_Artefacts (arts : list artefact) (repo : repository) : repository :=
  {| Repository := Repository repo; Artefacts := arts |}.

(** Dereference of an artefact pointer. *)
Definition deref (rs : list repository) (p : artefact_ptr) : option artefact :=
  repo ← rs !! p.1; Artefacts repo !! p.2.

(** The assignment [artie.Tags = tags] through a pointer. *)
Definition set_Tags (p : artefact_ptr) (tags : list string)
    (rs : list repository) : list repository :=
  alter (λ repo, with_Artefacts (alter (with_Tags tags) p.2 (Artefacts repo)) repo) p.1 rs.

(** The assignment [repo.Artefacts = arts] through a pointer. *)
Definition set_Artefacts (i : repo_ptr) (arts : list artefact)
    (rs : list repository) : list repository :=
  alter (with_Artefacts arts) i rs.

(** [artefact.HasTag] *)
Definition HasTag (a : artefact) (tag : string) : bool :=
  existsb (λ t, String.eqb t tag) (Tags a).

(** *** Lookups *)

(** Index of the first element that satisfies [f]. *)
Fixpoint find_index {A} (f : A → bool) (l : list A) : option nat :=
  match l with
  | [] => None
  | x :: l' => if f x then Some 0%nat else S <$> find_index f l'
  end.

(** Indices of all the elements that satisfy [f], in order. *)
Fixpoint indices_from {A} (f : A → bool) (i : nat) (l : list A) : list nat :=
  match l with
  | [] => []
  | x :: l' => if f x then i :: indices_from f (S i) l' else indices_from f (S i) l'
  end.

Definition id_contains (fragment : string) (a : artefact) : bool :=
  Go.Contains (Id a) fragment.

Definition named (name : core.ArtieName) (repo : repository) : bool :=
  String.eqb (Repository repo) (core.FullyQualifiedName name).

(** [FileRegistry.findRepository]: the first repository with the
    fully-qualified name; failing that, the first repository that has an
    artefact whose Id contains the name fragment; [None] is [nil]. *)
Definition findRepository (rs : list repository) (name : core.ArtieName) : option repo_ptr :=
  match find_index (named name) rs with
  | Some i => Some i
  | None =>
      find_index (λ repo, existsb (id_contains (core.Name name)) (Artefacts repo)) rs
  end.

(** [FileRegistry.GetArtefactsByName] *)
Definition GetArtefactsByName (rs : list repository) (name : core.ArtieName)
    : option (list artefact_ptr) :=
  let artefacts :=
    match find_index (named name) rs with
    | Some i =>
        match rs !! i with
        | Some repo => (λ j, (i, j)) <$> seq 0 (length (Artefacts repo))
        | None => []
        end
    | None => []
    end in
  if (0 <? length artefacts)%nat then Some artefacts else None.

(** The three ways [GetArtefact] ends: with a pointer, with [nil], or in
    [core.RaiseErr] with the number of candidates found so far. *)
Inductive lookup :=
| Found (p : artefact_ptr)
| NotFound
| Ambiguous (n : nat).

(** The end of [GetArtefact]: [nil] when nothing was collected, else the
    first artefact collected. *)
Definition first_found (artefactsFound : list artefact_ptr) : lookup :=
  match artefactsFound with
  | [] => NotFound
  | p :: _ => Found p
  end.

(** The loop of [FileRegistry.GetArtefact] over the repositories from
    index [ri] on, with the artefacts collected so far. *)
Fixpoint GetArtefact_from (ri : nat) (rs : list repository) (name : core.ArtieName)
    (artefactsFound : list artefact_ptr) : lookup :=
  match rs with
  | [] => first_found artefactsFound
  | repo :: rs' =>
      if named name repo then
        match find_index (λ a, HasTag a (core.Tag name)) (Artefacts repo) with
        | Some ai => Found (ri, ai)
        | None => first_found artefactsFound
        end
      else
        let artefactsFound' :=
          artefactsFound ++
            ((λ ai, (ri, ai)) <$> indices_from (id_contains (core.Name name)) 0 (Artefacts repo)) in
        if (1 <? length artefactsFound')%nat
        then Ambiguous (length artefactsFound')
        else GetArtefact_from (S ri) rs' name artefactsFound'
  end.

(** [FileRegistry.GetArtefact] *)
Definition GetArtefact (rs : list repository) (name : core.ArtieName) : lookup :=
  GetArtefact_from 0 rs name [].

(** *** The state the methods act on *)

(** What the process writes: [fmt.Printf] and the table writer write to
    the standard output, [log.Print] to the log.  The progress messages of
    [core.Msg] are left out. *)
Inductive output :=
| Stdout (s : string)
| Log (s : string).

Record world := {
  Repositories : list repository; (* r.Repositories, in memory *)
  document : list repository;     (* the persisted repository.json *)
  files : list string;            (* the files of the host, by path *)
  console : list output;
}.

(** The error taxonomy of the specification, and Go's run-time panic. *)
Inductive failure :=
| Validation             (* Add: the file is not a zip file *)
| NotFoundErr            (* Tag: the source artefact does not exist *)
| AmbiguousErr (n : nat) (* GetArtefact: n artefacts match the Id hint *)
| IOErr                  (* a file could not be moved or removed *)
| TimeErr                (* a creation time is not in RFC 850 format *)
| Panic.                 (* index or slice out of range, nil dereference *)

Inductive outcome (A : Type) :=
| Done (a : A) (w : world)
| Abort (e : failure) (w : world).
Arguments Done {A} a w.
Arguments Abort {A} e w.

Definition M (A : Type) : Type := world → outcome A.

#[export] Instance M_ret : MRet M := λ A a w, Done a w.

#[export] Instance M_bind : MBind M := λ A B f m w,
  match m w with
  | Done a w' => f a w'
  | Abort e w' => Abort e w'
  end.

Definition abort {A} (e : failure) : M A := λ w, Abort e w.

Definition get_Repositories : M (list repository) := λ w, Done (Repositories w) w.

Definition put_Repositories (rs : list repository) : M unit := λ w,
  Done () {| Repositories := rs; document := document w;
             files := files w; console := console w |}.

Definition print (o : output) : M unit := λ w,
  Done () {| Repositories := Repositories w; document := document w;
             files := files w; console := console w ++ [o] |}.

(** A file operation under [core.CheckErr]/[log.Fatal]: the process ends
    when it fails. *)
Definition on_files (op : list string → option (list string)) : M unit := λ w,
  match op (files w) with
  | Some fs => Done () {| Repositories := Repositories w; document := document w;
                          files := fs; console := console w |}
  | None => Abort IOErr w
  end.

(** Reading through a pointer; a pointer that designates nothing is a
    nil or out-of-range access. *)
Definition load (p : artefact_ptr) : M artefact := λ w,
  match deref (Repositories w) p with
  | Some a => Done a w
  | None => Abort Panic w
  end.

Definition load_Artefacts (i : repo_ptr) : M (list artefact) := λ w,
  match Repositories w !! i with
  | Some repo => Done (Artefacts repo) w
  | None => Abort Panic w
  end.

Definition store_Tags (p : artefact_ptr) (tags : list string) : M unit :=
  rs ← get_Repositories; put_Repositories (set_Tags p tags rs).

Definition store_Artefacts (i : repo_ptr) (arts : list artefact) : M unit :=
  rs ← get_Repositories; put_Repositories (set_Artefacts i arts rs).

(** [GetArtefact] as the methods call it: [core.RaiseErr] ends the
    process. *)
Definition getArtefact (name : core.ArtieName) : M (option artefact_ptr) := λ w,
  match GetArtefact (Repositories w) name with
  | Found p => Done (Some p) w
  | NotFound => Done None w
  | Ambiguous n => Abort (AmbiguousErr n) w
  end.

Definition findRepo (name : core.ArtieName) : M (option repo_ptr) := λ w,
  Done (findRepository (Repositories w) name) w.

(** [FileRegistry.save]: the whole index is written to the document (the
    write itself is taken to succeed). *)
Definition save : M unit := λ w,
  Done () {| Repositories := Repositories w; document := Repositories w;
             files := files w; console := console w |}.

(** *** Mutations *)

(** [FileRegistry.unTag] *)
Definition unTag (name : core.ArtieName) (tag : string) : M unit :=
  artie ← getArtefact name;
  match artie with
  | Some p =>
      a ← load p;
      store_Tags p (core.RemoveElement (Tags a) tag)
  | None => mret ()
  end.

(** The artefact record that [Add] creates. *)
Definition new_artefact (basenameNoExt : string) (name : core.ArtieName)
    (s : core.Seal) : artefact :=
  {| Id := core.ArtefactId s;
     Type_ := core.Type_ (core.manifest s);
     FileRef := basenameNoExt;
     Tags := [core.Tag name];
     Size := core.Size (core.manifest s);
     Created := core.Time (core.manifest s) |}.

(** [FileRegistry.Add] *)
Definition Add `{core.Host} (filename : string) (name : core.ArtieName)
    (s : core.Seal) : M unit :=
  let basename := core.Base filename in
  let basenameDir := core.Dir filename in
  let basenameExt := Go.Ext basename in
  let basenameNoExt := Go.TrimSuffix basename (Go.Ext basename) in
  if negb (String.eqb basenameExt ".zip") then abort Validation
  else
    on_files (core.RenameFile filename (core.Join core.RegistryPath basename) false);;
    on_files (core.RenameFile
                (core.Join basenameDir (basenameNoExt +:+ ".json"))
                (core.Join core.RegistryPath (basenameNoExt +:+ ".json")) false);;
    unTag name (core.Tag name);;
    found ← findRepo name;
    repo ← match found with
           | Some i => mret i
           | None =>
               rs ← get_Repositories;
               put_Repositories
                 (rs ++ [{| Repository := core.FullyQualifiedName name;
                            Artefacts := [] |}]);;
               mret (length rs)
           end;
    arts ← load_Artefacts repo;
    store_Artefacts repo (arts ++ [new_artefact basenameNoExt name s]);;
    save.

(** The removal of the element at index [i]: the last element is copied
    to index [i], the last slot is erased and the slice is truncated. *)
Definition swap_remove {A} (i : nat) (a : list A) : list A :=
  match a !! (length a - 1)%nat with
  | Some x => take (length a - 1) (<[i := x]> a)
  | None => a
  end.

(** [FileRegistry.removeArtefactById] *)
Definition removeArtefactById (a : list artefact) (id : string) : list artefact :=
  match find_index (id_contains id) a with
  | None => a
  | Some i => swap_remove i a
  end.

(** [FileRegistry.removeRepoByName] *)
Definition removeRepoByName (a : list repository) (name : core.ArtieName)
    : list repository :=
  match find_index (named name) a with
  | None => a
  | Some i => swap_remove i a
  end.

(** The metadata record that [Tag] creates in another repository. *)
Definition tagged_copy (sourceArtie : artefact) (tag : string) : artefact :=
  {| Id := Id sourceArtie;
     Type_ := Type_ sourceArtie;
     FileRef := FileRef sourceArtie;
     Tags := [tag];
     Size := Size sourceArtie;
     Created := Created sourceArtie |}.

(** The loop of [Tag] over the tags of the target artefact: the range
    runs over the tag list as it is when the loop starts; every tag that
    differs from the target tag appends the target tag. *)
Definition retag (tags : list string) (tag : string) : list string :=
  fold_left (λ acc t, if String.eqb t tag then acc else acc ++ [tag]) tags tags.

(** [FileRegistry.Tag].  The local copy [newArtie] of the source artefact
    is written but never read, and is left out. *)
Definition Tag (sourceName targetName : core.ArtieName) : M unit :=
  found ← getArtefact sourceName;
  match found with
  | None => abort NotFoundErr
  | Some sp =>
      sourceArtie ← load sp;
      if core.IsInTheSameRepositoryAs targetName sourceName then
        if negb (HasTag sourceArtie (core.Tag targetName)) then
          store_Tags sp (Tags sourceArtie ++ [core.Tag targetName]);;
          save
        else mret ()
      else
        targetRepository ← findRepo targetName;
        match targetRepository with
        | None =>
            rs ← get_Repositories;
            put_Repositories
              (rs ++ [{| Repository := core.FullyQualifiedName targetName;
                         Artefacts := [tagged_copy sourceArtie (core.Tag targetName)] |}]);;
            save
        | Some tr =>
            targetArtie ← getArtefact targetName;
            match targetArtie with
            | Some tp =>
                t ← load tp;
                store_Tags tp (retag (Tags t) (core.Tag targetName))
            | None =>
                arts ← load_Artefacts tr;
                match find_index (λ a, String.eqb (Id a) (Id sourceArtie)) arts with
                | Some ai =>
                    a ← load (tr, ai);
                    store_Tags (tr, ai) (Tags a ++ [core.Tag targetName]);;
                    save
                | None =>
                    store_Artefacts tr
                      (arts ++ [tagged_copy sourceArtie (core.Tag targetName)]);;
                    save
                end
            end
        end
  end.

(** [FileRegistry.removeFiles] *)
Definition removeFiles `{core.Host} (artie : artefact) : M unit :=
  on_files (Go.os_Remove (core.RegistryPath +:+ "/" +:+ FileRef artie +:+ ".zip"));;
  on_files (Go.os_Remove (core.RegistryPath +:+ "/" +:+ FileRef artie +:+ ".json")).

(** The scan of [Remove] for an artefact with the given Id in any
    repository. *)
Definition holds_Id (rs : list repository) (id : string) : bool :=
  existsb (λ repo, existsb (λ art, String.eqb (Id art) id) (Artefacts repo)) rs.

(** The body of the loop of [FileRegistry.Remove], for one name.  The
    pointer [artie] is read after [unTag] (its tags) and after the
    repository list has changed (its Id and FileRef, which no operation
    changes). *)
Definition Remove_name `{core.Host} (name : core.ArtieName) : M unit :=
  artie ← getArtefact name;
  match artie with
  | None =>
      print (Stdout ("name " +:+ core.Name name +:+ " not found"))
  | Some p =>
      before ← load p;
      let length0 := length (Tags before) in
      unTag name (core.Tag name);;
      a ← load p;
      if (length (Tags a) <? length0)%nat then
        (if (length (Tags a) =? 0)%nat then
           rs ← get_Repositories;
           put_Repositories (removeRepoByName rs name);;
           rs' ← get_Repositories;
           if negb (holds_Id rs' (Id a)) then removeFiles a else mret ()
         else mret ());;
        save;;
        print (Log (Id a))
      else
        found ← findRepo name;
        match found with
        | None => abort Panic
        | Some repo =>
            arts ← load_Artefacts repo;
            store_Artefacts repo (removeArtefactById arts (core.Name name));;
            removeFiles a;;
            save;;
            print (Log (Id a))
        end
  end.

(** [FileRegistry.Remove] *)
Fixpoint Remove `{core.Host} (names : list core.ArtieName) : M unit :=
  match names with
  | [] => mret ()
  | name :: names' => Remove_name name;; Remove names'
  end.

(** [FileRegistry.unTagAll]: for every artefact of the repository the
    range runs over its tag list as it is when the loop starts. *)
Definition unTagAll (name : core.ArtieName) : M unit :=
  rs ← get_Repositories;
  match GetArtefactsByName rs name with
  | Some artefs =>
      foldr (λ p rest,
               artef ← load p;
               foldr (λ tag rest',
                        cur ← load p;
                        store_Tags p (core.RemoveElement (Tags cur) tag);;
                        rest')
                     (mret ()) (Tags artef);;
               rest)
            (mret ()) artefs
  | None => mret ()
  end;;
  save.

(** *** Listing *)

(** [plural] *)
Definition plural (value : Z) (label : string) : string :=
  if 1 <? value then label +:+ "s" else label.

(** [fmt.Sprintf("%d %s ago", int64(x), plural(int64(x), label))] *)
Definition ago (x : float) (label : string) : string :=
  Go.fmt_d (Go.int64 x) +:+ " " +:+ plural (Go.int64 x) label +:+ " ago".

(** The elapsed time in each unit, as [toElapsedLabel] computes it. *)
Inductive unit_of_time := Years | Months | Weeks | Days | Hours | Minutes | Seconds.

Definition magnitude (elapsed : Z) (u : unit_of_time) : float :=
  let seconds := Go.Seconds elapsed in
  let minutes := Go.Minutes elapsed in
  let hours := Go.Hours elapsed in
  let days := (hours / 24)%float in
  let weeks := (days / 7)%float in
  let months := (weeks / 4)%float in
  let years := (months / 12)%float in
  match u with
  | Years => years
  | Months => months
  | Weeks => weeks
  | Days => days
  | Hours => hours
  | Minutes => minutes
  | Seconds => seconds
  end.

Definition label (u : unit_of_time) : string :=
  match u with
  | Years => "year"
  | Months => "month"
  | Weeks => "week"
  | Days => "day"
  | Hours => "hour"
  | Minutes => "minute"
  | Seconds => "second"
  end.

(** The test [math.Trunc(x) > 0]. *)
Definition whole (x : float) : bool := (0 <? Go.Trunc x)%float.

(** [toElapsedLabel], from [elapsed := time.Since(created)] on. *)
Definition elapsedLabel (elapsed : Z) : string :=
  let seconds := magnitude elapsed Seconds in
  let minutes := magnitude elapsed Minutes in
  let hours := magnitude elapsed Hours in
  let days := magnitude elapsed Days in
  let weeks := magnitude elapsed Weeks in
  let months := magnitude elapsed Months in
  let years := magnitude elapsed Years in
  if whole years then ago years "year"
  else if whole months then ago months "month"
  else if whole weeks then ago weeks "week"
  else if whole days then ago days "day"
  else if whole hours then ago hours "hour"
  else if whole minutes then ago minutes "minute"
  else ago seconds "second".

(** [toElapsedLabel] *)
Definition toElapsedLabel `{core.Host} (rfc850time : string) : M string :=
  match core.ParseRFC850 rfc850time with
  | None => abort TimeErr
  | Some created => mret (elapsedLabel (Go.Sub core.Now created))
  end.

(** The slice [a.Id[7:19]]. *)
Definition short_Id (a : artefact) : M string :=
  match Go.slice (Id a) 7 19 with
  | Some s => mret s
  | None => abort Panic
  end.

Definition tab : string := String (ascii_of_nat 9) EmptyString.

(** A line handed to the table writer: cells separated by tabs (the
    writer's padding of the columns is left out). *)
Fixpoint cells (cs : list string) : string :=
  match cs with
  | [] => EmptyString
  | [c] => c
  | c :: cs' => c +:+ tab +:+ cells cs'
  end.

Fixpoint traverse {A B} (f : A → M B) (l : list A) : M (list B) :=
  match l with
  | [] => mret []
  | x :: l' => y ← f x; ys ← traverse f l'; mret (y :: ys)
  end.

(** One row of [List]; the arguments of [Sprintf] are evaluated from left
    to right. *)
Definition List_row `{core.Host} (repo : repository) (tag : string) (a : artefact)
    : M string :=
  short ← short_Id a;
  age ← toElapsedLabel (Created a);
  mret (cells [Repository repo; tag; short; Type_ a; age; Size a]).

Definition List_artefact `{core.Host} (repo : repository) (a : artefact)
    : M (list string) :=
  dangling ← (if (length (Tags a) =? 0)%nat
              then row ← List_row repo "<none>" a; mret [row]
              else mret []);
  tagged ← traverse (λ tag, List_row repo tag a) (Tags a);
  mret (dangling ++ tagged).

Definition header : string :=
  cells ["REPOSITORY"; "TAG"; "ARTEFACT ID"; "ARTEFACT TYPE"; "CREATED"; "SIZE"].

(** The rows are buffered by the table writer and reach the standard
    output when it is flushed at the end. *)
Definition flush (rows : list string) : M unit := λ w,
  Done () {| Repositories := Repositories w; document := document w;
             files := files w; console := console w ++ (Stdout <$> rows) |}.

(** [FileRegistry.List] *)
Definition List `{core.Host} : M unit :=
  rs ← get_Repositories;
  rows ← traverse (λ repo,
                      per ← traverse (List_artefact repo) (Artefacts repo);
                      mret (concat per)) rs;
  flush (header :: concat rows).

(** [FileRegistry.ListQ] *)
Definition ListQ : M unit :=
  rs ← get_Repositories;
  rows ← traverse (λ repo, traverse short_Id (Artefacts repo)) rs;
  flush (concat rows).

End registry.

(** ** A host and registries for the examples *)
Module example.
Import registry.

Fixpoint after_last_slash (p rest : string) : string :=
  match p with
  | EmptyString => rest
  | String c p' =>
      if Ascii.eqb c "/" then after_last_slash p' p' else after_last_slash p' rest
  end.

Definition base (p : string) : string := after_last_slash p p.

Definition dir (p : string) : string :=
  substring 0 (String.length p - String.length (base p) - 1) p.

Definition move (src dst : string) (force : bool) (fs : list string)
    : option (list string) :=
  if bool_decide (src ∈ fs)
  then Some (dst :: filter (λ f, f ≠ src) fs)
  else None.

(** 30 October 2026, 12:00:00 UTC, in nanoseconds since the Unix epoch. *)
Definition noon : Z := 1793361600 * Go.Second.

(** The time stamps of the examples, each a number of days before [noon]. *)
Definition stamps : list (string * Z) :=
  [("Thursday, 25-Sep-25 12:00:00 UTC", 400);
   ("Tuesday, 20-Oct-26 12:00:00 UTC", 10);
   ("Thursday, 29-Oct-26 12:00:00 UTC", 1)].

Definition parse (s : string) : option Z :=
  (λ days, noon - days * 24 * Go.Hour) <$> (snd <$> find (λ e, String.eqb (fst e) s) stamps).

#[export] Instance host : core.Host := {|
  core.HomeDir := "/home/dev";
  core.Join := λ a b, a +:+ "/" +:+ b;
  core.Base := base;
  core.Dir := dir;
  core.RenameFile := move;
  core.ParseRFC850 := parse;
  core.Now := noon;
|}.

Definition ref (fqn name tag : string) : core.ArtieName :=
  {| core.Name := name; core.Tag := tag; core.FullyQualifiedName := fqn |}.

Definition seal (id : string) : core.Seal :=
  {| core.manifest := {| core.Type_ := "jar"; core.Size := "12KB";
                         core.Time := "Thursday, 29-Oct-26 12:00:00 UTC" |};
     core.identifier := id |}.

Definition art (id fileRef : string) (tags : list string) : artefact :=
  {| Id := id; Type_ := "jar"; FileRef := fileRef; Tags := tags;
     Size := "12KB"; Created := "Thursday, 29-Oct-26 12:00:00 UTC" |}.

Definition in_memory (rs : list repository) (fs : list string) : world :=
  {| Repositories := rs; document := rs; files := fs; console := [] |}.

(** Two repositories whose artefacts both have the fragment abc123 in
    their Id. *)
Definition rs_abc : list repository :=
  [ {| Repository := "acme/tools/build";
       Artefacts := [art "sha256:91abc1230f5e77d2" "1603-build" ["v1"]] |};
    {| Repository := "acme/tools/deploy";
       Artefacts := [art "sha256:4cabc123aa0b93e1" "1604-deploy" ["v1"]] |} ].

(** A build directory with four packaged artefacts, and an empty
    registry. *)
Definition built : list string :=
  [ "/tmp/b/app1.zip"; "/tmp/b/app1.json"; "/tmp/b/app2.zip"; "/tmp/b/app2.json";
    "/tmp/b/db1.zip"; "/tmp/b/db1.json"; "/tmp/b/app3.zip"; "/tmp/b/app3.json" ].

Definition empty : world := in_memory [] built.

Definition stored (fileRef : string) : list string :=
  [ "/home/dev/.artie/" +:+ fileRef +:+ ".json";
    "/home/dev/.artie/" +:+ fileRef +:+ ".zip" ].

(** acme/tools/app with two artefacts tagged v1 and v2. *)
Definition rs_app : list repository :=
  [ {| Repository := "acme/tools/app";
       Artefacts := [ art "sha256:10a2b3c4e5f60718" "app1" ["v1"];
                      art "sha256:3f9cdb4471aa02be" "app2" ["v2"] ] |} ].

Definition w_app : world :=
  in_memory rs_app
    (stored "app2" ++ stored "app1" ++
     ["/tmp/b/db1.zip"; "/tmp/b/db1.json"; "/tmp/b/app3.zip"; "/tmp/b/app3.json"]).

(** The same, and acme/prod/app with the first artefact tagged v1 and
    v2 there. *)
Definition rs_prod : list repository :=
  rs_app ++
  [ {| Repository := "acme/prod/app";
       Artefacts := [ art "sha256:10a2b3c4e5f60718" "app1" ["v1"; "v2"] ] |} ].

Definition w_prod : world := in_memory rs_prod (files w_app).

(** acme/tools/app, then acme/infra/db, then acme/tools/release with a
    copy of the second artefact of acme/tools/app; the Id of that artefact
    has the letters db in it. *)
Definition rs_db : list repository :=
  rs_app ++
  [ {| Repository := "acme/infra/db";
       Artefacts := [ art "sha256:e07a15c2990f4a6b" "db1" ["v1"] ] |};
    {| Repository := "acme/tools/release";
       Artefacts := [ art "sha256:3f9cdb4471aa02be" "app2" ["v2"] ] |} ].

(** [w_app] after the third package has been added as acme/tools/app:v2. *)
Definition rs_stolen : list repository :=
  [ {| Repository := "acme/tools/app";
       Artefacts := [ art "sha256:10a2b3c4e5f60718" "app1" ["v1"];
                      art "sha256:3f9cdb4471aa02be" "app2" [];
                      art "sha256:77c1d0e2a4b5f693" "app3" ["v2"] ] |} ].

Definition w_stolen : world :=
  in_memory rs_stolen
    (stored "app3" ++ stored "app2" ++ stored "app1" ++
     ["/tmp/b/db1.zip"; "/tmp/b/db1.json"]).

Definition w_db : world :=
  in_memory rs_db
    (stored "app2" ++ stored "db1" ++ stored "app1" ++
     ["/tmp/b/app3.zip"; "/tmp/b/app3.json"]).

End example.

(** ** The embedding on concrete inputs *)

Example Ext_of_path : Go.Ext "/tmp/b.d/app1.tar.zip" = ".zip".
Proof. reflexivity. Qed.

Example Ext_without_dot : Go.Ext "/tmp/b.d/app1" = "".
Proof. reflexivity. Qed.

Example TrimSuffix_zip : Go.TrimSuffix "app1.zip" ".zip" = "app1".
Proof. reflexivity. Qed.

Example Contains_fragment :
  Go.Contains "sha256:3f9cdb4471aa02be" "db" = true ∧
  Go.Contains "sha256:e07a15c2990f4a6b" "db" = false ∧
  Go.Contains "sha256:e07a15c2990f4a6b" "" = true.
Proof. by vm_compute. Qed.

Example RemoveElement_one_occurrence :
  core.RemoveElement ["v1"; "v2"; "v3"] "v2" = ["v1"; "v3"] ∧
  core.RemoveElement ["v1"; "v2"] "v9" = ["v1"; "v2"].
Proof. by vm_compute. Qed.

Example seconds_of_duration :
  Go.int64 (Go.Seconds (90 * Go.Second + 5)) = 90 ∧
  Go.int64 (Go.Hours (- (36 * Go.Hour))) = -36.
Proof. by vm_compute. Qed.

(** [Add] of a file that is not a zip file ends in the validation
    error and changes nothing. *)
Example Add_refuses_other_files :
  registry.Add (H := example.host) "/tmp/b/app1.json"
    (example.ref "acme/tools/app" "app" "v1")
    (example.seal "sha256:10a2b3c4e5f60718") example.empty
  = registry.Abort registry.Validation example.empty.
Proof. by vm_compute. Qed.

(** [List] and [ListQ] on the registry with two tagged artefacts. *)
Example List_rows :
  registry.console
    (match registry.List (H := example.host) example.w_app with
     | registry.Done _ w | registry.Abort _ w => w
     end)
  = [ registry.Stdout (registry.cells
        ["REPOSITORY"; "TAG"; "ARTEFACT ID"; "ARTEFACT TYPE"; "CREATED"; "SIZE"]);
      registry.Stdout (registry.cells
        ["acme/tools/app"; "v1"; "10a2b3c4e5f6"; "jar"; "1 day ago"; "12KB"]);
      registry.Stdout (registry.cells
        ["acme/tools/app"; "v2"; "3f9cdb4471aa"; "jar"; "1 day ago"; "12KB"]) ].
Proof. by vm_compute. Qed.

Example List_dangling_row :
  registry.console
    (match registry.List (H := example.host) example.w_stolen with
     | registry.Done _ w | registry.Abort _ w => w
     end)
  = [ registry.Stdout registry.header;
      registry.Stdout (registry.cells
        ["acme/tools/app"; "v1"; "10a2b3c4e5f6"; "jar"; "1 day ago"; "12KB"]);
      registry.Stdout (registry.cells
        ["acme/tools/app"; "<none>"; "3f9cdb4471aa"; "jar"; "1 day ago"; "12KB"]);
      registry.Stdout (registry.cells
        ["acme/tools/app"; "v2"; "77c1d0e2a4b5"; "jar"; "1 day ago"; "12KB"]) ].
Proof. by vm_compute. Qed.

Example ListQ_rows :
  registry.console
    (match registry.ListQ example.w_app with
     | registry.Done _ w | registry.Abort _ w => w
     end)
  = [ registry.Stdout "10a2b3c4e5f6"; registry.Stdout "3f9cdb4471aa" ].
Proof. by vm_compute. Qed.

(** ** Properties of the lookups *)
Import registry.
Import (hints) example.

Lemma find_index_Some {A} (f : A → bool) (l : list A) (i : nat) :
  find_index f l = Some i ↔
  ∃ x, l !! i = Some x ∧ f x = true ∧
       ∀ j y, (j < i)%nat → l !! j = Some y → f y = false.
Proof.
  revert i. induction l as [|x l IH]; intros i; simpl.
  - split; [discriminate | intros (y & Hy & _); discriminate].
  - destruct (f x) eqn:Hfx.
    + split.
      * intros [= <-]. exists x. repeat split; auto. intros j y Hj. lia.
      * intros (y & Hy & Hfy & Hmin). destruct i as [|i]; [done|].
        specialize (Hmin 0%nat x). simpl in Hmin.
        rewrite Hmin in Hfx; [done | lia | done].
    + destruct (find_index f l) as [k|] eqn:Hk; simpl.
      * split.
        -- intros [= <-]. destruct (proj1 (IH k) eq_refl) as (y & Hy & Hfy & Hmin).
           exists y. repeat split; auto.
           intros [|j] z Hj Hz; simpl in Hz; [congruence|].
           apply (Hmin j); [lia | done].
        -- intros (y & Hy & Hfy & Hmin). destruct i as [|i].
           { simpl in Hy. congruence. }
           f_equal. symmetry. assert (Some k = Some i) as [= ->]; [|done].
           apply IH. exists y. repeat split; auto.
           intros j z Hj Hz. apply (Hmin (S j)); [lia | done].
      * split; [discriminate|].
        intros (y & Hy & Hfy & Hmin). destruct i as [|i].
        { simpl in Hy. congruence. }
        exfalso. assert (None = Some i) as Hne; [|discriminate].
        apply IH. exists y. repeat split; auto.
        intros j z Hj Hz. apply (Hmin (S j)); [lia | done].
Qed.

Lemma find_index_None {A} (f : A → bool) (l : list A) :
  find_index f l = None ↔ ∀ x, x ∈ l → f x = false.
Proof.
  induction l as [|x l IH]; simpl.
  - split; [intros _ y Hy; inversion Hy | done].
  - destruct (f x) eqn:Hfx.
    + split; [discriminate|]. intros H. rewrite H in Hfx; [done | left].
    + destruct (find_index f l); simpl.
      * split; [discriminate|]. intros H.
        assert (Some n = None) as Hn; [|discriminate].
        apply IH. intros y Hy. apply H. by right.
      * split; [|done]. intros _ y Hy.
        apply elem_of_cons in Hy as [->|Hy]; [done|]. by apply IH.
Qed.

Lemma find_index_lt {A} (f : A → bool) (l : list A) (i : nat) :
  find_index f l = Some i → (i < length l)%nat.
Proof.
  intros (x & Hx & _)%find_index_Some. by eapply lookup_lt_Some.
Qed.

Lemma indices_from_spec {A} (f : A → bool) (l : list A) (i j : nat) :
  j ∈ indices_from f i l ↔
  ∃ x, (i ≤ j)%nat ∧ l !! (j - i)%nat = Some x ∧ f x = true.
Proof.
  revert i. induction l as [|x l IH]; intros i; simpl.
  - split; [intros H; inversion H | intros (y & _ & Hy & _); discriminate].
  - assert (j ∈ indices_from f (S i) l ↔
            ∃ y, (i ≤ j)%nat ∧ (x :: l) !! (j - i)%nat = Some y ∧ f y = true ∧ j ≠ i)
      as Htail.
    { rewrite IH. split.
      - intros (y & Hij & Hy & Hfy). exists y. repeat split; [lia | | done | lia].
        replace (j - i)%nat with (S (j - S i)) by lia. done.
      - intros (y & Hij & Hy & Hfy & Hne). exists y. repeat split; [lia | | done].
        replace (j - i)%nat with (S (j - S i)) in Hy by lia. done. }
    destruct (f x) eqn:Hfx.
    + rewrite elem_of_cons, Htail. split.
      * intros [-> | (y & ? & ? & ? & ?)]; [|by eauto].
        exists x. rewrite Nat.sub_diag. done.
      * intros (y & Hij & Hy & Hfy). destruct (decide (j = i)) as [->|Hne]; [by left|].
        right. by eauto 6.
    + rewrite Htail. split.
      * intros (y & ? & ? & ? & ?). by eauto.
      * intros (y & Hij & Hy & Hfy). exists y. repeat split; auto.
        intros ->. rewrite Nat.sub_diag in Hy. simpl in Hy. congruence.
Qed.

(** All the artefacts of [rs] whose Id contains the fragment, in store
    order; [rs] starts at repository index [ri]. *)
Fixpoint id_matches_from (ri : nat) (rs : list repository) (fragment : string)
    : list artefact_ptr :=
  match rs with
  | [] => []
  | repo :: rs' =>
      ((λ ai, (ri, ai)) <$> indices_from (id_contains fragment) 0 (Artefacts repo))
        ++ id_matches_from (S ri) rs' fragment
  end.

Definition id_matches (rs : list repository) (fragment : string) : list artefact_ptr :=
  id_matches_from 0 rs fragment.

(** No repository has the reference's fully-qualified name. *)
Definition unnamed (rs : list repository) (name : core.ArtieName) : Prop :=
  ∀ repo, repo ∈ rs → Repository repo ≠ core.FullyQualifiedName name.

Lemma id_matches_from_spec ri rs fragment p :
  p ∈ id_matches_from ri rs fragment ↔
  (ri ≤ p.1)%nat ∧
  ∃ a, deref rs (p.1 - ri, p.2)%nat = Some a ∧ Go.Contains (Id a) fragment = true.
Proof.
  revert ri. induction rs as [|repo rs IH]; intros ri; simpl.
  - split; [intros H; inversion H | intros (_ & a & Ha & _)].
    unfold deref in Ha. simpl in Ha. discriminate.
  - rewrite elem_of_app, list_elem_of_fmap, IH. destruct p as [pr pa]. simpl. split.
    + intros [(ai & [= -> ->] & Hai) | (Hle & a & Ha & Hc)].
      * apply indices_from_spec in Hai as (a & _ & Ha & Hc).
        rewrite Nat.sub_0_r in Ha. split; [lia|]. exists a.
        rewrite Nat.sub_diag. done.
      * split; [lia|]. exists a. split; [|done].
        replace (pr - ri)%nat with (S (pr - S ri)) by lia. done.
    + intros (Hle & a & Ha & Hc). destruct (decide (pr = ri)) as [->|Hne].
      * left. exists pa. split; [done|]. apply indices_from_spec.
        rewrite Nat.sub_diag in Ha. exists a. rewrite Nat.sub_0_r.
        repeat split; [lia | done | done].
      * right. split; [lia|]. exists a. split; [|done].
        replace (pr - ri)%nat with (S (pr - S ri)) in Ha by lia. done.
Qed.

Lemma named_false rs name :
  unnamed rs name → ∀ repo, repo ∈ rs → named name repo = false.
Proof.
  intros Hun repo Hrepo. unfold named. apply String.eqb_neq. by apply Hun.
Qed.

Lemma GetArtefact_from_unnamed ri rs name acc :
  unnamed rs name → (length acc ≤ 1)%nat →
  match acc ++ id_matches_from ri rs (core.Name name) with
  | [] => GetArtefact_from ri rs name acc = NotFound
  | [p] => GetArtefact_from ri rs name acc = Found p
  | ms => ∃ n, GetArtefact_from ri rs name acc = Ambiguous n ∧
               (1 < n ≤ length ms)%nat
  end.
Proof.
  revert ri acc. induction rs as [|repo rs IH]; intros ri acc Hun Hacc; simpl.
  - rewrite app_nil_r. destruct acc as [|p [|q acc]]; simpl in *; [done | done | lia].
  - rewrite (named_false _ _ Hun repo) by left.
    set (here := (λ ai, (ri, ai)) <$> _).
    rewrite app_assoc.
    destruct (1 <? length (acc ++ here))%nat eqn:Hlen.
    + apply Nat.ltb_lt in Hlen.
      destruct (acc ++ here) as [|p [|q l]] eqn:Hah; simpl in Hlen; [lia | lia |].
      simpl. exists (S (S (length l))). split; [done|].
      rewrite length_app. lia.
    + apply Nat.ltb_ge in Hlen. apply IH; [|done].
      intros r Hr. apply Hun. by right.
Qed.

Lemma id_matches_spec rs fragment p :
  p ∈ id_matches rs fragment ↔
  ∃ a, deref rs p = Some a ∧ Go.Contains (Id a) fragment = true.
Proof.
  unfold id_matches. rewrite id_matches_from_spec. destruct p as [pr pa]. simpl.
  rewrite Nat.sub_0_r. split; [intros (_ & H); exact H | intros H; split; [lia | exact H]].
Qed.

Lemma indices_from_NoDup {A} (f : A → bool) (l : list A) (i : nat) :
  NoDup (indices_from f i l).
Proof.
  revert i. induction l as [|x l IH]; intros i; simpl; [constructor|].
  destruct (f x); [|apply IH]. constructor; [|apply IH].
  intros (y & Hle & _)%indices_from_spec. lia.
Qed.

Lemma id_matches_NoDup rs fragment : NoDup (id_matches rs fragment).
Proof.
  unfold id_matches. generalize 0%nat. induction rs as [|repo rs IH]; intros ri; simpl.
  - constructor.
  - apply list.NoDup_app. split; [|split; [|apply IH]].
    + apply NoDup_fmap_2_strong; [|apply indices_from_NoDup]. by intros x y _ _ [= ->].
    + intros p (ai & -> & _)%list_elem_of_fmap (Hle & _)%id_matches_from_spec.
      simpl in Hle. lia.
Qed.

Lemma existsb_elem_of {A} (f : A → bool) (l : list A) :
  existsb f l = true ↔ ∃ x, x ∈ l ∧ f x = true.
Proof.
  rewrite existsb_exists. split; intros (x & Hx & Hf); exists x; split; auto;
    by apply list_elem_of_In.
Qed.

Lemma existsb_false_elem_of {A} (f : A → bool) (l : list A) :
  existsb f l = false ↔ ∀ x, x ∈ l → f x = false.
Proof.
  split.
  - intros H x Hx. destruct (f x) eqn:Hf; [|done].
    assert (existsb f l = true) by (apply existsb_elem_of; eauto). congruence.
  - intros H. destruct (existsb f l) eqn:He; [|done].
    apply existsb_elem_of in He as (x & Hx & Hf). rewrite H in Hf; done.
Qed.

Lemma find_index_named_None rs name :
  unnamed rs name → find_index (named name) rs = None.
Proof. intros Hun. apply find_index_None. by apply named_false. Qed.

(** C6: when no Repository has the reference's fully-qualified name,
    [GetArtefact] searches the bare name fragment in the content
    identifiers of all Artifacts, and its outcome has three states: no
    Artifact matches and the result is nil; exactly one matches and the
    result is that Artifact; more than one match and the lookup ends in
    the ambiguity error, with none of the candidates returned. *)
Theorem GetArtefact_fallback_tristate (rs : list repository) (name : core.ArtieName) :
  unnamed rs name →
  (∀ p, p ∈ id_matches rs (core.Name name) ↔
        ∃ a, deref rs p = Some a ∧ Go.Contains (Id a) (core.Name name) = true) ∧
  NoDup (id_matches rs (core.Name name)) ∧
  match id_matches rs (core.Name name) with
  | [] => GetArtefact rs name = NotFound
  | [p] => GetArtefact rs name = Found p
  | ms => ∃ n, GetArtefact rs name = Ambiguous n ∧ (1 < n ≤ length ms)%nat
  end.
Proof.
  intros Hun. split; [|split].
  - intros p. apply id_matches_spec.
  - apply id_matches_NoDup.
  - apply (GetArtefact_from_unnamed 0 rs name [] Hun). simpl. lia.
Qed.

(** C4, as the code has it: when no Repository has the reference's
    fully-qualified name and the bare name fragment occurs in the content
    identifier of more than one Artifact, [findRepository] reports no
    ambiguity; it returns the first Repository, in store order, that
    holds an Artifact whose identifier contains the fragment. *)
Theorem findRepository_first_candidate (rs : list repository) (name : core.ArtieName) :
  unnamed rs name →
  (1 < length (id_matches rs (core.Name name)))%nat →
  ∃ i repo,
    findRepository rs name = Some i ∧
    rs !! i = Some repo ∧
    (∃ a, a ∈ Artefacts repo ∧ Go.Contains (Id a) (core.Name name) = true) ∧
    ∀ j repo' a, (j < i)%nat → rs !! j = Some repo' → a ∈ Artefacts repo' →
                 Go.Contains (Id a) (core.Name name) = false.
Proof.
  intros Hun Hmany. unfold findRepository.
  rewrite (find_index_named_None _ _ Hun).
  destruct (id_matches rs (core.Name name)) as [|p ms] eqn:Hms; [simpl in Hmany; lia|].
  assert (p ∈ id_matches rs (core.Name name)) as Hp by (rewrite Hms; left).
  apply id_matches_spec in Hp as (a & Ha & Hc).
  unfold deref in Ha. destruct (rs !! p.1) as [repo|] eqn:Hrepo; [|done]. simpl in Ha.
  set (f := λ repo, existsb (id_contains (core.Name name)) (Artefacts repo)).
  destruct (find_index f rs) as [i|] eqn:Hi.
  - apply find_index_Some in Hi as (r & Hr & Hfr & Hmin).
    exists i, r. split; [done|]. split; [done|]. split.
    + by apply existsb_elem_of in Hfr.
    + intros j repo' a' Hj Hrepo' Ha'.
      specialize (Hmin j repo' Hj Hrepo'). unfold f in Hmin.
      by eapply existsb_false_elem_of in Hmin.
  - exfalso. eapply find_index_None in Hi; [|by eapply list_elem_of_lookup_2].
    unfold f in Hi. eapply existsb_false_elem_of in Hi; [|by eapply list_elem_of_lookup_2].
    unfold id_contains in Hi. congruence.
Qed.

Ltac each_element H :=
  repeat (apply elem_of_cons in H as [->|H]); [..| by apply elem_of_nil in H].

Lemma GetArtefact_fallback_tristate_witness :
  unnamed example.rs_abc (example.ref "91abc" "91abc" "latest") ∧
  GetArtefact example.rs_abc (example.ref "91abc" "91abc" "latest") = Found (0, 0)%nat.
Proof.
  assert (unnamed example.rs_abc (example.ref "91abc" "91abc" "latest")) as Hun.
  { intros repo Hrepo. each_element Hrepo; discriminate. }
  split; [exact Hun|].
  exact (proj2 (proj2 (GetArtefact_fallback_tristate _ _ Hun))).
Defined.

Lemma findRepository_first_candidate_witness :
  ∃ repo, findRepository example.rs_abc (example.ref "abc123" "abc123" "latest") = Some 0%nat ∧
          example.rs_abc !! 0%nat = Some repo.
Proof.
  assert (unnamed example.rs_abc (example.ref "abc123" "abc123" "latest")) as Hun.
  { intros repo Hrepo. each_element Hrepo; discriminate. }
  assert (1 < length (id_matches example.rs_abc "abc123"))%nat as Hmany.
  { vm_compute. lia. }
  destruct (findRepository_first_candidate _ _ Hun Hmany) as (i & repo & Hi & Hrepo & _).
  exists repo. vm_compute in Hi. injection Hi as <-. split; [reflexivity | exact Hrepo].
Defined.

(** C4, as the specification states it, fails: no Repository is named
    abc123, two Artifacts in two Repositories have abc123 in their
    identifier (the artefact lookup reports the ambiguity), and
    [findRepository] returns the first of the two Repositories. *)
Lemma findRepository_reports_no_ambiguity :
  unnamed example.rs_abc (example.ref "abc123" "abc123" "latest") ∧
  length (id_matches example.rs_abc "abc123") = 2%nat ∧
  GetArtefact example.rs_abc (example.ref "abc123" "abc123" "latest") = Ambiguous 2 ∧
  findRepository example.rs_abc (example.ref "abc123" "abc123" "latest") = Some 0%nat.
Proof.
  split; [|by vm_compute].
  intros repo Hrepo. each_element Hrepo; discriminate.
Qed.

(** ** Properties of the removal helpers *)

(** What the result [r] of a removal helper is, for the list [a] and the
    test [f]: [a] itself when no entry passes the test; else, with [i] the
    first entry that passes, the list one shorter in which the slot [i]
    holds the last entry of [a] and every other slot is as in [a]. *)
Definition removes_first_by_swap {A} (f : A → bool) (a r : list A) : Prop :=
  ((∀ x, x ∈ a → f x = false) → r = a) ∧
  (∀ i x, a !! i = Some x → f x = true →
          (∀ j y, (j < i)%nat → a !! j = Some y → f y = false) →
     ∃ z, a !! (length a - 1)%nat = Some z ∧
          length r = (length a - 1)%nat ∧
          ∀ j, (j < length a - 1)%nat →
               r !! j = if decide (j = i) then Some z else a !! j).

Lemma swap_remove_lookup {A} (i : nat) (a : list A) :
  (i < length a)%nat →
  ∃ z, a !! (length a - 1)%nat = Some z ∧
       length (swap_remove i a) = (length a - 1)%nat ∧
       ∀ j, (j < length a - 1)%nat →
            swap_remove i a !! j = if decide (j = i) then Some z else a !! j.
Proof.
  intros Hi. unfold swap_remove.
  destruct (lookup_lt_is_Some_2 a (length a - 1)%nat) as [z Hz]; [lia|].
  rewrite Hz. exists z. split; [done|]. split.
  - rewrite length_take_le; [done|]. rewrite length_insert. lia.
  - intros j Hj. rewrite lookup_take_lt by done.
    rewrite list_lookup_insert. destruct (decide (j = i)) as [->|Hne].
    + rewrite decide_True; done.
    + rewrite decide_False; [done|]. intros [-> _]. done.
Qed.

Lemma remove_by_find_index {A} (f : A → bool) (a : list A) :
  removes_first_by_swap f a
    (match find_index f a with None => a | Some i => swap_remove i a end).
Proof.
  split.
  - intros Hnone. apply find_index_None in Hnone. by rewrite Hnone.
  - intros i x Hx Hfx Hmin.
    assert (find_index f a = Some i) as -> by (apply find_index_Some; eauto).
    apply swap_remove_lookup. by eapply lookup_lt_Some.
Qed.

(** C10: [removeArtefactById] and [removeRepoByName] remove exactly the
    first entry that matches (the first Artifact whose Id contains the
    fragment, the first Repository with the fully-qualified name): the last
    entry is moved into its slot and the list is truncated.  When no entry
    matches, the list is returned as it is.  The order of the entries that
    remain is not kept: removing the first of three puts the third before
    the second. *)
Theorem removal_helpers_swap_with_last :
  (∀ (a : list artefact) (id : string),
     removes_first_by_swap (λ x, Go.Contains (Id x) id) a (removeArtefactById a id)) ∧
  (∀ (a : list repository) (name : core.ArtieName),
     removes_first_by_swap
       (λ x, bool_decide (Repository x = core.FullyQualifiedName name)) a
       (removeRepoByName a name)) ∧
  (∀ x y z : artefact,
     Id x = "sha256:aa01" → Id y = "sha256:bb02" → Id z = "sha256:cc03" →
     removeArtefactById [x; y; z] "aa01" = [z; y]) ∧
  (∀ x y z : repository,
     Repository x = "acme/a" → Repository y = "acme/b" → Repository z = "acme/c" →
     removeRepoByName [x; y; z] (example.ref "acme/a" "a" "v1") = [z; y]).
Proof.
  split; [|split; [|split]].
  - intros a id. apply (remove_by_find_index (id_contains id)).
  - intros a name. unfold removeRepoByName.
    assert (∀ l, find_index (named name) l =
                 find_index (λ x, bool_decide (Repository x = core.FullyQualifiedName name)) l)
      as Heq.
    { induction l as [|x l IH]; simpl; [done|]. rewrite IH. unfold named.
      destruct (String.eqb_spec (Repository x) (core.FullyQualifiedName name)).
      - by rewrite bool_decide_eq_true_2.
      - by rewrite bool_decide_eq_false_2. }
    rewrite Heq. apply remove_by_find_index.
  - intros x y z Hx Hy Hz. unfold removeArtefactById. simpl.
    unfold id_contains. rewrite Hx. reflexivity.
  - intros x y z Hx Hy Hz. unfold removeRepoByName. simpl.
    unfold named. rewrite Hx. reflexivity.
Qed.

(** ** How the steps of a method compose *)

Lemma bind_Done {A B} (m : M A) (f : A → M B) w b w' :
  (m ≫= f) w = Done b w' ↔ ∃ a w1, m w = Done a w1 ∧ f a w1 = Done b w'.
Proof.
  unfold mbind, M_bind. destruct (m w) as [a w1|e w1]; split.
  - intros Hf. by exists a, w1.
  - by intros (a' & w2 & [= -> ->] & Hf).
  - discriminate.
  - by intros (a' & w2 & [=] & _).
Qed.

Lemma bind_Abort {A B} (m : M A) (f : A → M B) w e w' :
  (m ≫= f) w = Abort e w' ↔
  m w = Abort e w' ∨ ∃ a w1, m w = Done a w1 ∧ f a w1 = Abort e w'.
Proof.
  unfold mbind, M_bind. destruct (m w) as [a w1|e1 w1]; split.
  - intros Hf. right. by exists a, w1.
  - intros [[=] | (a' & w2 & [= -> ->] & Hf)]. done.
  - intros [= -> ->]. by left.
  - intros [[= -> ->] | (a' & w2 & [=] & _)]. done.
Qed.

Lemma bind_eq {A B} (m : M A) (f : A → M B) w a w1 :
  m w = Done a w1 → (m ≫= f) w = f a w1.
Proof. unfold mbind, M_bind. by intros ->. Qed.

Lemma traverse_Done_inv {A B} (f : A → M B) l w ys w' :
  traverse f l w = Done ys w' →
  ∀ x, x ∈ l → ∃ w0 y w1, f x w0 = Done y w1.
Proof.
  revert w ys w'. induction l as [|x l IH]; intros w ys w' Ht y Hy; [inversion Hy|].
  simpl in Ht. apply bind_Done in Ht as (b & w1 & Hx & Ht).
  apply bind_Done in Ht as (bs & w2 & Hl & _).
  apply elem_of_cons in Hy as [->|Hy]; [by eauto | by eapply IH].
Qed.

Lemma traverse_Abort_inv {A B} (f : A → M B) l w e w' :
  traverse f l w = Abort e w' →
  ∃ x w0, x ∈ l ∧ f x w0 = Abort e w'.
Proof.
  revert w. induction l as [|x l IH]; intros w Ht; [discriminate|].
  simpl in Ht. apply bind_Abort in Ht as [Hx | (b & w1 & Hx & Ht)].
  - exists x, w. split; [left | done].
  - apply bind_Abort in Ht as [Hl | (bs & w2 & _ & [=])].
    destruct (IH _ Hl) as (y & w0 & Hy & Hf). exists y, w0. split; [by right | done].
Qed.

(** A traversal whose steps read the world without changing it and can
    only fail with [e]. *)
Lemma traverse_reader {A B} (f : A → M B) (g : A → B) (e : failure) l :
  (∀ x w, x ∈ l → f x w = Done (g x) w ∨ f x w = Abort e w) →
  ∀ w, traverse f l w = Done (g <$> l) w ∨ traverse f l w = Abort e w.
Proof.
  induction l as [|x l IH]; intros Hf w; simpl; [by left|].
  destruct (Hf x w (list_elem_of_here _ _)) as [Hx|Hx].
  - rewrite (bind_eq _ _ _ _ _ Hx).
    destruct (IH (λ y w0 Hy, Hf y w0 (list_elem_of_further _ _ _ Hy)) w) as [Hl|Hl].
    + left. by rewrite (bind_eq _ _ _ _ _ Hl).
    + right. apply bind_Abort. by left.
  - right. apply bind_Abort. by left.
Qed.

(** ** Properties of the listings *)

(** Every Artifact's content identifier has at least 19 bytes. *)
Definition long_Ids (rs : list repository) : bool :=
  forallb (λ repo, forallb (λ a, (19 <=? String.length (Id a))%nat) (Artefacts repo)) rs.

(** The world after the table writer has flushed the rows. *)
Definition flushed (w : world) (rows : list string) : world :=
  {| Repositories := Repositories w; document := document w;
     files := files w; console := console w ++ (Stdout <$> rows) |}.

Lemma short_Id_long a w :
  (19 ≤ String.length (Id a))%nat → short_Id a w = Done (substring 7 12 (Id a)) w.
Proof.
  intros Hlen. unfold short_Id, Go.slice.
  replace (19 <=? String.length (Id a))%nat with true
    by (symmetry; by apply Nat.leb_le).
  reflexivity.
Qed.

Lemma short_Id_short a w :
  (String.length (Id a) < 19)%nat → short_Id a w = Abort Panic w.
Proof.
  intros Hlen. unfold short_Id, Go.slice.
  replace (19 <=? String.length (Id a))%nat with false
    by (symmetry; apply Nat.leb_gt; lia).
  reflexivity.
Qed.

Lemma short_Id_Done a w s w' :
  short_Id a w = Done s w' → (19 ≤ String.length (Id a))%nat.
Proof.
  intros Hs. destruct (decide (19 ≤ String.length (Id a))%nat) as [|Hn]; [done|].
  rewrite short_Id_short in Hs by lia. discriminate.
Qed.

Lemma short_Id_Panic a w w' :
  short_Id a w = Abort Panic w' → (String.length (Id a) < 19)%nat.
Proof.
  intros Hs. destruct (decide (19 ≤ String.length (Id a))%nat) as [Hl|Hn]; [|lia].
  rewrite short_Id_long in Hs by lia. discriminate.
Qed.

Lemma long_Ids_true rs :
  long_Ids rs = true ↔
  ∀ repo a, repo ∈ rs → a ∈ Artefacts repo → (19 ≤ String.length (Id a))%nat.
Proof.
  unfold long_Ids. rewrite forallb_forall. split.
  - intros Hall repo a Hrepo Ha. apply list_elem_of_In in Hrepo.
    specialize (Hall repo Hrepo). rewrite forallb_forall in Hall.
    apply Nat.leb_le, Hall. by apply list_elem_of_In.
  - intros Hall repo Hrepo. apply forallb_forall. intros a Ha.
    apply Nat.leb_le, (Hall repo); by apply list_elem_of_In.
Qed.

Lemma long_Ids_false rs :
  long_Ids rs = false →
  ∃ repo a, repo ∈ rs ∧ a ∈ Artefacts repo ∧ (String.length (Id a) < 19)%nat.
Proof.
  unfold long_Ids. induction rs as [|repo rs IH]; cbn [forallb]; [discriminate|].
  intros [Hrepo|Hrs]%andb_false_iff.
  - exists repo. assert (∃ a, a ∈ Artefacts repo ∧ (String.length (Id a) < 19)%nat)
      as (a & Ha & Hlen).
    { induction (Artefacts repo) as [|a l IHl]; cbn [forallb] in Hrepo; [discriminate|].
      apply andb_false_iff in Hrepo as [Ha|Hl].
      - exists a. split; [left | by apply Nat.leb_gt in Ha].
      - destruct (IHl Hl) as (b & Hb & Hlen). exists b. split; [by right | done]. }
    exists a. split; [left | done].
  - destruct (IH Hrs) as (r & a & Hr & Ha & Hlen). exists r, a. split; [by right | done].
Qed.

Lemma traverse_short_Id (arts : list artefact) w :
  traverse short_Id arts w = Done ((λ a, substring 7 12 (Id a)) <$> arts) w ∨
  traverse short_Id arts w = Abort Panic w.
Proof.
  apply traverse_reader. intros a w0 _.
  destruct (decide (19 ≤ String.length (Id a))%nat).
  - left. by apply short_Id_long.
  - right. apply short_Id_short. lia.
Qed.

Lemma ListQ_rows_reader (rs : list repository) w :
  traverse (λ repo, traverse short_Id (Artefacts repo)) rs w =
    Done ((λ repo, (λ a, substring 7 12 (Id a)) <$> Artefacts repo) <$> rs) w ∨
  traverse (λ repo, traverse short_Id (Artefacts repo)) rs w = Abort Panic w.
Proof.
  apply (traverse_reader _ (λ repo, (λ a, substring 7 12 (Id a)) <$> Artefacts repo)).
  intros repo w0 _. apply traverse_short_Id.
Qed.

Lemma toElapsedLabel_no_Panic `{core.Host} s w w' :
  toElapsedLabel s w ≠ Abort Panic w'.
Proof. unfold toElapsedLabel. by destruct (core.ParseRFC850 s). Qed.

Lemma List_row_Done `{core.Host} repo tag a w row w' :
  List_row repo tag a w = Done row w' → (19 ≤ String.length (Id a))%nat.
Proof.
  unfold List_row. intros (s & w1 & Hs & _)%bind_Done. by eapply short_Id_Done.
Qed.

Lemma List_row_Panic `{core.Host} repo tag a w w' :
  List_row repo tag a w = Abort Panic w' → (String.length (Id a) < 19)%nat.
Proof.
  unfold List_row. intros [Hs | (s & w1 & Hs & Hrest)]%bind_Abort.
  - by eapply short_Id_Panic.
  - apply bind_Abort in Hrest as [Ht | (age & w2 & _ & [=])].
    by apply toElapsedLabel_no_Panic in Ht.
Qed.

Lemma List_artefact_Done `{core.Host} repo a w rows w' :
  List_artefact repo a w = Done rows w' → (19 ≤ String.length (Id a))%nat.
Proof.
  unfold List_artefact. intros (d & w1 & Hd & Hrest)%bind_Done.
  apply bind_Done in Hrest as (t & w2 & Ht & _).
  destruct (Tags a) as [|tag tags] eqn:Htags; simpl in Hd.
  - apply bind_Done in Hd as (row & w3 & Hrow & _). by eapply List_row_Done.
  - destruct (traverse_Done_inv _ _ _ _ _ Ht tag) as (w0 & row & w3 & Hrow); [left|].
    by eapply List_row_Done.
Qed.

Lemma List_artefact_Panic `{core.Host} repo a w w' :
  List_artefact repo a w = Abort Panic w' → (String.length (Id a) < 19)%nat.
Proof.
  unfold List_artefact. intros [Hd | (d & w1 & Hd & Hrest)]%bind_Abort.
  - destruct (length (Tags a) =? 0)%nat; [|discriminate].
    apply bind_Abort in Hd as [Hrow | (row & w1 & _ & [=])]. by eapply List_row_Panic.
  - apply bind_Abort in Hrest as [Ht | (t & w2 & _ & [=])].
    apply traverse_Abort_inv in Ht as (tag & w0 & _ & Hrow). by eapply List_row_Panic.
Qed.


(** ** Properties of the age label *)

(** The units from the smallest to the largest. *)
Definition rank (u : unit_of_time) : nat :=
  match u with
  | Seconds => 0
  | Minutes => 1
  | Hours => 2
  | Days => 3
  | Weeks => 4
  | Months => 5
  | Years => 6
  end.

Definition day : Z := 24 * Go.Hour.

Lemma Sub_days (now days : Z) :
  0 ≤ days ≤ 100000 → Go.Sub now (now - days * day) = days * day.
Proof.
  intros Hdays. unfold Go.Sub, Go.minDuration, Go.maxDuration, day, Go.Hour,
    Go.Minute, Go.Second.
  replace (now - (now - days * (24 * (60 * (60 * 1000000000)))))
    with (days * (24 * (60 * (60 * 1000000000)))) by lia.
  lia.
Qed.

Lemma ago_plural (x : float) (l : string) :
  ago x l =
  Go.fmt_d (Go.int64 x) +:+ " " +:+
    (l +:+ if 1 <? Go.int64 x then "s" else "") +:+ " ago".
Proof.
  unfold ago, plural. destruct (1 <? Go.int64 x); [done|].
  assert (l +:+ "" = l) as ->; [|done].
  induction l as [|c l IH]; [done|].
  change (String c (l +:+ "") = String c l). by rewrite IH.
Qed.



(** ** Properties of Add *)

(** When a repository has the reference's fully-qualified name and an
    artefact in it has the tag, [GetArtefact] ends with the first such
    artefact of the first such repository, unless the repositories before
    it raise the ambiguity error. *)
Lemma GetArtefact_from_named ri rs name acc i repo j :
  find_index (named name) rs = Some i →
  rs !! i = Some repo →
  find_index (λ a, HasTag a (core.Tag name)) (Artefacts repo) = Some j →
  GetArtefact_from ri rs name acc = Found ((ri + i)%nat, j) ∨
  ∃ n, GetArtefact_from ri rs name acc = Ambiguous n.
Proof.
  revert ri acc i. induction rs as [|r rs IH]; intros ri acc i Hi Hrepo Hj; [done|].
  simpl in Hi |- *. destruct (named name r) eqn:Hr.
  - injection Hi as <-. simpl in Hrepo. injection Hrepo as ->.
    rewrite Hj, Nat.add_0_r. by left.
  - destruct (find_index (named name) rs) as [i'|] eqn:Hi'; [|done].
    injection Hi as <-. simpl in Hrepo.
    destruct (1 <? length _)%nat; [right; by eauto|].
    replace (ri + S i')%nat with (S ri + i')%nat by lia.
    by apply IH.
Qed.

Lemma GetArtefact_named rs name i repo j :
  find_index (named name) rs = Some i →
  rs !! i = Some repo →
  find_index (λ a, HasTag a (core.Tag name)) (Artefacts repo) = Some j →
  GetArtefact rs name = Found (i, j) ∨ ∃ n, GetArtefact rs name = Ambiguous n.
Proof. apply (GetArtefact_from_named 0). Qed.

Lemma find_index_ext_map {A} (f : A → bool) (g : A → A) (l : list A) (i : nat) :
  (∀ x, f (g x) = f x) → find_index f (alter g i l) = find_index f l.
Proof.
  intros Hfg. revert i. induction l as [|x l IH]; intros i; [done|].
  destruct i as [|i].
  - simpl. by rewrite Hfg.
  - change (alter g (S i) (x :: l)) with (x :: alter g i l).
    cbn [find_index]. by rewrite IH.
Qed.

Lemma find_index_named_set_Tags rs name p tags :
  find_index (named name) (set_Tags p tags rs) = find_index (named name) rs.
Proof. unfold set_Tags. by apply find_index_ext_map. Qed.

Lemma findRepository_named rs name i :
  find_index (named name) rs = Some i → findRepository rs name = Some i.
Proof. unfold findRepository. by intros ->. Qed.

Lemma RemoveElement_other (tags : list string) (tag t : string) :
  t ≠ tag → t ∈ core.RemoveElement tags tag ↔ t ∈ tags.
Proof.
  intros Hne. induction tags as [|x tags IH]; simpl; [done|].
  destruct (String.eqb_spec x tag) as [->|Hx].
  - rewrite elem_of_cons. split; [by right | by intros [?|?]].
  - rewrite !elem_of_cons, IH. done.
Qed.

Lemma RemoveElement_NoDup (tags : list string) (tag : string) :
  NoDup tags → tag ∉ core.RemoveElement tags tag.
Proof.
  induction 1 as [|x tags Hx Hnd IH]; simpl; [by intros ?%elem_of_nil|].
  destruct (String.eqb_spec x tag) as [->|Hne]; [done|].
  rewrite elem_of_cons. by intros [?|?].
Qed.

Lemma RemoveElement_length (tags : list string) (tag : string) :
  tag ∈ tags → S (length (core.RemoveElement tags tag)) = length tags.
Proof.
  induction tags as [|x tags IH]; simpl; [by intros ?%elem_of_nil|].
  destruct (String.eqb_spec x tag) as [->|Hne]; [done|].
  intros [?|Hin]%elem_of_cons; [congruence|]. simpl. by rewrite IH.
Qed.

Lemma RemoveElement_absent (tags : list string) (tag : string) :
  tag ∉ tags → core.RemoveElement tags tag = tags.
Proof.
  induction tags as [|x tags IH]; simpl; [done|].
  rewrite not_elem_of_cons. intros [Hne Hnin].
  destruct (String.eqb_spec x tag) as [->|_]; [done|]. by rewrite IH.
Qed.

Lemma HasTag_elem_of (a : artefact) (tag : string) :
  HasTag a tag = true ↔ tag ∈ Tags a.
Proof.
  unfold HasTag. rewrite existsb_elem_of. split.
  - by intros (t & Ht & ->%String.eqb_eq).
  - intros Ht. exists tag. split; [done | apply String.eqb_refl].
Qed.

(** The world with another in-memory index. *)
Definition with_Repositories (rs : list repository) (w : world) : world :=
  {| Repositories := rs; document := document w; files := files w; console := console w |}.

Lemma on_files_Done op w u w' :
  on_files op w = Done u w' →
  Repositories w' = Repositories w ∧ document w' = document w ∧ console w' = console w.
Proof.
  unfold on_files. destruct (op (files w)); [|discriminate]. by intros [= _ <-].
Qed.

Lemma deref_Some rs i j repo a :
  rs !! i = Some repo → Artefacts repo !! j = Some a → deref rs (i, j) = Some a.
Proof. intros Hi Hj. unfold deref. simpl. by rewrite Hi. Qed.

Lemma unTag_Found name tag w p a :
  GetArtefact (Repositories w) name = Found p →
  deref (Repositories w) p = Some a →
  unTag name tag w =
    Done () (with_Repositories (set_Tags p (core.RemoveElement (Tags a) tag) (Repositories w)) w).
Proof.
  intros Hp Ha. unfold unTag.
  rewrite (bind_eq _ _ w (Some p) w) by (unfold getArtefact; by rewrite Hp).
  rewrite (bind_eq _ _ w a w) by (unfold load; by rewrite Ha).
  reflexivity.
Qed.

Lemma unTag_Ambiguous name tag w n :
  GetArtefact (Repositories w) name = Ambiguous n →
  unTag name tag w = Abort (AmbiguousErr n) w.
Proof.
  intros Hn. unfold unTag. apply bind_Abort. left. unfold getArtefact. by rewrite Hn.
Qed.

Lemma list_alter_insert {A} (f : A → A) (l : list A) (i : nat) (x : A) :
  l !! i = Some x → alter f i l = <[i := f x]> l.
Proof.
  revert i. induction l as [|y l IH]; intros i Hi; [done|].
  destruct i as [|i]; simpl in Hi.
  - by injection Hi as ->.
  - change (y :: alter f i l = y :: <[i := f x]> l). by rewrite IH.
Qed.

Lemma set_Tags_insert rs i j repo a tags :
  rs !! i = Some repo → Artefacts repo !! j = Some a →
  set_Tags (i, j) tags rs =
    <[i := with_Artefacts (<[j := with_Tags tags a]> (Artefacts repo)) repo]> rs.
Proof.
  intros Hi Hj. unfold set_Tags. simpl.
  rewrite (list_alter_insert _ _ _ _ Hi). by rewrite (list_alter_insert _ _ _ _ Hj).
Qed.

Lemma set_Artefacts_insert rs i repo arts :
  rs !! i = Some repo →
  set_Artefacts i arts rs = <[i := with_Artefacts arts repo]> rs.
Proof. intros Hi. unfold set_Artefacts. by rewrite (list_alter_insert _ _ _ _ Hi). Qed.

Lemma Add_steal_Repositories `{core.Host} filename name s w w' i repo j holder :
  find_index (named name) (Repositories w) = Some i →
  Repositories w !! i = Some repo →
  find_index (λ a, HasTag a (core.Tag name)) (Artefacts repo) = Some j →
  Artefacts repo !! j = Some holder →
  Add filename name s w = Done () w' →
  Repositories w' =
    <[i := with_Artefacts
             (<[j := with_Tags (core.RemoveElement (Tags holder) (core.Tag name)) holder]>
                (Artefacts repo)
              ++ [new_artefact (Go.TrimSuffix (core.Base filename) (Go.Ext (core.Base filename)))
                               name s])
             repo]> (Repositories w) ∧
  document w' = Repositories w'.
Proof.
  intros Hi Hrepo Hj Hholder Hadd. unfold Add in Hadd.
  destruct (negb _); [discriminate|].
  apply bind_Done in Hadd as (u1 & w1 & Hzip & Hadd).
  apply bind_Done in Hadd as (u2 & w2 & Hjson & Hadd).
  apply on_files_Done in Hzip as (Hr1 & _). apply on_files_Done in Hjson as (Hr2 & _).
  rewrite Hr1 in Hr2. clear Hr1 w1 u1 u2.
  apply bind_Done in Hadd as (u3 & w3 & Huntag & Hadd).
  rewrite <- Hr2 in Hi, Hrepo.
  destruct (GetArtefact_named _ _ _ _ _ Hi Hrepo Hj) as [Hfound | [n Hamb]];
    [|by rewrite (unTag_Ambiguous _ _ _ _ Hamb) in Huntag].
  rewrite (unTag_Found _ _ _ _ _ Hfound (deref_Some _ _ _ _ _ Hrepo Hholder)) in Huntag.
  injection Huntag as <-.
  subst w3.
  set (tags' := core.RemoveElement (Tags holder) (core.Tag name)) in *.
  assert (findRepository (set_Tags (i, j) tags' (Repositories w2)) name = Some i) as Hfr.
  { apply findRepository_named. by rewrite find_index_named_set_Tags. }
  rewrite (bind_eq _ _ _ (Some i) _) in Hadd by (unfold findRepo; simpl; by rewrite Hfr).
  rewrite (set_Tags_insert _ _ _ _ _ _ Hrepo Hholder) in Hadd.
  assert (i < length (Repositories w2))%nat as Hlt by (by eapply lookup_lt_Some).
  unfold mbind, M_bind, mret, M_ret, load_Artefacts, store_Artefacts, get_Repositories,
    put_Repositories, save, with_Repositories in Hadd. simpl in Hadd.
  rewrite list_lookup_insert_eq in Hadd by done. simpl in Hadd.
  injection Hadd as <-. simpl. split; [|done].
  unfold set_Artefacts. rewrite <- Hr2.
  erewrite list_alter_insert by (by apply list_lookup_insert_eq).
  by rewrite list_insert_insert_eq.
Qed.



(** ** The tag invariant *)

(** The Artifacts of a Repository that hold a tag. *)
Definition holders (repo : repository) (tag : string) : list nat :=
  indices_from (λ a, HasTag a tag) 0 (Artefacts repo).

(** In every Repository, no tag is held by two Artifacts. *)
Definition tags_unique (rs : list repository) : bool :=
  forallb (λ repo,
    forallb (λ a,
      forallb (λ tag, (length (holders repo tag) <=? 1)%nat) (Tags a))
      (Artefacts repo))
    rs.

(** C1 fails on the code: from the empty registry, two packages are added
    as acme/tools/app:v1 and acme/tools/app:v2, and the invariant holds;
    [Tag] of acme/tools/app:v1 as acme/tools/app:v2 then appends v2 to the
    first Artifact and leaves it on the second, so two Artifacts of the
    Repository hold v2, in memory and in the persisted document. *)
Theorem Tag_same_repository_second_holder :
  (Add "/tmp/b/app1.zip" (example.ref "acme/tools/app" "app" "v1")
       (example.seal "sha256:10a2b3c4e5f60718");;
   Add "/tmp/b/app2.zip" (example.ref "acme/tools/app" "app" "v2")
       (example.seal "sha256:3f9cdb4471aa02be")) example.empty
  = Done () example.w_app ∧
  tags_unique (Repositories example.w_app) = true ∧
  ∃ w', Tag (example.ref "acme/tools/app" "app" "v1")
            (example.ref "acme/tools/app" "app" "v2") example.w_app = Done () w' ∧
        (Tags <$> deref (Repositories w') (0, 0)%nat) = Some ["v1"; "v2"] ∧
        (Tags <$> deref (Repositories w') (0, 1)%nat) = Some ["v2"] ∧
        tags_unique (Repositories w') = false ∧
        tags_unique (document w') = false.
Proof.
  split; [by vm_compute|]. split; [by vm_compute|].
  eexists. split; [by vm_compute|]. by vm_compute.
Qed.

(** ** Tag and an Artifact that holds the target tag *)

Lemma fold_retag (tag : string) (l acc : list string) :
  fold_left (λ acc t, if String.eqb t tag then acc else acc ++ [tag]) l acc =
  acc ++ replicate (length (filter (λ t, t ≠ tag) l)) tag.
Proof.
  revert acc. induction l as [|t l IH]; intros acc; simpl.
  - by rewrite app_nil_r.
  - rewrite IH. destruct (String.eqb_spec t tag) as [->|Hne].
    + by rewrite filter_cons_False by (by intros ?).
    + rewrite filter_cons_True by done. simpl. by rewrite <- app_assoc.
Qed.

(** The loop of [Tag] over the tags of the target artefact appends the
    target tag once for every other tag. *)
Lemma retag_replicate (tags : list string) (tag : string) :
  retag tags tag = tags ++ replicate (length (filter (λ t, t ≠ tag) tags)) tag.
Proof. apply fold_retag. Qed.

(** X7: the loop leaves the tag list as it is exactly when every tag
    equals the target tag. *)
Lemma retag_unchanged (tags : list string) (tag : string) :
  retag tags tag = tags ↔ ∀ t, t ∈ tags → t = tag.
Proof.
  rewrite retag_replicate. split.
  - intros Heq t Ht. destruct (decide (t = tag)) as [|Hne]; [done|].
    assert (t ∈ filter (λ t, t ≠ tag) tags) as Hf by (by apply list_elem_of_filter).
    apply (f_equal length) in Heq. rewrite length_app, length_replicate in Heq.
    destruct (filter _ tags); [by apply elem_of_nil in Hf | simpl in Heq; lia].
  - intros Hall. assert (filter (λ t, t ≠ tag) tags = []) as ->.
    { induction tags as [|t tags IH]; [done|].
      rewrite filter_cons_False by (intros Hne; apply Hne, Hall; left).
      apply IH. intros t' Ht'. apply Hall. by right. }
    simpl. by rewrite app_nil_r.
Qed.

(** C3 fails on the code: acme/prod/app has an Artifact that holds v1 and
    v2 (the first Artifact of acme/tools/app, tagged there twice);
    [Tag] of acme/tools/app:v2 as acme/prod/app:v2 returns without error
    and the Artifact that already holds v2 has v2 once more in its tag
    list. *)
Theorem Tag_existing_holder_changes :
  (Tag (example.ref "acme/tools/app" "app" "v1") (example.ref "acme/prod/app" "app" "v1");;
   Tag (example.ref "acme/tools/app" "app" "v1") (example.ref "acme/prod/app" "app" "v2"))
    example.w_app = Done () example.w_prod ∧
  core.IsInTheSameRepositoryAs (example.ref "acme/prod/app" "app" "v2")
                               (example.ref "acme/tools/app" "app" "v2") = false ∧
  (Tags <$> deref (Repositories example.w_prod) (1, 0)%nat) = Some ["v1"; "v2"] ∧
  ∃ w', Tag (example.ref "acme/tools/app" "app" "v2")
            (example.ref "acme/prod/app" "app" "v2") example.w_prod = Done () w' ∧
        (Tags <$> deref (Repositories w') (1, 0)%nat) = Some ["v1"; "v2"; "v2"].
Proof.
  split; [by vm_compute|]. split; [by vm_compute|]. split; [by vm_compute|].
  eexists. split; by vm_compute.
Qed.

(** ** Persistence *)

(** The persisted document is the in-memory index. *)
Definition saved (w : world) : Prop := document w = Repositories w.

Lemma save_saved u w w' : save w = Done u w' → saved w'.
Proof. by intros [= _ <-]. Qed.

Lemma print_saved o u w w' : print o w = Done u w' → saved w → saved w'.
Proof. by intros [= _ <-]. Qed.

Lemma on_files_saved op u w w' : on_files op w = Done u w' → saved w → saved w'.
Proof.
  unfold on_files. destruct (op (files w)); [|discriminate]. by intros [= _ <-].
Qed.

Lemma removeFiles_saved `{core.Host} a u w w' :
  removeFiles a w = Done u w' → saved w → saved w'.
Proof.
  unfold removeFiles. intros (u1 & w1 & Hzip & Hjson)%bind_Done Hs.
  eapply on_files_saved; [exact Hjson|]. by eapply on_files_saved.
Qed.

(** X5: whenever [Add] returns, the persisted document is the in-memory
    index. *)
Lemma Add_saved `{core.Host} filename name s w w' :
  Add filename name s w = Done () w' → saved w'.
Proof.
  unfold Add. destruct (negb _); [discriminate|].
  intros (? & ? & _ & Hadd)%bind_Done.
  apply bind_Done in Hadd as (? & ? & _ & Hadd).
  apply bind_Done in Hadd as (? & ? & _ & Hadd).
  apply bind_Done in Hadd as (? & ? & _ & Hadd).
  apply bind_Done in Hadd as (? & ? & _ & Hadd).
  apply bind_Done in Hadd as (? & ? & _ & Hadd).
  apply bind_Done in Hadd as (? & ? & _ & Hadd).
  by eapply save_saved.
Qed.

Lemma Add_saved_witness :
  ∃ w', Add "/tmp/b/app1.zip" (example.ref "acme/tools/app" "app" "v1")
            (example.seal "sha256:10a2b3c4e5f60718") example.empty = Done () w' ∧
        saved w'.
Proof.
  eexists. split; [by vm_compute|].
  exact (Add_saved "/tmp/b/app1.zip" (example.ref "acme/tools/app" "app" "v1")
           (example.seal "sha256:10a2b3c4e5f60718") example.empty _ eq_refl).
Defined.

(** [Remove] persists what it has done for every name that resolves; a
    name that does not resolve changes nothing. *)
Lemma Remove_name_saved `{core.Host} name w w' :
  Remove_name name w = Done () w' → saved w → saved w'.
Proof.
  unfold Remove_name. intros (artie & w1 & Hget & Hrm)%bind_Done Hs.
  assert (w1 = w) as ->.
  { unfold getArtefact in Hget. destruct (GetArtefact _ _); by inversion Hget. }
  destruct artie as [p|]; [|by eapply print_saved].
  apply bind_Done in Hrm as (before & ? & _ & Hrm).
  apply bind_Done in Hrm as (? & ? & _ & Hrm).
  apply bind_Done in Hrm as (a & ? & _ & Hrm).
  destruct (_ <? _)%nat.
  - apply bind_Done in Hrm as (? & ? & _ & Hrm).
    apply bind_Done in Hrm as (? & ? & Hsave & Hprint).
    eapply print_saved; [exact Hprint|]. by eapply save_saved.
  - apply bind_Done in Hrm as ([repo|] & ? & _ & Hrm); [|discriminate].
    apply bind_Done in Hrm as (? & ? & _ & Hrm).
    apply bind_Done in Hrm as (? & ? & _ & Hrm).
    apply bind_Done in Hrm as (? & ? & _ & Hrm).
    apply bind_Done in Hrm as (? & ? & Hsave & Hprint).
    eapply print_saved; [exact Hprint|]. by eapply save_saved.
Qed.

(** X6: [Remove] returns with the persisted document equal to the
    in-memory index when it started so. *)
Lemma Remove_saved `{core.Host} names w w' :
  Remove names w = Done () w' → saved w → saved w'.
Proof.
  revert w. induction names as [|name names IH]; intros w; simpl.
  - by intros [= <-].
  - intros ([] & w1 & Hname & Hrest)%bind_Done Hs.
    eapply IH; [exact Hrest|]. by eapply Remove_name_saved.
Qed.

Lemma Remove_saved_witness :
  ∃ w', Remove [example.ref "acme/tools/app" "app" "v1"] example.w_prod = Done () w' ∧
        saved w'.
Proof.
  eexists. split; [by vm_compute|].
  exact (Remove_saved [example.ref "acme/tools/app" "app" "v1"] example.w_prod _
           eq_refl eq_refl).
Defined.

Lemma unTagAll_saved name w w' : unTagAll name w = Done () w' → saved w'.
Proof.
  unfold unTagAll. intros (rs & ? & _ & Hrest)%bind_Done.
  apply bind_Done in Hrest as (? & ? & _ & Hsave). by eapply save_saved.
Qed.

Lemma getArtefact_Done name w r w1 :
  getArtefact name w = Done r w1 →
  w1 = w ∧ GetArtefact (Repositories w) name =
           match r with Some p => Found p | None => NotFound end.
Proof.
  unfold getArtefact. destruct (GetArtefact _ _); intros [= <- <-]; done.
Qed.

Lemma load_Done p w a w1 :
  load p w = Done a w1 → w1 = w ∧ deref (Repositories w) p = Some a.
Proof. unfold load. destruct (deref _ _); intros [= <- <-]; done. Qed.

Lemma load_Artefacts_Done i w arts w1 :
  load_Artefacts i w = Done arts w1 →
  w1 = w ∧ Artefacts <$> Repositories w !! i = Some arts.
Proof.
  unfold load_Artefacts. destruct (Repositories w !! i); intros [= <- <-]; done.
Qed.

(** X4: [Tag] persists what it has done, except in the branch for a
    target artefact that exists: there the tag list of that artefact goes
    through the loop and nothing is saved. *)
Lemma Tag_saved_unless_retagged sourceName targetName w w' :
  Tag sourceName targetName w = Done () w' → saved w →
  saved w' ∨
  ∃ tp t,
    core.IsInTheSameRepositoryAs targetName sourceName = false ∧
    GetArtefact (Repositories w) targetName = Found tp ∧
    deref (Repositories w) tp = Some t ∧
    Repositories w' =
      set_Tags tp (retag (Tags t) (core.Tag targetName)) (Repositories w) ∧
    document w' = document w.
Proof.
  unfold Tag. intros (found & w1 & [-> Hsrc]%getArtefact_Done & Htag)%bind_Done Hs.
  destruct found as [sp|]; [|discriminate].
  apply bind_Done in Htag as (sourceArtie & w1 & [-> Hsa]%load_Done & Htag).
  destruct (core.IsInTheSameRepositoryAs targetName sourceName) eqn:Hsame.
  - left. destruct (negb _).
    + apply bind_Done in Htag as (? & ? & _ & Hsave). by eapply save_saved.
    + by injection Htag as <-.
  - apply bind_Done in Htag as (targetRepository & w1 & Hfind & Htag).
    injection Hfind as _ <-.
    destruct targetRepository as [tr|].
    + apply bind_Done in Htag as (targetArtie & w1 & [-> Htgt]%getArtefact_Done & Htag).
      destruct targetArtie as [tp|].
      * right. apply bind_Done in Htag as (t & w1 & [-> Ht]%load_Done & Htag).
        exists tp, t. injection Htag as <-. done.
      * left. apply bind_Done in Htag as (arts & w1 & [-> _]%load_Artefacts_Done & Htag).
        destruct (find_index _ arts).
        -- apply bind_Done in Htag as (? & ? & _ & Htag).
           apply bind_Done in Htag as (? & ? & _ & Hsave). by eapply save_saved.
        -- apply bind_Done in Htag as (? & ? & _ & Hsave). by eapply save_saved.
    + left. apply bind_Done in Htag as (? & ? & _ & Htag).
      apply bind_Done in Htag as (? & ? & _ & Hsave). by eapply save_saved.
Qed.

Lemma Tag_saved_unless_retagged_witness :
  ∃ w', Tag (example.ref "acme/tools/app" "app" "v1")
            (example.ref "acme/prod/app" "app" "v1") example.w_app = Done () w' ∧
        saved w'.
Proof.
  eexists. split; [by vm_compute|].
  destruct (Tag_saved_unless_retagged
              (example.ref "acme/tools/app" "app" "v1")
              (example.ref "acme/prod/app" "app" "v1") example.w_app _ eq_refl eq_refl)
    as [Hs | (tp & t & _ & Hfound & _)]; [exact Hs | discriminate Hfound].
Defined.

(** C5 fails on the code: on the same input [Tag] returns with the
    in-memory index changed and the persisted document as it was. *)
Theorem Tag_existing_holder_not_saved :
  document example.w_prod = Repositories example.w_prod ∧
  ∃ w', Tag (example.ref "acme/tools/app" "app" "v2")
            (example.ref "acme/prod/app" "app" "v2") example.w_prod = Done () w' ∧
        Repositories w' ≠ Repositories example.w_prod ∧
        document w' = document example.w_prod ∧
        document w' ≠ Repositories w'.
Proof.
  split; [done|]. eexists. split; [by vm_compute|].
  split; [by vm_compute|]. split; [done|]. by vm_compute.
Qed.

(** ** Remove and the backing files *)

Lemma deref_set_Tags rs p a tags :
  deref rs p = Some a → deref (set_Tags p tags rs) p = Some (with_Tags tags a).
Proof.
  destruct p as [i j]. unfold deref, set_Tags. simpl. intros Ha.
  rewrite list_lookup_alter_eq. destruct (rs !! i) as [repo|]; [|done]. simpl in *.
  rewrite list_lookup_alter_eq. by rewrite Ha.
Qed.

Lemma holds_Id_deref rs p a : deref rs p = Some a → holds_Id rs (Id a) = true.
Proof.
  destruct p as [i j]. unfold deref. simpl. intros Ha.
  destruct (rs !! i) as [repo|] eqn:Hrepo; [|done]. simpl in Ha.
  unfold holds_Id. apply existsb_elem_of. exists repo.
  split; [by eapply list_elem_of_lookup_2|].
  apply existsb_elem_of. exists a. split; [by eapply list_elem_of_lookup_2|].
  apply String.eqb_refl.
Qed.

(** The files of the host after [removeFiles]. *)
Definition without_files `{core.Host} (a : artefact) (fs : list string) : list string :=
  filter (λ f, f ≠ core.RegistryPath +:+ "/" +:+ FileRef a +:+ ".json")
    (filter (λ f, f ≠ core.RegistryPath +:+ "/" +:+ FileRef a +:+ ".zip") fs).

Lemma removeFiles_Done `{core.Host} a u w w' :
  removeFiles a w = Done u w' →
  Repositories w' = Repositories w ∧ files w' = without_files a (files w).
Proof.
  unfold removeFiles, without_files, on_files, Go.os_Remove.
  intros (u1 & w1 & Hzip & Hjson)%bind_Done.
  destruct (bool_decide _); [|discriminate]. injection Hzip as ?; subst w1.
  simpl in Hjson.
  destruct (bool_decide _); [|discriminate]. injection Hjson as ?; by subst w'.
Qed.

(** X2: on the tag path of [Remove] (the resolved Artifact holds the
    named tag) the backing files are deleted exactly when no Repository of the
    resulting registry holds an Artifact with the same Id. *)
Lemma Remove_name_tag_path `{core.Host} name w w' p a :
  GetArtefact (Repositories w) name = Found p →
  deref (Repositories w) p = Some a →
  HasTag a (core.Tag name) = true →
  Remove_name name w = Done () w' →
  files w' =
    if holds_Id (Repositories w') (Id a) then files w else without_files a (files w).
Proof.
  intros Hp Ha Htag. unfold Remove_name.
  rewrite (bind_eq _ _ w (Some p) w) by (unfold getArtefact; by rewrite Hp).
  rewrite (bind_eq _ _ w a w) by (unfold load; by rewrite Ha).
  rewrite (bind_eq _ _ _ _ _ (unTag_Found _ _ _ _ _ Hp Ha)).
  set (tags' := core.RemoveElement (Tags a) (core.Tag name)).
  set (w1 := with_Repositories _ w).
  rewrite (bind_eq _ _ w1 (with_Tags tags' a) w1)
    by (unfold load; simpl; by rewrite (deref_set_Tags _ _ _ _ Ha)).
  change (Tags (with_Tags tags' a)) with tags'.
  change (Id (with_Tags tags' a)) with (Id a).
  assert ((length tags' <? length (Tags a))%nat = true) as ->.
  { apply Nat.ltb_lt. pose proof (RemoveElement_length (Tags a) (core.Tag name)) as Hlen.
    rewrite <- Hlen by (by apply HasTag_elem_of). unfold tags'. lia. }
  intros (u1 & w2 & Hrepo & Hrest)%bind_Done.
  apply bind_Done in Hrest as (u2 & w3 & Hsave & Hprint).
  injection Hsave as ?; subst w3. injection Hprint as ?; subst w'. simpl.
  destruct (length tags' =? 0)%nat.
  - apply bind_Done in Hrepo as (rs & w4 & Hget & Hrepo).
    injection Hget as ? ?; subst rs w4.
    apply bind_Done in Hrepo as (u3 & w5 & Hput & Hrepo).
    injection Hput as ?; subst w5.
    apply bind_Done in Hrepo as (rs' & w6 & Hget & Hrepo).
    injection Hget as ? ?; subst rs' w6. simpl in Hrepo.
    destruct (holds_Id _ (Id a)) eqn:Hheld; simpl in Hrepo.
    + injection Hrepo as ?; subst w2. simpl. by rewrite Hheld.
    + apply removeFiles_Done in Hrepo as [Hrs' Hfiles]. simpl in Hrs', Hfiles.
      by rewrite Hrs', Hheld.
  - injection Hrepo as ?; subst w2. simpl.
    by rewrite (holds_Id_deref _ p (with_Tags tags' a)) by (by apply deref_set_Tags).
Qed.

Lemma Remove_name_tag_path_witness :
  ∃ w', Remove_name (example.ref "acme/tools/app" "app" "v1") example.w_prod = Done () w' ∧
        holds_Id (Repositories w') "sha256:10a2b3c4e5f60718" = true ∧
        files w' = files example.w_prod.
Proof.
  eexists. split; [by vm_compute|]. split; [by vm_compute|].
  exact (Remove_name_tag_path
           (example.ref "acme/tools/app" "app" "v1") example.w_prod _ (0, 0)%nat
           (example.art "sha256:10a2b3c4e5f60718" "app1" ["v1"])
           eq_refl eq_refl eq_refl eq_refl).
Defined.

Lemma GetArtefact_unnamed_Found rs name p :
  unnamed rs name → GetArtefact rs name = Found p →
  id_matches rs (core.Name name) = [p].
Proof.
  intros Hun Hp.
  pose proof (GetArtefact_from_unnamed 0 rs name [] Hun (Nat.le_0_l 1)) as Hcases.
  simpl in Hcases. fold (id_matches rs (core.Name name)) in Hcases.
  fold (GetArtefact rs name) in Hcases.
  destruct (id_matches rs (core.Name name)) as [|q [|q' l]].
  - congruence.
  - congruence.
  - destruct Hcases as (n & Hn & _). congruence.
Qed.

Lemma set_Tags_same rs p a : deref rs p = Some a → set_Tags p (Tags a) rs = rs.
Proof.
  destruct p as [i j]. unfold deref. simpl. intros Ha.
  destruct (rs !! i) as [repo|] eqn:Hrepo; [|done]. simpl in Ha.
  rewrite (set_Tags_insert _ _ _ _ _ _ Hrepo Ha).
  assert (with_Tags (Tags a) a = a) as -> by (by destruct a).
  rewrite (list_insert_id _ _ _ Ha).
  assert (with_Artefacts (Artefacts repo) repo = repo) as -> by (by destruct repo).
  by apply list_insert_id.
Qed.

Lemma swap_remove_elem {A} (j : nat) (l : list A) (x : A) :
  (j < length l)%nat → x ∈ swap_remove j l → ∃ m, m ≠ j ∧ l !! m = Some x.
Proof.
  intros Hj Hx. destruct (swap_remove_lookup j l Hj) as (z & Hz & Hlen & Hlook).
  apply list_elem_of_lookup_1 in Hx as [k Hk].
  assert (k < length l - 1)%nat as Hklt by (rewrite <- Hlen; by eapply lookup_lt_Some).
  rewrite (Hlook k Hklt) in Hk. destruct (decide (k = j)) as [->|Hne].
  - exists (length l - 1)%nat. split; [lia | congruence].
  - by exists k.
Qed.

Lemma deref_Some_inv rs i j a :
  deref rs (i, j) = Some a → ∃ repo, rs !! i = Some repo ∧ Artefacts repo !! j = Some a.
Proof.
  unfold deref. cbn [fst snd]. destruct (rs !! i) as [repo|] eqn:Hrepo; [|done].
  intros Ha. by exists repo.
Qed.

(** X3: on the identifier path of [Remove], for a reference that names
    no Repository: the Artifact resolved is the only one whose Id contains
    the fragment, it is removed from its Repository, and no Artifact with
    its Id is left when its backing files are deleted. *)
Lemma Remove_name_by_Id `{core.Host} name w w' p a :
  unnamed (Repositories w) name →
  GetArtefact (Repositories w) name = Found p →
  deref (Repositories w) p = Some a →
  HasTag a (core.Tag name) = false →
  Remove_name name w = Done () w' →
  holds_Id (Repositories w') (Id a) = false ∧
  files w' = without_files a (files w).
Proof.
  intros Hun Hp Ha Htag.
  pose proof (GetArtefact_unnamed_Found _ _ _ Hun Hp) as Honly.
  assert (∀ q b, deref (Repositories w) q = Some b → Id b = Id a → q = p) as Huniq.
  { intros q b Hb Hid.
    assert (q ∈ id_matches (Repositories w) (core.Name name)) as Hq.
    { apply id_matches_spec. exists b. split; [done|]. rewrite Hid.
      assert (p ∈ id_matches (Repositories w) (core.Name name)) as Hpm
        by (rewrite Honly; left).
      apply id_matches_spec in Hpm as (a' & Ha' & Hc). congruence. }
    rewrite Honly in Hq. by apply list_elem_of_singleton in Hq. }
  assert (Go.Contains (Id a) (core.Name name) = true) as Hca.
  { assert (p ∈ id_matches (Repositories w) (core.Name name)) as Hpm
      by (rewrite Honly; left).
    apply id_matches_spec in Hpm as (a' & Ha' & Hc). congruence. }
  unfold Remove_name.
  rewrite (bind_eq _ _ w (Some p) w) by (unfold getArtefact; by rewrite Hp).
  rewrite (bind_eq _ _ w a w) by (unfold load; by rewrite Ha).
  rewrite (bind_eq _ _ _ _ _ (unTag_Found _ _ _ _ _ Hp Ha)).
  rewrite RemoveElement_absent
    by (intros Hin%HasTag_elem_of; congruence).
  rewrite (set_Tags_same _ _ _ Ha).
  assert (with_Repositories (Repositories w) w = w) as -> by (by destruct w).
  rewrite (bind_eq _ _ w a w) by (unfold load; by rewrite Ha).
  rewrite Nat.ltb_irrefl.
  destruct p as [i j]. apply deref_Some_inv in Ha as (repo & Hrepo & Ha).
  assert (findRepository (Repositories w) name = Some i) as Hfr.
  { unfold findRepository. rewrite (find_index_named_None _ _ Hun).
    apply find_index_Some. exists repo. split; [done|]. split.
    - apply existsb_elem_of. exists a. split; [by eapply list_elem_of_lookup_2 | done].
    - intros k r Hk Hr. apply existsb_false_elem_of. intros b Hb.
      destruct (id_contains (core.Name name) b) eqn:Hcb; [|done].
      apply list_elem_of_lookup_1 in Hb as [m Hm].
      assert ((k, m) ∈ id_matches (Repositories w) (core.Name name)) as Hq.
      { apply id_matches_spec. exists b. split; [|done]. unfold deref. simpl. by rewrite Hr. }
      rewrite Honly in Hq. apply list_elem_of_singleton in Hq. injection Hq as -> ->. lia. }
  rewrite (bind_eq _ _ w (Some i) w) by (unfold findRepo; by rewrite Hfr).
  cbv beta iota.
  rewrite (bind_eq _ _ w (Artefacts repo) w) by (unfold load_Artefacts; by rewrite Hrepo).
  assert (find_index (id_contains (core.Name name)) (Artefacts repo) = Some j) as Hfj.
  { apply find_index_Some. exists a. split; [done|]. split; [done|].
    intros m b Hm Hb. destruct (id_contains (core.Name name) b) eqn:Hcb; [|done].
    assert ((i, m) ∈ id_matches (Repositories w) (core.Name name)) as Hq.
    { apply id_matches_spec. exists b. split; [|done]. unfold deref. simpl. by rewrite Hrepo. }
    rewrite Honly in Hq. apply list_elem_of_singleton in Hq. injection Hq as ->. lia. }
  unfold removeArtefactById. rewrite Hfj.
  intros (u1 & w1 & Hstore & Hrest)%bind_Done.
  injection Hstore as ?; subst w1.
  apply bind_Done in Hrest as (u2 & w2 & Hfiles & Hrest).
  apply removeFiles_Done in Hfiles as [Hrs Hfs]. simpl in Hrs, Hfs.
  apply bind_Done in Hrest as (u3 & w3 & Hsave & Hprint).
  injection Hsave as ?; subst w3. injection Hprint as ?; subst w'. simpl.
  split; [|done]. rewrite Hrs.
  destruct (holds_Id _ (Id a)) eqn:Hheld; [exfalso|done].
  apply existsb_elem_of in Hheld as (repo' & Hrepo' & Hb).
  apply existsb_elem_of in Hb as (b & Hb & Hid%String.eqb_eq).
  apply list_elem_of_lookup_1 in Hrepo' as [k Hk].
  unfold set_Artefacts in Hk. destruct (decide (k = i)) as [->|Hne].
  - rewrite list_lookup_alter_eq, Hrepo in Hk. injection Hk as <-. simpl in Hb.
    apply swap_remove_elem in Hb as (m & Hm & Hbm); [|by eapply lookup_lt_Some].
    assert ((i, m) = (i, j)) as [= ->]; [|done].
    apply (Huniq _ b); [|done]. unfold deref. simpl. by rewrite Hrepo.
  - rewrite list_lookup_alter_ne in Hk by done.
    apply list_elem_of_lookup_1 in Hb as [m Hm].
    assert ((k, m) = (i, j)) as [= -> ->]; [|done].
    apply (Huniq _ b); [|done]. unfold deref. simpl. by rewrite Hk.
Qed.

Lemma Remove_name_by_Id_witness :
  ∃ w', Remove_name (example.ref "3f9cdb44" "3f9cdb44" "latest") example.w_stolen
        = Done () w' ∧
        holds_Id (Repositories w') "sha256:3f9cdb4471aa02be" = false.
Proof.
  assert (unnamed (Repositories example.w_stolen)
                  (example.ref "3f9cdb44" "3f9cdb44" "latest")) as Hun.
  { intros repo Hrepo. each_element Hrepo; discriminate. }
  eexists. split; [by vm_compute|].
  exact (proj1 (Remove_name_by_Id
           (example.ref "3f9cdb44" "3f9cdb44" "latest") example.w_stolen _ (0, 1)%nat
           (example.art "sha256:3f9cdb4471aa02be" "app2" [])
           Hun eq_refl eq_refl eq_refl eq_refl)).
Defined.

(** C2 fails on the code: the registry holds acme/tools/app, acme/infra/db
    and acme/tools/release, reached from the empty registry by three Adds
    and a Tag; the second Artifact of acme/tools/app has the letters db in
    its Id and acme/tools/release holds a copy of it.  [Remove] of
    acme/infra/db:v9, a tag nobody holds, resolves to that Artifact, takes
    the identifier path and deletes its backing files, while the Artifact
    itself and its copy in acme/tools/release stay in the store. *)
Theorem Remove_deletes_referenced_files :
  (Add "/tmp/b/app1.zip" (example.ref "acme/tools/app" "app" "v1")
       (example.seal "sha256:10a2b3c4e5f60718");;
   Add "/tmp/b/db1.zip" (example.ref "acme/infra/db" "db" "v1")
       (example.seal "sha256:e07a15c2990f4a6b");;
   Add "/tmp/b/app2.zip" (example.ref "acme/tools/app" "app" "v2")
       (example.seal "sha256:3f9cdb4471aa02be");;
   Tag (example.ref "acme/tools/app" "app" "v2")
       (example.ref "acme/tools/release" "release" "v2")) example.empty
  = Done () example.w_db ∧
  GetArtefact (Repositories example.w_db) (example.ref "acme/infra/db" "db" "v9")
  = Found (0, 1)%nat ∧
  ∃ w', Remove [example.ref "acme/infra/db" "db" "v9"] example.w_db = Done () w' ∧
        Repositories w' = Repositories example.w_db ∧
        holds_Id (Repositories w') "sha256:3f9cdb4471aa02be" = true ∧
        (FileRef <$> deref (Repositories w') (0, 1)%nat) = Some "app2" ∧
        (FileRef <$> deref (Repositories w') (2, 0)%nat) = Some "app2" ∧
        ("/home/dev/.artie/app2.zip" ∈ files example.w_db) ∧
        ("/home/dev/.artie/app2.json" ∈ files example.w_db) ∧
        ("/home/dev/.artie/app2.zip" ∉ files w') ∧
        ("/home/dev/.artie/app2.json" ∉ files w').
Proof.
  split; [by vm_compute|]. split; [by vm_compute|].
  eexists. split; [by vm_compute|].
  split; [done|]. split; [by vm_compute|]. split; [done|]. split; [done|].
  split; [apply list_elem_of_In; vm_compute; tauto|].
  split; [apply list_elem_of_In; vm_compute; tauto|].
  split; intros Hin%list_elem_of_In; vm_compute in Hin; intuition discriminate.
Qed.

(** ** Add keeps the tag invariant *)

(** No tag is held by two Artifacts of the list. *)
Definition unique_in (arts : list artefact) : Prop :=
  ∀ k1 k2 a1 a2 t,
    arts !! k1 = Some a1 → arts !! k2 = Some a2 →
    t ∈ Tags a1 → t ∈ Tags a2 → k1 = k2.

Lemma holders_spec repo tag k :
  k ∈ holders repo tag ↔ ∃ a, Artefacts repo !! k = Some a ∧ tag ∈ Tags a.
Proof.
  unfold holders. rewrite indices_from_spec. rewrite Nat.sub_0_r. split.
  - intros (a & _ & Ha & Ht). exists a. by rewrite <- HasTag_elem_of.
  - intros (a & Ha & Ht). exists a. rewrite HasTag_elem_of. repeat split; [lia | done | done].
Qed.

Lemma NoDup_all_equal {A} (l : list A) (x : A) :
  NoDup l → (∀ y, y ∈ l → y = x) → (length l ≤ 1)%nat.
Proof.
  intros Hnd Hall. destruct l as [|y [|z l]]; simpl; [lia | lia |].
  exfalso. apply list.NoDup_cons in Hnd as [Hy _]. apply Hy.
  rewrite (Hall y) by left. rewrite <- (Hall z) at 1 by (right; left). left.
Qed.

Lemma tags_unique_spec rs :
  tags_unique rs = true ↔ ∀ repo, repo ∈ rs → unique_in (Artefacts repo).
Proof.
  unfold tags_unique. rewrite forallb_forall. split.
  - intros Hall repo Hrepo k1 k2 a1 a2 t Hk1 Hk2 Ht1 Ht2.
    apply list_elem_of_In in Hrepo. specialize (Hall repo Hrepo).
    rewrite forallb_forall in Hall.
    specialize (Hall a1 (proj1 (list_elem_of_In _ _) (list_elem_of_lookup_2 _ _ _ Hk1))).
    rewrite forallb_forall in Hall.
    specialize (Hall t (proj1 (list_elem_of_In _ _) Ht1)). apply Nat.leb_le in Hall.
    assert (k1 ∈ holders repo t) as H1 by (apply holders_spec; eauto).
    assert (k2 ∈ holders repo t) as H2 by (apply holders_spec; eauto).
    destruct (holders repo t) as [|x [|y l]]; simpl in Hall.
    + by apply elem_of_nil in H1.
    + apply list_elem_of_singleton in H1, H2. congruence.
    + lia.
  - intros Huniq repo Hrepo%list_elem_of_In. apply forallb_forall.
    intros a Ha%list_elem_of_In. apply forallb_forall. intros t Ht%list_elem_of_In.
    apply Nat.leb_le. apply list_elem_of_lookup_1 in Ha as [k Hk].
    apply (NoDup_all_equal _ k); [apply indices_from_NoDup|].
    intros k' (a' & Hk' & Ht')%holders_spec. by eapply (Huniq repo Hrepo).
Qed.

(** The invariants of the data model: one holder per tag in every
    Repository, and no tag twice in a tag list. *)
Definition well_tagged (rs : list repository) : Prop :=
  tags_unique rs = true ∧
  ∀ repo a, repo ∈ rs → a ∈ Artefacts repo → NoDup (Tags a).

Lemma RemoveElement_subseteq (tags : list string) (tag t : string) :
  t ∈ core.RemoveElement tags tag → t ∈ tags.
Proof.
  induction tags as [|x tags IH]; simpl; [done|].
  destruct (String.eqb x tag); [by right|].
  intros [->|Ht]%elem_of_cons; [left | right; by apply IH].
Qed.

Lemma RemoveElement_NoDup_keep (tags : list string) (tag : string) :
  NoDup tags → NoDup (core.RemoveElement tags tag).
Proof.
  induction 1 as [|x tags Hx Hnd IH]; simpl; [constructor|].
  destruct (String.eqb x tag); [done|].
  constructor; [|done]. intros Hin. by apply Hx, (RemoveElement_subseteq _ tag).
Qed.

(** What [unTag] leaves of the registry. *)
Definition untagged (rs : list repository) (name : core.ArtieName)
    (rs1 : list repository) : Prop :=
  (GetArtefact rs name = NotFound ∧ rs1 = rs) ∨
  ∃ p a, GetArtefact rs name = Found p ∧ deref rs p = Some a ∧
         rs1 = set_Tags p (core.RemoveElement (Tags a) (core.Tag name)) rs.

Lemma unTag_Done name w u w1 :
  unTag name (core.Tag name) w = Done u w1 →
  untagged (Repositories w) name (Repositories w1).
Proof.
  unfold unTag. intros (artie & w0 & Hget & Hrest)%bind_Done.
  apply getArtefact_Done in Hget as [-> Hget]. destruct artie as [p|].
  - right. apply bind_Done in Hrest as (a & w0 & [-> Ha]%load_Done & Hstore).
    exists p, a. injection Hstore as ?; subst w1. done.
  - left. injection Hrest as ?; subst w1. done.
Qed.

(** The registry after [Add], from the registry that [unTag] leaves. *)
Definition added (rs1 : list repository) (name : core.ArtieName)
    (created : artefact) (rs2 : list repository) : Prop :=
  (∃ i repo1, findRepository rs1 name = Some i ∧ rs1 !! i = Some repo1 ∧
              rs2 = <[i := with_Artefacts (Artefacts repo1 ++ [created]) repo1]> rs1) ∨
  (findRepository rs1 name = None ∧
   rs2 = rs1 ++ [{| Repository := core.FullyQualifiedName name;
                    Artefacts := [created] |}]).

Lemma Add_Done `{core.Host} filename name s w w' :
  Add filename name s w = Done () w' →
  ∃ rs1 created,
    Id created = core.ArtefactId s ∧ Tags created = [core.Tag name] ∧
    untagged (Repositories w) name rs1 ∧
    added rs1 name created (Repositories w').
Proof.
  unfold Add. destruct (negb _); [discriminate|].
  intros (u1 & w1 & Hzip & Hadd)%bind_Done.
  apply bind_Done in Hadd as (u2 & w2 & Hjson & Hadd).
  apply on_files_Done in Hzip as (Hr1 & _). apply on_files_Done in Hjson as (Hr2 & _).
  rewrite Hr1 in Hr2. clear Hr1 w1 u1 u2.
  apply bind_Done in Hadd as (u3 & w3 & Huntag%unTag_Done & Hadd).
  rewrite Hr2 in Huntag.
  exists (Repositories w3),
    (new_artefact (Go.TrimSuffix (core.Base filename) (Go.Ext (core.Base filename))) name s).
  split; [done|]. split; [done|]. split; [done|].
  apply bind_Done in Hadd as (found & w4 & Hfind & Hadd).
  injection Hfind as Hfind ?; subst w4.
  destruct found as [i|].
  - left. rewrite (bind_eq _ _ w3 i w3) in Hadd by done.
    apply bind_Done in Hadd as (arts & w4 & [-> Harts]%load_Artefacts_Done & Hadd).
    destruct (Repositories w3 !! i) as [repo1|] eqn:Hrepo1; [|done].
    injection Harts as <-. exists i, repo1. split; [done|]. split; [done|].
    apply bind_Done in Hadd as (u4 & w4 & Hstore & Hsave).
    injection Hstore as ?; subst w4. injection Hsave as ?; subst w'. simpl.
    by apply set_Artefacts_insert.
  - right. split; [done|].
    apply bind_Done in Hadd as (i & w4 & Hnew & Hadd).
    apply bind_Done in Hnew as (rs & w5 & Hget & Hnew).
    injection Hget as ? ?; subst rs w5.
    apply bind_Done in Hnew as (u5 & w5 & Hput & Hret).
    injection Hput as ?; subst w5. injection Hret as ? ?; subst i w4.
    apply bind_Done in Hadd as (arts & w4 & [-> Harts]%load_Artefacts_Done & Hadd).
    simpl in Harts. rewrite lookup_app_r, Nat.sub_diag in Harts by done.
    injection Harts as <-.
    apply bind_Done in Hadd as (u4 & w4 & Hstore & Hsave).
    injection Hstore as ?; subst w4. injection Hsave as ?; subst w'. simpl.
    unfold set_Artefacts.
    erewrite list_alter_insert
      by (rewrite lookup_app_r, Nat.sub_diag by done; reflexivity).
    rewrite insert_app_r_alt, Nat.sub_diag by done. done.
Qed.

Lemma set_Tags_lookup rs p a tags i repo :
  deref rs p = Some a → rs !! i = Some repo →
  ∃ repo1, set_Tags p tags rs !! i = Some repo1 ∧
           Repository repo1 = Repository repo ∧
           ∀ k, Artefacts repo1 !! k =
                if decide ((i, k) = p) then Some (with_Tags tags a)
                else Artefacts repo !! k.
Proof.
  destruct p as [pi pj]. intros (prepo & Hprepo & Ha)%deref_Some_inv Hrepo.
  rewrite (set_Tags_insert _ _ _ _ _ _ Hprepo Ha).
  destruct (decide (i = pi)) as [->|Hne].
  - rewrite list_lookup_insert_eq by (by eapply lookup_lt_Some).
    assert (repo = prepo) as -> by congruence.
    eexists. split; [done|]. split; [done|]. intros k. simpl.
    destruct (decide (k = pj)) as [->|Hk].
    + rewrite decide_True by done.
      by rewrite list_lookup_insert_eq by (by eapply lookup_lt_Some).
    + rewrite decide_False by congruence. by rewrite list_lookup_insert_ne.
  - rewrite list_lookup_insert_ne by done. exists repo. split; [done|]. split; [done|].
    intros k. by rewrite decide_False by congruence.
Qed.

Lemma well_tagged_lookup rs i repo :
  well_tagged rs → rs !! i = Some repo →
  unique_in (Artefacts repo) ∧ ∀ k a, Artefacts repo !! k = Some a → NoDup (Tags a).
Proof.
  intros [Hu Hnd] Hrepo. apply list_elem_of_lookup_2 in Hrepo. split.
  - by apply (proj1 (tags_unique_spec rs) Hu).
  - intros k a Ha. apply (Hnd repo); [done | by eapply list_elem_of_lookup_2].
Qed.

Lemma well_tagged_intro rs :
  (∀ i repo, rs !! i = Some repo →
     unique_in (Artefacts repo) ∧ ∀ k a, Artefacts repo !! k = Some a → NoDup (Tags a)) →
  well_tagged rs.
Proof.
  intros Hall. split.
  - apply tags_unique_spec. intros repo [i Hi]%list_elem_of_lookup_1.
    by apply (Hall i).
  - intros repo a [i Hi]%list_elem_of_lookup_1 [k Hk]%list_elem_of_lookup_1.
    by apply (proj2 (Hall i repo Hi) k).
Qed.

(** Taking a tag away keeps the invariants. *)
Lemma untagged_well_tagged rs name rs1 :
  well_tagged rs → untagged rs name rs1 → well_tagged rs1.
Proof.
  intros Hwt [[_ ->] | (p & a & _ & Ha & ->)]; [done|].
  set (tags' := core.RemoveElement (Tags a) (core.Tag name)).
  apply well_tagged_intro. intros i repo1 Hrepo1.
  assert (is_Some (rs !! i)) as [repo Hrepo].
  { apply lookup_lt_is_Some. apply lookup_lt_Some in Hrepo1.
    unfold set_Tags in Hrepo1. by rewrite length_alter in Hrepo1. }
  destruct (set_Tags_lookup rs p a tags' i repo Ha Hrepo) as (r & Hr & _ & Hlook).
  assert (r = repo1) as -> by congruence.
  destruct (well_tagged_lookup _ _ _ Hwt Hrepo) as [Hu Hnd].
  assert (∀ k b1, Artefacts repo1 !! k = Some b1 →
            ∃ b, Artefacts repo !! k = Some b ∧ (∀ t, t ∈ Tags b1 → t ∈ Tags b) ∧
                 NoDup (Tags b1)) as Hsub.
  { intros k b1 Hb1. rewrite Hlook in Hb1. destruct (decide ((i, k) = p)) as [<-|_].
    - injection Hb1 as <-. apply deref_Some_inv in Ha as (r & Hr' & Ha).
      assert (r = repo) as -> by congruence. exists a. split; [done|]. split.
      + intros t. apply RemoveElement_subseteq.
      + apply RemoveElement_NoDup_keep. by eapply Hnd.
    - exists b1. split; [done|]. split; [done | by eapply Hnd]. }
  split.
  - intros k1 k2 a1 a2 t Hk1 Hk2 Ht1 Ht2.
    destruct (Hsub _ _ Hk1) as (b1 & Hb1 & Hs1 & _).
    destruct (Hsub _ _ Hk2) as (b2 & Hb2 & Hs2 & _).
    eapply (Hu k1 k2); eauto.
  - intros k b1 Hb1. by destruct (Hsub _ _ Hb1) as (_ & _ & _ & ?).
Qed.

(** After [unTag], no Artifact of the Repository named by the reference
    holds the tag. *)
Lemma untagged_no_holder rs name rs1 i repo :
  well_tagged rs → untagged rs name rs1 →
  find_index (named name) rs = Some i → rs !! i = Some repo →
  ∃ repo1, rs1 !! i = Some repo1 ∧
           ∀ k b, Artefacts repo1 !! k = Some b → core.Tag name ∉ Tags b.
Proof.
  intros Hwt Hun Hi Hrepo. destruct (well_tagged_lookup _ _ _ Hwt Hrepo) as [Hu Hnd].
  destruct (find_index (λ a, HasTag a (core.Tag name)) (Artefacts repo)) as [j|] eqn:Hj.
  - pose proof Hj as (holder & Hholder & Hheld%HasTag_elem_of & _)%find_index_Some.
    destruct (GetArtefact_named _ _ _ _ _ Hi Hrepo Hj) as [Hfound | [n Hamb]];
      destruct Hun as [[Hget _] | (p & a & Hget & Ha & ->)]; try congruence.
    assert (p = (i, j)) as -> by congruence.
    assert (a = holder) as ->.
    { apply deref_Some_inv in Ha as (r & Hr & Ha). congruence. }
    destruct (set_Tags_lookup rs (i, j)%nat holder
                (core.RemoveElement (Tags holder) (core.Tag name)) i repo Ha Hrepo)
      as (repo1 & Hrepo1 & _ & Hlook).
    exists repo1. split; [done|]. intros k b Hb. rewrite Hlook in Hb.
    destruct (decide ((i, k) = (i, j))) as [[= ->]|Hne].
    + injection Hb as <-. simpl. apply RemoveElement_NoDup. by eapply Hnd.
    + intros Hin. apply Hne. f_equal. by eapply (Hu k j).
  - assert (∀ k b, Artefacts repo !! k = Some b → core.Tag name ∉ Tags b) as Hnone.
    { intros k b Hb Hin%HasTag_elem_of.
      eapply find_index_None in Hj; [|by eapply list_elem_of_lookup_2]. congruence. }
    destruct Hun as [[_ ->] | (p & a & _ & Ha & ->)]; [by exists repo|].
    destruct (set_Tags_lookup rs p a
                (core.RemoveElement (Tags a) (core.Tag name)) i repo Ha Hrepo)
      as (repo1 & Hrepo1 & _ & Hlook).
    exists repo1. split; [done|]. intros k b Hb. rewrite Hlook in Hb.
    destruct (decide ((i, k) = p)) as [<-|_]; [|by eapply Hnone].
    injection Hb as <-. simpl. intros Hin%RemoveElement_subseteq.
    apply deref_Some_inv in Ha as (r & Hr & Ha).
    assert (r = repo) as -> by congruence. by eapply Hnone.
Qed.

Lemma untagged_named rs name rs1 :
  untagged rs name rs1 →
  find_index (named name) rs1 = find_index (named name) rs.
Proof.
  intros [[_ ->] | (p & a & _ & _ & ->)]; [done|]. apply find_index_named_set_Tags.
Qed.

Lemma unique_in_snoc arts created tag :
  unique_in arts → Tags created = [tag] →
  (∀ k b, arts !! k = Some b → tag ∉ Tags b) →
  unique_in (arts ++ [created]).
Proof.
  intros Hu Htags Hnone k1 k2 a1 a2 t Hk1 Hk2 Ht1 Ht2.
  apply lookup_app_Some in Hk1 as [Hk1 | [Hlen1 Hk1]];
    apply lookup_app_Some in Hk2 as [Hk2 | [Hlen2 Hk2]].
  - by eapply (Hu k1 k2).
  - exfalso. apply list_lookup_singleton_Some in Hk2 as [_ <-].
    rewrite Htags in Ht2. apply list_elem_of_singleton in Ht2 as ->. by eapply Hnone.
  - exfalso. apply list_lookup_singleton_Some in Hk1 as [_ <-].
    rewrite Htags in Ht1. apply list_elem_of_singleton in Ht1 as ->. by eapply Hnone.
  - apply list_lookup_singleton_Some in Hk1 as [? _].
    apply list_lookup_singleton_Some in Hk2 as [? _]. lia.
Qed.

Lemma find_index_named_unnamed rs name :
  find_index (named name) rs = None → unnamed rs name.
Proof.
  intros Hnone repo Hrepo. eapply find_index_None in Hnone; [|done].
  unfold named in Hnone. by apply String.eqb_neq.
Qed.

(** X1: [Add] keeps the invariants of the data model when the reference
    names a Repository of the registry or, naming none, has a bare name that
    occurs in no content identifier. *)
Theorem Add_keeps_well_tagged `{core.Host} (filename : string) (name : core.ArtieName)
    (s : core.Seal) (w w' : world) :
  (find_index (named name) (Repositories w) = None →
   id_matches (Repositories w) (core.Name name) = []) →
  well_tagged (Repositories w) →
  Add filename name s w = Done () w' →
  well_tagged (Repositories w').
Proof.
  intros Hfresh Hwt (rs1 & created & _ & Htags & Hun & Hadd)%Add_Done.
  pose proof (untagged_well_tagged _ _ _ Hwt Hun) as Hwt1.
  assert (NoDup (Tags created)) as Hndc.
  { rewrite Htags. apply list.NoDup_singleton. }
  destruct (find_index (named name) (Repositories w)) as [i|] eqn:Hi.
  - clear Hfresh.
    destruct (lookup_lt_is_Some_2 _ _ (find_index_lt _ _ _ Hi)) as [repo Hrepo].
    destruct (untagged_no_holder _ _ _ _ _ Hwt Hun Hi Hrepo) as (repo1 & Hrepo1 & Hnone).
    assert (findRepository rs1 name = Some i) as Hfr.
    { apply findRepository_named. by rewrite (untagged_named _ _ _ Hun). }
    destruct Hadd as [(i' & r & Hfr' & Hr & ->) | [Hfr' _]]; [|congruence].
    assert (i' = i) as -> by congruence. assert (r = repo1) as -> by congruence.
    destruct (well_tagged_lookup _ _ _ Hwt1 Hrepo1) as [Hu1 Hnd1].
    apply well_tagged_intro. intros k repo2 Hrepo2.
    destruct (decide (k = i)) as [->|Hne].
    + rewrite list_lookup_insert_eq in Hrepo2 by (by eapply lookup_lt_Some).
      injection Hrepo2 as <-. simpl. split.
      * by eapply unique_in_snoc.
      * intros m b [Hb | [_ Hb]]%lookup_app_Some; [by eapply Hnd1|].
        by apply list_lookup_singleton_Some in Hb as [_ <-].
    + rewrite list_lookup_insert_ne in Hrepo2 by done.
      by eapply well_tagged_lookup.
  - specialize (Hfresh eq_refl). pose proof (find_index_named_unnamed _ _ Hi) as Hunn.
    pose proof (GetArtefact_from_unnamed 0 _ name [] Hunn (Nat.le_0_l 1)) as Hget.
    simpl in Hget. fold (id_matches (Repositories w) (core.Name name)) in Hget.
    fold (GetArtefact (Repositories w) name) in Hget. rewrite Hfresh in Hget.
    destruct Hun as [[_ ->] | (p & a & Hp & _)]; [|congruence].
    assert (findRepository (Repositories w) name = None) as Hfr.
    { unfold findRepository. rewrite Hi. apply find_index_None. intros repo Hrepo.
      apply existsb_false_elem_of. intros a Ha.
      destruct (id_contains (core.Name name) a) eqn:Hc; [exfalso|done].
      apply list_elem_of_lookup_1 in Hrepo as [k Hk].
      apply list_elem_of_lookup_1 in Ha as [m Hm].
      assert ((k, m) ∈ id_matches (Repositories w) (core.Name name)) as Hin.
      { apply id_matches_spec. exists a. split; [by apply (deref_Some _ _ _ repo)|done]. }
      rewrite Hfresh in Hin. by apply elem_of_nil in Hin. }
    destruct Hadd as [(i' & r & Hfr' & _) | [_ ->]]; [congruence|].
    apply well_tagged_intro. intros k repo2 [Hold | [_ Hnew]]%lookup_app_Some.
    + by eapply well_tagged_lookup.
    + apply list_lookup_singleton_Some in Hnew as [_ <-]. simpl. split.
      * intros k1 k2 a1 a2 t [? _]%list_lookup_singleton_Some
          [? _]%list_lookup_singleton_Some _ _. lia.
      * intros m b Hb. by apply list_lookup_singleton_Some in Hb as [_ <-].
Qed.

Lemma well_tagged_rs_app : well_tagged example.rs_app.
Proof.
  split; [by vm_compute|].
  intros repo a Hrepo Ha. each_element Hrepo. simpl in Ha. each_element Ha.
  - apply list.NoDup_singleton.
  - apply list.NoDup_singleton.
Defined.

Lemma Add_keeps_well_tagged_witness :
  ∃ w', Add "/tmp/b/app3.zip" (example.ref "acme/tools/app" "app" "v2")
            (example.seal "sha256:77c1d0e2a4b5f693") example.w_app = Done () w' ∧
        tags_unique (Repositories w') = true.
Proof.
  eexists. split; [by vm_compute|].
  refine (proj1 (Add_keeps_well_tagged
            "/tmp/b/app3.zip" (example.ref "acme/tools/app" "app" "v2")
            (example.seal "sha256:77c1d0e2a4b5f693") example.w_app _
            _ well_tagged_rs_app eq_refl)).
  intros Hnone. vm_compute in Hnone. discriminate Hnone.
Defined.

(** ** What GetArtefact returns *)

(** [GetArtefact] with a Repository of the reference's name at index [i]:
    the repositories before it are searched by Id, the named one by tag,
    and the ones after it are not looked at. *)
Lemma GetArtefact_from_split ri rs name acc i repo :
  find_index (named name) rs = Some i →
  rs !! i = Some repo →
  GetArtefact_from ri rs name acc =
    match GetArtefact_from ri (take i rs) name acc with
    | Ambiguous n => Ambiguous n
    | r =>
        match find_index (λ a, HasTag a (core.Tag name)) (Artefacts repo) with
        | Some j => Found ((ri + i)%nat, j)
        | None => r
        end
    end.
Proof.
  revert ri acc i. induction rs as [|r rs IH]; intros ri acc i Hi Hrepo; [done|].
  simpl in Hi. destruct (named name r) eqn:Hr.
  - injection Hi as <-. simpl in Hrepo. injection Hrepo as ->.
    simpl. rewrite Hr, Nat.add_0_r.
    destruct (find_index _ (Artefacts repo)); [|by destruct acc]. by destruct acc.
  - destruct (find_index (named name) rs) as [i'|] eqn:Hi'; [|done].
    injection Hi as <-. simpl in Hrepo.
    cbn [take GetArtefact_from]. rewrite Hr.
    destruct (1 <? length _)%nat; [done|].
    replace (ri + S i')%nat with (S ri + i')%nat by lia.
    by apply IH.
Qed.

Lemma unnamed_take rs name i :
  find_index (named name) rs = Some i → unnamed (take i rs) name.
Proof.
  intros (x & _ & _ & Hmin)%find_index_Some repo [k Hk]%list_elem_of_lookup_1.
  apply lookup_take_Some in Hk as [Hk Hlt].
  specialize (Hmin k repo Hlt Hk). unfold named in Hmin. by apply String.eqb_neq.
Qed.

(** X8: the lookup of a reference whose name a Repository has.  With more
    than one Id candidate in the repositories before the first Repository
    of that name the lookup ends in the ambiguity error; otherwise it
    returns the first Artifact of that Repository that holds the tag, and
    when none holds it, the Id candidate found before that Repository, or
    nil.  The repositories after it play no part. *)
Theorem GetArtefact_by_name_and_tag (rs : list repository) (name : core.ArtieName)
    (i : nat) (repo : repository) :
  find_index (named name) rs = Some i →
  rs !! i = Some repo →
  match id_matches (take i rs) (core.Name name) with
  | _ :: _ :: _ => ∃ n, GetArtefact rs name = Ambiguous n
  | candidates =>
      GetArtefact rs name =
        match find_index (λ a, HasTag a (core.Tag name)) (Artefacts repo) with
        | Some j => Found (i, j)
        | None => first_found candidates
        end
  end.
Proof.
  intros Hi Hrepo. unfold GetArtefact.
  rewrite (GetArtefact_from_split 0 rs name [] i repo Hi Hrepo).
  pose proof (GetArtefact_from_unnamed 0 (take i rs) name []
                (unnamed_take _ _ _ Hi) (Nat.le_0_l 1)) as Hpre.
  simpl in Hpre. fold (id_matches (take i rs) (core.Name name)) in Hpre.
  destruct (id_matches (take i rs) (core.Name name)) as [|p [|q l]].
  - by rewrite Hpre.
  - by rewrite Hpre.
  - destruct Hpre as (n & -> & _). by exists n.
Qed.

Lemma GetArtefact_by_name_and_tag_witness :
  GetArtefact example.rs_db (example.ref "acme/infra/db" "db" "v1") = Found (1, 0)%nat ∧
  GetArtefact example.rs_db (example.ref "acme/infra/db" "db" "v9") = Found (0, 1)%nat.
Proof.
  split.
  - exact (GetArtefact_by_name_and_tag example.rs_db
             (example.ref "acme/infra/db" "db" "v1") 1%nat _ eq_refl eq_refl).
  - exact (GetArtefact_by_name_and_tag example.rs_db
             (example.ref "acme/infra/db" "db" "v9") 1%nat _ eq_refl eq_refl).
Defined.

Lemma deref_take rs i p a :
  deref (take i rs) p = Some a → deref rs p = Some a.
Proof.
  destruct p as [k j]. intros (repo & Hrepo & Ha)%deref_Some_inv.
  apply lookup_take_Some in Hrepo as [Hrepo _]. by eapply deref_Some.
Qed.

(** A pointer that [GetArtefact] returns is the first holder of the tag
    in the first Repository of the reference's name, or the only Id
    candidate of a run of repositories that have another name. *)
Lemma GetArtefact_Found_cases (rs : list repository) (name : core.ArtieName)
    (p : nat * nat) :
  GetArtefact rs name = Found p →
  (∃ repo, find_index (named name) rs = Some p.1 ∧ rs !! p.1 = Some repo ∧
           find_index (λ a, HasTag a (core.Tag name)) (Artefacts repo) = Some p.2) ∨
  (∃ n, unnamed (take n rs) name ∧ id_matches (take n rs) (core.Name name) = [p]).
Proof.
  intros Hp. destruct (find_index (named name) rs) as [i|] eqn:Hi.
  - destruct (lookup_lt_is_Some_2 _ _ (find_index_lt _ _ _ Hi)) as [repo Hrepo].
    unfold GetArtefact in Hp.
    rewrite (GetArtefact_from_split 0 rs name [] i repo Hi Hrepo) in Hp.
    fold (GetArtefact (take i rs) name) in Hp.
    destruct (find_index _ (Artefacts repo)) as [j|] eqn:Hj.
    + left. exists repo.
      destruct (GetArtefact (take i rs) name); [| |done]; by injection Hp as <-.
    + right. exists i. pose proof (unnamed_take _ _ _ Hi) as Hun. split; [done|].
      destruct (GetArtefact (take i rs) name) as [q| |n] eqn:Hpre; [|done|done].
      injection Hp as ->. by apply GetArtefact_unnamed_Found.
  - right. exists (length rs). rewrite take_ge by done.
    pose proof (find_index_named_unnamed _ _ Hi) as Hun. split; [done|].
    by apply GetArtefact_unnamed_Found.
Qed.

(** X9: a pointer that [GetArtefact] returns designates an Artifact of the
    registry: one that holds the tag, in the first Repository that has the
    reference's fully-qualified name, or one whose Id contains the bare
    name, in a Repository that has another name. *)
Theorem GetArtefact_Found_sound (rs : list repository) (name : core.ArtieName)
    (p : nat * nat) :
  GetArtefact rs name = Found p →
  ∃ repo a,
    rs !! p.1 = Some repo ∧ Artefacts repo !! p.2 = Some a ∧
    ((find_index (named name) rs = Some p.1 ∧ core.Tag name ∈ Tags a) ∨
     (Repository repo ≠ core.FullyQualifiedName name ∧
      Go.Contains (Id a) (core.Name name) = true)).
Proof.
  intros [(repo & Hi & Hrepo & Hj) | (n & Hun & Honly)]%GetArtefact_Found_cases.
  - apply find_index_Some in Hj as (a & Ha & Ht & _). exists repo, a.
    split; [done|]. split; [done|]. left. split; [done | by apply HasTag_elem_of].
  - assert (p ∈ id_matches (take n rs) (core.Name name)) as Hin by (rewrite Honly; left).
    apply id_matches_spec in Hin as (a & Ha & Hc). destruct p as [k j].
    apply deref_Some_inv in Ha as (repo & Hrepo & Ha). exists repo, a.
    split; [by apply lookup_take_Some in Hrepo as [Hrepo _]|]. split; [done|].
    right. split; [|done]. apply Hun. by eapply list_elem_of_lookup_2.
Qed.

Lemma GetArtefact_Found_sound_witness :
  ∃ repo a, example.rs_db !! 0%nat = Some repo ∧ Artefacts repo !! 1%nat = Some a ∧
            Go.Contains (Id a) "db" = true.
Proof.
  destruct (GetArtefact_Found_sound example.rs_db
              (example.ref "acme/infra/db" "db" "v9") (0, 1)%nat eq_refl)
    as (repo & a & Hrepo & Ha & [[Hi _] | [_ Hc]]).
  - discriminate Hi.
  - exists repo, a. repeat split; assumption.
Defined.

Lemma GetArtefact_Found_deref rs name p :
  GetArtefact rs name = Found p → is_Some (deref rs p).
Proof.
  intros [(repo & _ & Hrepo & Hj) | (n & _ & Honly)]%GetArtefact_Found_cases.
  - apply find_index_Some in Hj as (a & Ha & _). exists a. destruct p.
    by eapply deref_Some.
  - assert (p ∈ id_matches (take n rs) (core.Name name)) as Hin by (rewrite Honly; left).
    apply id_matches_spec in Hin as (a & Ha & _). exists a. by eapply deref_take.
Qed.

(** ** How the methods fail *)

Lemma findRepository_Some_lt rs name i :
  findRepository rs name = Some i → (i < length rs)%nat.
Proof.
  unfold findRepository. destruct (find_index (named name) rs) as [k|] eqn:Hk.
  - intros [= <-]. by eapply find_index_lt.
  - apply find_index_lt.
Qed.

Lemma GetArtefact_Found_findRepository rs name p :
  GetArtefact rs name = Found p → is_Some (findRepository rs name).
Proof.
  intros [(repo & Hi & _) | (n & _ & Honly)]%GetArtefact_Found_cases;
    unfold findRepository; [by rewrite Hi|].
  destruct (find_index (named name) rs) as [i|]; [done|].
  destruct (find_index _ rs) eqn:Hnone; [done|]. exfalso.
  assert (p ∈ id_matches (take n rs) (core.Name name)) as Hin by (rewrite Honly; left).
  apply id_matches_spec in Hin as (a & Ha%deref_take & Hc). destruct p as [k j].
  apply deref_Some_inv in Ha as (repo & Hrepo & Ha).
  eapply find_index_None in Hnone; [|by eapply list_elem_of_lookup_2].
  eapply existsb_false_elem_of in Hnone; [|by eapply list_elem_of_lookup_2].
  unfold id_contains in Hnone. congruence.
Qed.

Lemma getArtefact_Abort name w e w' :
  getArtefact name w = Abort e w' → w' = w ∧ ∃ n, e = AmbiguousErr n.
Proof.
  unfold getArtefact. destruct (GetArtefact _ _); intros [= <- <-]; eauto.
Qed.

Lemma load_Abort name p w e w' :
  GetArtefact (Repositories w) name = Found p → load p w ≠ Abort e w'.
Proof.
  intros [a Ha]%GetArtefact_Found_deref. unfold load. by rewrite Ha.
Qed.

Lemma store_Tags_Done p tags w :
  store_Tags p tags w = Done () (with_Repositories (set_Tags p tags (Repositories w)) w).
Proof. reflexivity. Qed.

Lemma store_Artefacts_Done i arts w :
  store_Artefacts i arts w =
    Done () (with_Repositories (set_Artefacts i arts (Repositories w)) w).
Proof. reflexivity. Qed.



Lemma unTag_Abort_inv name tag w e w' :
  unTag name tag w = Abort e w' →
  w' = w ∧ ∃ n, e = AmbiguousErr n ∧ GetArtefact (Repositories w) name = Ambiguous n.
Proof.
  unfold unTag. intros [Hget | (artie & w1 & [-> Hget]%getArtefact_Done & Hrest)]%bind_Abort.
  - unfold getArtefact in Hget. destruct (GetArtefact _ name) eqn:Hg; try done.
    injection Hget as <- <-. by eauto.
  - destruct artie as [p|]; [|done].
    apply bind_Abort in Hrest as [Hload | (a & w1 & _ & Hstore)]; [|done].
    by apply (load_Abort _ _ _ _ _ Hget) in Hload.
Qed.

Lemma existsb_alter_ext {A} (f : A → bool) (g : A → A) (l : list A) (i : nat) :
  (∀ x, f (g x) = f x) → existsb f (alter g i l) = existsb f l.
Proof.
  intros Hfg. revert i. induction l as [|x l IH]; intros i; [done|].
  destruct i as [|i].
  - simpl. by rewrite Hfg.
  - change (alter g (S i) (x :: l)) with (x :: alter g i l). simpl. by rewrite IH.
Qed.

Lemma findRepository_set_Tags rs name p tags :
  findRepository (set_Tags p tags rs) name = findRepository rs name.
Proof.
  unfold findRepository. rewrite find_index_named_set_Tags.
  destruct (find_index (named name) rs); [done|].
  unfold set_Tags. apply find_index_ext_map. intros repo. simpl.
  by apply existsb_alter_ext.
Qed.

Lemma untagged_findRepository rs name rs1 :
  untagged rs name rs1 → findRepository rs1 name = findRepository rs name.
Proof.
  intros [[_ ->] | (p & a & _ & _ & ->)]; [done|]. apply findRepository_set_Tags.
Qed.

(** The part of [Add] after the files have been moved and the tag has
    been taken from its holder cannot fail. *)
Lemma Add_index_Done name created w :
  ∃ w', (found ← findRepo name;
         repo ← match found with
                | Some i => mret i
                | None =>
                    rs ← get_Repositories;
                    put_Repositories
                      (rs ++ [{| Repository := core.FullyQualifiedName name;
                                 Artefacts := [] |}]);;
                    mret (length rs)
                end;
         arts ← load_Artefacts repo;
         store_Artefacts repo (arts ++ [created]);;
         save) w = Done () w'.
Proof.
  rewrite (bind_eq _ _ w (findRepository (Repositories w) name) w) by done.
  destruct (findRepository (Repositories w) name) as [i|] eqn:Hfr.
  - apply findRepository_Some_lt, lookup_lt_is_Some_2 in Hfr as [repo Hrepo].
    rewrite (bind_eq _ _ w i w) by done.
    rewrite (bind_eq _ _ w (Artefacts repo) w)
      by (unfold load_Artefacts; by rewrite Hrepo).
    by eexists.
  - eexists. unfold mbind, M_bind, get_Repositories, put_Repositories, mret, M_ret,
      load_Artefacts. simpl. rewrite lookup_app_r, Nat.sub_diag by done. simpl. done.
Qed.

Definition zip_move `{core.Host} (filename : string) : list string → option (list string) :=
  core.RenameFile filename (core.Join core.RegistryPath (core.Base filename)) false.

Definition seal_move `{core.Host} (filename : string) : list string → option (list string) :=
  let basenameNoExt := Go.TrimSuffix (core.Base filename) (Go.Ext (core.Base filename)) in
  core.RenameFile
    (core.Join (core.Dir filename) (basenameNoExt +:+ ".json"))
    (core.Join core.RegistryPath (basenameNoExt +:+ ".json")) false.

Lemma on_files_inv op w :
  (∃ fs, op (files w) = Some fs ∧
         on_files op w = Done () {| Repositories := Repositories w; document := document w;
                                    files := fs; console := console w |}) ∨
  (op (files w) = None ∧ on_files op w = Abort IOErr w).
Proof.
  unfold on_files. destruct (op (files w)) as [fs|]; [left; by exists fs | by right].
Qed.



Lemma removeFiles_Abort_inv `{core.Host} a w e w' :
  removeFiles a w = Abort e w' →
  e = IOErr ∧ Repositories w' = Repositories w ∧ document w' = document w ∧
  console w' = console w.
Proof.
  unfold removeFiles.
  destruct (on_files_inv (Go.os_Remove (core.RegistryPath +:+ "/" +:+ FileRef a +:+ ".zip")) w)
    as [(fs1 & _ & Hzip) | [_ Hzip]].
  2: { intros [Habort | (? & ? & Hd & _)]%bind_Abort; [|congruence].
       rewrite Hzip in Habort. by injection Habort as <- <-. }
  rewrite (bind_eq _ _ _ _ _ Hzip). unfold on_files. simpl.
  destruct (Go.os_Remove _ fs1); [done|]. by intros [= <- <-].
Qed.

Lemma Remove_name_Abort_inv `{core.Host} name w e w' :
  Remove_name name w = Abort e w' →
  (w' = w ∧ ∃ n, e = AmbiguousErr n ∧ GetArtefact (Repositories w) name = Ambiguous n) ∨
  (e = IOErr ∧ document w' = document w ∧ console w' = console w ∧
   ∃ p, GetArtefact (Repositories w) name = Found p).
Proof.
  unfold Remove_name.
  intros [Hget | (artie & w1 & [-> Hget]%getArtefact_Done & Hrm)]%bind_Abort.
  { left. unfold getArtefact in Hget. destruct (GetArtefact _ name) eqn:Hg; try done.
    injection Hget as <- <-. by eauto. }
  destruct artie as [p|]; [|done]. right.
  destruct (GetArtefact_Found_deref _ _ _ Hget) as [before Hbefore].
  rewrite (bind_eq _ _ w before w) in Hrm by (unfold load; by rewrite Hbefore).
  rewrite (bind_eq _ _ _ _ _ (unTag_Found _ _ _ _ _ Hget Hbefore)) in Hrm.
  set (tags' := core.RemoveElement (Tags before) (core.Tag name)) in Hrm.
  set (w1 := with_Repositories _ w) in Hrm.
  rewrite (bind_eq _ _ w1 (with_Tags tags' before) w1) in Hrm
    by (unfold load; simpl; by rewrite (deref_set_Tags _ _ _ _ Hbefore)).
  assert (∃ q, GetArtefact (Repositories w) name = Found q) as Hq by eauto.
  destruct (_ <? _)%nat.
  - apply bind_Abort in Hrm as [Hrm | (u & w2 & _ & Hrm)]; [|done].
    destruct (_ =? _)%nat; [|done].
    unfold mbind, M_bind, get_Repositories, put_Repositories in Hrm. simpl in Hrm.
    destruct (negb _); [|done].
    apply removeFiles_Abort_inv in Hrm as (-> & _ & Hdoc & Hcon). done.
  - destruct (GetArtefact_Found_findRepository _ _ _ Hget) as [i Hi].
    rewrite (bind_eq _ _ w1 (Some i) w1) in Hrm
      by (unfold findRepo, w1; simpl; by rewrite findRepository_set_Tags, Hi).
    assert (is_Some (Repositories w1 !! i)) as [repo Hrepo].
    { apply lookup_lt_is_Some. unfold w1, set_Tags. simpl. rewrite length_alter.
      by eapply findRepository_Some_lt. }
    rewrite (bind_eq _ _ w1 (Artefacts repo) w1) in Hrm
      by (unfold load_Artefacts; by rewrite Hrepo).
    rewrite (bind_eq _ _ _ _ _ (store_Artefacts_Done _ _ _)) in Hrm.
    apply bind_Abort in Hrm as [Hrm | (u & w2 & _ & Hrm)]; [|done].
    apply removeFiles_Abort_inv in Hrm as (-> & _ & Hdoc & Hcon). done.
Qed.



(** ** Looking up what Add and Tag have recorded *)

Lemma indices_from_alter {A} (f : A → bool) (h : A → A) (l : list A) (i j : nat) :
  (∀ x, f (h x) = f x) → indices_from f i (alter h j l) = indices_from f i l.
Proof.
  intros Hfh. revert i j. induction l as [|x l IH]; intros i j; [done|].
  destruct j as [|j].
  - simpl. by rewrite Hfh.
  - change (alter h (S j) (x :: l)) with (x :: alter h j l).
    cbn [indices_from]. by rewrite IH.
Qed.

Lemma id_matches_from_alter ri rs (g : repository → repository) k fragment :
  (∀ repo, indices_from (id_contains fragment) 0 (Artefacts (g repo)) =
           indices_from (id_contains fragment) 0 (Artefacts repo)) →
  id_matches_from ri (alter g k rs) fragment = id_matches_from ri rs fragment.
Proof.
  intros Hg. revert ri k. induction rs as [|r rs IH]; intros ri k; [done|].
  destruct k as [|k].
  - simpl. by rewrite Hg.
  - change (alter g (S k) (r :: rs)) with (r :: alter g k rs).
    cbn [id_matches_from]. by rewrite IH.
Qed.

(** The Id candidates do not depend on the tags. *)
Lemma id_matches_take_set_Tags i rs p tags fragment :
  id_matches (take i (set_Tags p tags rs)) fragment = id_matches (take i rs) fragment.
Proof.
  unfold set_Tags, id_matches. destruct (decide (i ≤ p.1)%nat) as [Hle|Hlt].
  - by rewrite take_alter_ge by done.
  - rewrite take_alter_lt by lia. apply id_matches_from_alter.
    intros repo. simpl. by apply indices_from_alter.
Qed.

Lemma find_index_snoc {A} (f : A → bool) (l : list A) (y : A) :
  (∀ x, x ∈ l → f x = false) → f y = true →
  find_index f (l ++ [y]) = Some (length l).
Proof.
  intros Hl Hy. induction l as [|x l IH]; simpl.
  - by rewrite Hy.
  - rewrite (Hl x) by left. rewrite IH; [done|]. intros z Hz. apply Hl. by right.
Qed.

Lemma find_index_app_Some {A} (f : A → bool) (l k : list A) (i : nat) :
  find_index f l = Some i → find_index f (l ++ k) = Some i.
Proof.
  revert i. induction l as [|x l IH]; intros i; simpl; [done|].
  destruct (f x); [done|].
  destruct (find_index f l) as [i'|]; [|done]. intros [= <-]. by rewrite (IH i').
Qed.

Lemma findRepository_None rs name :
  findRepository rs name = None ↔
  find_index (named name) rs = None ∧ id_matches rs (core.Name name) = [].
Proof.
  unfold findRepository. split.
  - destruct (find_index (named name) rs) as [i|]; [done|]. intros Hnone.
    split; [done|]. destruct (id_matches rs (core.Name name)) as [|p l] eqn:Hm; [done|].
    exfalso. assert (p ∈ id_matches rs (core.Name name)) as Hin by (rewrite Hm; left).
    apply id_matches_spec in Hin as (a & Ha & Hc). destruct p as [k j].
    apply deref_Some_inv in Ha as (repo & Hrepo & Ha).
    eapply find_index_None in Hnone; [|by eapply list_elem_of_lookup_2].
    eapply existsb_false_elem_of in Hnone; [|by eapply list_elem_of_lookup_2].
    unfold id_contains in Hnone. congruence.
  - intros [-> Hfresh]. apply find_index_None. intros repo Hrepo.
    apply existsb_false_elem_of. intros a Ha.
    destruct (id_contains (core.Name name) a) eqn:Hc; [exfalso|done].
    apply list_elem_of_lookup_1 in Hrepo as [k Hk].
    apply list_elem_of_lookup_1 in Ha as [m Hm].
    assert ((k, m) ∈ id_matches rs (core.Name name)) as Hin.
    { apply id_matches_spec. exists a. split; [by apply (deref_Some _ _ _ repo)|done]. }
    rewrite Hfresh in Hin. by apply elem_of_nil in Hin.
Qed.

(** A lookup that does not end in the ambiguity error has met at most one
    Id candidate before the Repository of the reference's name. *)
Lemma GetArtefact_prefix_candidates rs name i :
  find_index (named name) rs = Some i →
  (∀ n, GetArtefact rs name ≠ Ambiguous n) →
  (length (id_matches (take i rs) (core.Name name)) ≤ 1)%nat.
Proof.
  intros Hi Hget.
  destruct (lookup_lt_is_Some_2 _ _ (find_index_lt _ _ _ Hi)) as [repo Hrepo].
  unfold GetArtefact in Hget.
  rewrite (GetArtefact_from_split 0 rs name [] i repo Hi Hrepo) in Hget.
  pose proof (GetArtefact_from_unnamed 0 (take i rs) name []
                (unnamed_take _ _ _ Hi) (Nat.le_0_l 1)) as Hpre.
  simpl in Hpre. fold (id_matches (take i rs) (core.Name name)) in Hpre.
  destruct (id_matches (take i rs) (core.Name name)) as [|p [|q l]]; simpl; [lia | lia |].
  destruct Hpre as (n & Hn & _). rewrite Hn in Hget. by destruct (Hget n).
Qed.

Lemma GetArtefact_named_holder rs name i repo j :
  find_index (named name) rs = Some i →
  rs !! i = Some repo →
  find_index (λ a, HasTag a (core.Tag name)) (Artefacts repo) = Some j →
  (length (id_matches (take i rs) (core.Name name)) ≤ 1)%nat →
  GetArtefact rs name = Found (i, j).
Proof.
  intros Hi Hrepo Hj Hlen. unfold GetArtefact.
  rewrite (GetArtefact_from_split 0 rs name [] i repo Hi Hrepo), Hj.
  pose proof (GetArtefact_from_unnamed 0 (take i rs) name []
                (unnamed_take _ _ _ Hi) (Nat.le_0_l 1)) as Hpre.
  simpl in Hpre. fold (id_matches (take i rs) (core.Name name)) in Hpre.
  destruct (id_matches (take i rs) (core.Name name)) as [|p [|q l]];
    [by rewrite Hpre | by rewrite Hpre | simpl in Hlen; lia].
Qed.

(** A Repository appended for a reference that [findRepository] does not
    resolve is where [GetArtefact] finds the reference. *)
Lemma GetArtefact_appended rs name created :
  findRepository rs name = None →
  HasTag created (core.Tag name) = true →
  GetArtefact (rs ++ [{| Repository := core.FullyQualifiedName name;
                         Artefacts := [created] |}]) name
  = Found (length rs, 0%nat).
Proof.
  intros [Hnone Hfresh]%findRepository_None Hheld.
  eapply GetArtefact_named_holder.
  - apply find_index_snoc; [by apply find_index_None|].
    unfold named. simpl. apply String.eqb_refl.
  - apply list_lookup_middle. done.
  - simpl. by rewrite Hheld.
  - rewrite take_app_length, Hfresh. simpl. lia.
Qed.

Lemma Add_Done_created `{core.Host} filename name s w w' :
  Add filename name s w = Done () w' →
  ∃ rs1,
    untagged (Repositories w) name rs1 ∧
    added rs1 name
      (new_artefact (Go.TrimSuffix (core.Base filename) (Go.Ext (core.Base filename))) name s)
      (Repositories w').
Proof.
  unfold Add. destruct (negb _); [discriminate|].
  intros (u1 & w1 & Hzip & Hadd)%bind_Done.
  apply bind_Done in Hadd as (u2 & w2 & Hjson & Hadd).
  apply on_files_Done in Hzip as (Hr1 & _). apply on_files_Done in Hjson as (Hr2 & _).
  rewrite Hr1 in Hr2. clear Hr1 w1 u1 u2.
  apply bind_Done in Hadd as (u3 & w3 & Huntag%unTag_Done & Hadd).
  rewrite Hr2 in Huntag.
  exists (Repositories w3). split; [done|].
  apply bind_Done in Hadd as (found & w4 & Hfind & Hadd).
  injection Hfind as Hfind ?; subst w4.
  destruct found as [i|].
  - left. rewrite (bind_eq _ _ w3 i w3) in Hadd by done.
    apply bind_Done in Hadd as (arts & w4 & [-> Harts]%load_Artefacts_Done & Hadd).
    destruct (Repositories w3 !! i) as [repo1|] eqn:Hrepo1; [|done].
    injection Harts as <-. exists i, repo1. split; [done|]. split; [done|].
    apply bind_Done in Hadd as (u4 & w4 & Hstore & Hsave).
    injection Hstore as ?; subst w4. injection Hsave as ?; subst w'. simpl.
    by apply set_Artefacts_insert.
  - right. split; [done|].
    apply bind_Done in Hadd as (i & w4 & Hnew & Hadd).
    apply bind_Done in Hnew as (rs & w5 & Hget & Hnew).
    injection Hget as ? ?; subst rs w5.
    apply bind_Done in Hnew as (u5 & w5 & Hput & Hret).
    injection Hput as ?; subst w5. injection Hret as ? ?; subst i w4.
    apply bind_Done in Hadd as (arts & w4 & [-> Harts]%load_Artefacts_Done & Hadd).
    simpl in Harts. rewrite lookup_app_r, Nat.sub_diag in Harts by done.
    injection Harts as <-.
    apply bind_Done in Hadd as (u4 & w4 & Hstore & Hsave).
    injection Hstore as ?; subst w4. injection Hsave as ?; subst w'. simpl.
    unfold set_Artefacts.
    erewrite list_alter_insert
      by (rewrite lookup_app_r, Nat.sub_diag by done; reflexivity).
    rewrite insert_app_r_alt, Nat.sub_diag by done. done.
Qed.

(** X13: what [Add] has recorded is what [GetArtefact] returns for the
    same reference afterwards, when the registry is well tagged and the
    reference names a Repository of the registry or, naming none, has a
    bare name that occurs in no content identifier. *)
Theorem Add_then_GetArtefact `{core.Host} (filename : string) (name : core.ArtieName)
    (s : core.Seal) (w w' : world) :
  (find_index (named name) (Repositories w) = None →
   id_matches (Repositories w) (core.Name name) = []) →
  well_tagged (Repositories w) →
  Add filename name s w = Done () w' →
  ∃ p, GetArtefact (Repositories w') name = Found p ∧
       deref (Repositories w') p =
         Some (new_artefact
                 (Go.TrimSuffix (core.Base filename) (Go.Ext (core.Base filename))) name s).
Proof.
  intros Hfresh Hwt (rs1 & Hun & Hadd)%Add_Done_created.
  set (created := new_artefact _ name s) in *.
  assert (HasTag created (core.Tag name) = true) as Hheld.
  { apply HasTag_elem_of. simpl. left. }
  destruct (find_index (named name) (Repositories w)) as [i|] eqn:Hi.
  - clear Hfresh.
    destruct (lookup_lt_is_Some_2 _ _ (find_index_lt _ _ _ Hi)) as [repo Hrepo].
    destruct (untagged_no_holder _ _ _ _ _ Hwt Hun Hi Hrepo) as (repo1 & Hrepo1 & Hnone).
    assert (find_index (named name) rs1 = Some i) as Hi1
      by (by rewrite (untagged_named _ _ _ Hun)).
    pose proof (findRepository_named _ _ _ Hi1) as Hfr.
    destruct Hadd as [(i' & r & Hfr' & Hr & Hrs2) | [Hfr' _]]; [|congruence].
    assert (i' = i) as -> by congruence. assert (r = repo1) as -> by congruence.
    exists (i, length (Artefacts repo1)).
    set (repo2 := with_Artefacts (Artefacts repo1 ++ [created]) repo1) in Hrs2.
    assert (Repositories w' !! i = Some repo2) as Hrepo2.
    { rewrite Hrs2. apply list_lookup_insert_eq. by eapply lookup_lt_Some. }
    split.
    + apply (GetArtefact_named_holder _ _ i repo2).
      * rewrite Hrs2. unfold repo2.
        rewrite <- (set_Artefacts_insert _ _ _ _ Hrepo1). unfold set_Artefacts.
        by rewrite find_index_ext_map.
      * done.
      * simpl. apply find_index_snoc; [|done]. intros b [k Hb]%list_elem_of_lookup_1.
        destruct (HasTag b (core.Tag name)) eqn:Hb'; [|done].
        apply HasTag_elem_of in Hb'. by destruct (Hnone k b Hb).
      * rewrite Hrs2, take_insert_ge by done.
        assert (id_matches (take i rs1) (core.Name name) =
                id_matches (take i (Repositories w)) (core.Name name)) as ->.
        { destruct Hun as [[_ ->] | (p & a & _ & _ & ->)]; [done|].
          apply id_matches_take_set_Tags. }
        apply GetArtefact_prefix_candidates; [done|]. intros n Hn.
        destruct Hun as [[Hget _] | (p & a & Hget & _)]; congruence.
    + apply (deref_Some _ _ _ repo2); [done|]. simpl. by apply list_lookup_middle.
  - specialize (Hfresh eq_refl).
    assert (findRepository (Repositories w) name = None) as Hfr
      by (by apply findRepository_None).
    pose proof (GetArtefact_from_unnamed 0 _ name []
                  (find_index_named_unnamed _ _ Hi) (Nat.le_0_l 1)) as Hget.
    simpl in Hget. fold (id_matches (Repositories w) (core.Name name)) in Hget.
    fold (GetArtefact (Repositories w) name) in Hget. rewrite Hfresh in Hget.
    destruct Hun as [[_ ->] | (p & a & Hp & _)]; [|congruence].
    destruct Hadd as [(i' & r & Hfr' & _) | [_ ->]]; [congruence|].
    exists (length (Repositories w), 0%nat). split.
    + by apply GetArtefact_appended.
    + eapply deref_Some; [by apply list_lookup_middle | done].
Qed.

Lemma Add_then_GetArtefact_witness :
  ∃ w' p, Add "/tmp/b/app3.zip" (example.ref "acme/tools/app" "app" "v2")
              (example.seal "sha256:77c1d0e2a4b5f693") example.w_app = Done () w' ∧
          GetArtefact (Repositories w') (example.ref "acme/tools/app" "app" "v2") = Found p ∧
          deref (Repositories w') p =
            Some (example.art "sha256:77c1d0e2a4b5f693" "app3" ["v2"]).
Proof.
  assert (∃ w', Add "/tmp/b/app3.zip" (example.ref "acme/tools/app" "app" "v2")
                    (example.seal "sha256:77c1d0e2a4b5f693") example.w_app = Done () w')
    as [w' Hrun] by (eexists; vm_compute; reflexivity).
  assert (find_index (named (example.ref "acme/tools/app" "app" "v2"))
            (Repositories example.w_app) = None →
          id_matches (Repositories example.w_app)
            (core.Name (example.ref "acme/tools/app" "app" "v2")) = []) as Hfresh.
  { intros Hnone. vm_compute in Hnone. discriminate Hnone. }
  destruct (Add_then_GetArtefact _ _ _ _ _ Hfresh well_tagged_rs_app Hrun) as (p & Hp & Ha).
  exists w', p. split; [exact Hrun|]. split; [exact Hp | exact Ha].
Defined.

(** The world after a step that replaces the index and saves it. *)
Definition recorded (rs : list repository) (w : world) : world :=
  {| Repositories := rs; document := rs; files := files w; console := console w |}.

Lemma Tag_new_repository sourceName targetName w sp sourceArtie :
  GetArtefact (Repositories w) sourceName = Found sp →
  deref (Repositories w) sp = Some sourceArtie →
  core.IsInTheSameRepositoryAs targetName sourceName = false →
  findRepository (Repositories w) targetName = None →
  Tag sourceName targetName w =
    Done () (recorded (Repositories w ++
                         [{| Repository := core.FullyQualifiedName targetName;
                             Artefacts := [tagged_copy sourceArtie (core.Tag targetName)] |}])
                      w).
Proof.
  intros Hsp Hsource Hother Hnone. unfold Tag.
  rewrite (bind_eq _ _ w (Some sp) w) by (unfold getArtefact; by rewrite Hsp).
  rewrite (bind_eq _ _ w sourceArtie w) by (unfold load; by rewrite Hsource).
  rewrite Hother.
  rewrite (bind_eq _ _ w None w) by (unfold findRepo; by rewrite Hnone).
  reflexivity.
Qed.

(** X14: [Tag] into a Repository that [findRepository] does not resolve
    appends the Repository with one record of the source Artifact that
    holds the target tag alone, persists the index, leaves the files as
    they are, and [GetArtefact] resolves the target reference to that
    record afterwards. *)
Theorem Tag_into_new_repository (sourceName targetName : core.ArtieName) (w : world)
    (sp : nat * nat) (sourceArtie : artefact) :
  GetArtefact (Repositories w) sourceName = Found sp →
  deref (Repositories w) sp = Some sourceArtie →
  core.IsInTheSameRepositoryAs targetName sourceName = false →
  findRepository (Repositories w) targetName = None →
  ∃ w', Tag sourceName targetName w = Done () w' ∧
        saved w' ∧ files w' = files w ∧
        length (Repositories w') = S (length (Repositories w)) ∧
        take (length (Repositories w)) (Repositories w') = Repositories w ∧
        GetArtefact (Repositories w') targetName = Found (length (Repositories w), 0%nat) ∧
        deref (Repositories w') (length (Repositories w), 0%nat) =
          Some (tagged_copy sourceArtie (core.Tag targetName)).
Proof.
  intros Hsp Hsource Hother Hnone. eexists.
  split; [by apply (Tag_new_repository _ _ _ _ _ Hsp Hsource Hother Hnone)|]. simpl.
  split; [done|]. split; [done|].
  split; [rewrite length_app; simpl; lia|].
  split; [by rewrite take_app_length|]. split.
  - apply GetArtefact_appended; [done|]. apply HasTag_elem_of. simpl. left.
  - eapply deref_Some; [by apply list_lookup_middle | done].
Qed.

Lemma Tag_into_new_repository_witness :
  ∃ w', Tag (example.ref "acme/tools/app" "app" "v2")
            (example.ref "acme/prod/app" "app" "stable") example.w_app = Done () w' ∧
        GetArtefact (Repositories w') (example.ref "acme/prod/app" "app" "stable")
        = Found (1, 0)%nat ∧
        deref (Repositories w') (1, 0)%nat =
          Some (example.art "sha256:3f9cdb4471aa02be" "app2" ["stable"]).
Proof.
  destruct (Tag_into_new_repository
              (example.ref "acme/tools/app" "app" "v2")
              (example.ref "acme/prod/app" "app" "stable") example.w_app
              (0, 1)%nat (example.art "sha256:3f9cdb4471aa02be" "app2" ["v2"])
              eq_refl eq_refl eq_refl eq_refl)
    as (w' & Hrun & _ & _ & _ & _ & Hget & Ha).
  exists w'. split; [exact Hrun|]. split; [exact Hget | exact Ha].
Defined.

Lemma id_matches_from_app ri l k fragment :
  id_matches_from ri (l ++ k) fragment =
  id_matches_from ri l fragment ++ id_matches_from (ri + length l) k fragment.
Proof.
  revert ri. induction l as [|r l IH]; intros ri; simpl.
  - by rewrite Nat.add_0_r.
  - rewrite IH, <- app_assoc. do 3 f_equal. lia.
Qed.

(** X15: a reference that resolves through its bare name (no Repository
    has its fully-qualified name) stops resolving once [Tag] has recorded
    the Artifact in a new Repository: the record made there has the same
    Id, so that the same reference has two Id candidates and [GetArtefact]
    ends in the ambiguity error. *)
Theorem Tag_makes_Id_reference_ambiguous (sourceName targetName : core.ArtieName)
    (w : world) (sp : nat * nat) (sourceArtie : artefact) :
  unnamed (Repositories w) sourceName →
  GetArtefact (Repositories w) sourceName = Found sp →
  deref (Repositories w) sp = Some sourceArtie →
  core.IsInTheSameRepositoryAs targetName sourceName = false →
  findRepository (Repositories w) targetName = None →
  ∃ w', Tag sourceName targetName w = Done () w' ∧
        GetArtefact (Repositories w') sourceName = Ambiguous 2.
Proof.
  intros Hun Hsp Hsource Hother Hnone. eexists.
  split; [by apply (Tag_new_repository _ _ _ _ _ Hsp Hsource Hother Hnone)|]. simpl.
  set (copy := {| Repository := core.FullyQualifiedName targetName; Artefacts := _ |}).
  pose proof (GetArtefact_unnamed_Found _ _ _ Hun Hsp) as Honly.
  assert (Go.Contains (Id sourceArtie) (core.Name sourceName) = true) as Hc.
  { assert (sp ∈ id_matches (Repositories w) (core.Name sourceName)) as Hin
      by (rewrite Honly; left).
    apply id_matches_spec in Hin as (a & Ha & Hc). congruence. }
  assert (unnamed (Repositories w ++ [copy]) sourceName) as Hun'.
  { intros repo [Hrepo | ->%list_elem_of_singleton]%elem_of_app; [by apply Hun|].
    simpl. unfold core.IsInTheSameRepositoryAs in Hother. by apply String.eqb_neq. }
  pose proof (GetArtefact_from_unnamed 0 _ sourceName [] Hun' (Nat.le_0_l 1)) as Hget.
  simpl in Hget. rewrite id_matches_from_app in Hget.
  fold (id_matches (Repositories w) (core.Name sourceName)) in Hget.
  rewrite Honly in Hget. simpl in Hget. unfold id_contains in Hget. simpl in Hget.
  rewrite Hc in Hget. simpl in Hget.
  destruct Hget as (n & Hn & Hlt). unfold GetArtefact. rewrite Hn. f_equal. lia.
Qed.

Lemma Tag_makes_Id_reference_ambiguous_witness :
  ∃ w', Tag (example.ref "3f9cdb" "3f9cdb" "latest")
            (example.ref "acme/prod/app" "app" "stable") example.w_app = Done () w' ∧
        GetArtefact (Repositories w') (example.ref "3f9cdb" "3f9cdb" "latest")
        = Ambiguous 2.
Proof.
  assert (unnamed (Repositories example.w_app) (example.ref "3f9cdb" "3f9cdb" "latest"))
    as Hun.
  { apply find_index_named_unnamed. reflexivity. }
  exact (Tag_makes_Id_reference_ambiguous
           (example.ref "3f9cdb" "3f9cdb" "latest")
           (example.ref "acme/prod/app" "app" "stable") example.w_app
           (0, 1)%nat (example.art "sha256:3f9cdb4471aa02be" "app2" ["v2"])
           Hun eq_refl eq_refl eq_refl eq_refl).
Defined.

(** ** What Tag keeps *)

(** Every Repository of [rs] is in [rs'] at the same index under the same
    name, and every Artifact record of it is there at the same index, the
    same but for copies of [tag] at the end of its tag list. *)
Definition grows (tag : string) (rs rs' : list repository) : Prop :=
  ∀ i repo, rs !! i = Some repo →
    ∃ repo', rs' !! i = Some repo' ∧ Repository repo' = Repository repo ∧
      ∀ j a, Artefacts repo !! j = Some a →
        ∃ k, Artefacts repo' !! j = Some (with_Tags (Tags a ++ replicate k tag) a).

Lemma with_Tags_same (a : artefact) : with_Tags (Tags a ++ []) a = a.
Proof. destruct a. unfold with_Tags. simpl. by rewrite app_nil_r. Qed.

Lemma grows_refl tag rs : grows tag rs rs.
Proof.
  intros i repo Hrepo. exists repo. split; [done|]. split; [done|].
  intros j a Ha. exists 0%nat. simpl. by rewrite with_Tags_same.
Qed.

Lemma grows_set_Tags tag rs p a k :
  deref rs p = Some a →
  grows tag rs (set_Tags p (Tags a ++ replicate k tag) rs).
Proof.
  intros Ha i repo Hrepo.
  destruct (set_Tags_lookup rs p a (Tags a ++ replicate k tag) i repo Ha Hrepo)
    as (repo1 & Hrepo1 & Hname & Hlook).
  exists repo1. split; [done|]. split; [done|]. intros j b Hb. rewrite Hlook.
  destruct (decide ((i, j) = p)) as [<-|_].
  - apply deref_Some_inv in Ha as (r & Hr & Ha).
    assert (b = a) as -> by congruence. by exists k.
  - exists 0%nat. simpl. by rewrite with_Tags_same.
Qed.

Lemma grows_app tag rs l : grows tag rs (rs ++ l).
Proof.
  intros i repo Hrepo. exists repo. split; [by apply lookup_app_l_Some|].
  split; [done|]. intros j a Ha. exists 0%nat. simpl. by rewrite with_Tags_same.
Qed.

Lemma grows_set_Artefacts tag rs i repo l :
  rs !! i = Some repo →
  grows tag rs (set_Artefacts i (Artefacts repo ++ l) rs).
Proof.
  intros Hi k r Hr. rewrite (set_Artefacts_insert _ _ _ _ Hi).
  destruct (decide (k = i)) as [->|Hne].
  - rewrite list_lookup_insert_eq by (by eapply lookup_lt_Some).
    assert (r = repo) as -> by congruence. eexists. split; [done|]. split; [done|].
    intros j a Ha. exists 0%nat. simpl. rewrite with_Tags_same. by apply lookup_app_l_Some.
  - rewrite list_lookup_insert_ne by done. exists r. split; [done|]. split; [done|].
    intros j a Ha. exists 0%nat. simpl. by rewrite with_Tags_same.
Qed.

(** X16: [Tag] takes nothing away.  When it returns, the files and the
    console are as they were, every Repository is at its index under its
    name, and every Artifact record is at its index with its Id, type,
    file reference, size and creation time; its tag list is the one it had,
    with copies of the target tag added at the end, if any. *)
Theorem Tag_only_adds (sourceName targetName : core.ArtieName) (w w' : world) (u : unit) :
  Tag sourceName targetName w = Done u w' →
  files w' = files w ∧ console w' = console w ∧
  grows (core.Tag targetName) (Repositories w) (Repositories w').
Proof.
  unfold Tag. intros (found & w1 & [-> Hsrc]%getArtefact_Done & Htag)%bind_Done.
  destruct found as [sp|]; [|discriminate].
  apply bind_Done in Htag as (sourceArtie & w1 & [-> Hsa]%load_Done & Htag).
  destruct (core.IsInTheSameRepositoryAs targetName sourceName).
  - destruct (negb _).
    + apply bind_Done in Htag as (? & w1 & Hstore & Hsave).
      injection Hstore as ?; subst w1. injection Hsave as ?; subst w'. simpl.
      split; [done|]. split; [done|].
      by apply (grows_set_Tags _ _ _ _ 1).
    + injection Htag as ?; subst w'. split; [done|]. split; [done|]. apply grows_refl.
  - apply bind_Done in Htag as (targetRepository & w1 & Hfind & Htag).
    injection Hfind as Hfind <-.
    destruct targetRepository as [tr|].
    + apply bind_Done in Htag as (targetArtie & w1 & [-> Htgt]%getArtefact_Done & Htag).
      destruct targetArtie as [tp|].
      * apply bind_Done in Htag as (t & w1 & [-> Ht]%load_Done & Htag).
        injection Htag as ?; subst w'. simpl. split; [done|]. split; [done|].
        rewrite retag_replicate. by apply grows_set_Tags.
      * apply bind_Done in Htag as (arts & w1 & [-> Harts]%load_Artefacts_Done & Htag).
        destruct (Repositories w !! tr) as [repo|] eqn:Hrepo; [|done].
        injection Harts as <-.
        destruct (find_index _ (Artefacts repo)) as [ai|].
        -- apply bind_Done in Htag as (a & w1 & [-> Ha]%load_Done & Htag).
           apply bind_Done in Htag as (? & w1 & Hstore & Hsave).
           injection Hstore as ?; subst w1. injection Hsave as ?; subst w'. simpl.
           split; [done|]. split; [done|]. by apply (grows_set_Tags _ _ _ _ 1).
        -- apply bind_Done in Htag as (? & w1 & Hstore & Hsave).
           injection Hstore as ?; subst w1. injection Hsave as ?; subst w'. simpl.
           split; [done|]. split; [done|]. by apply grows_set_Artefacts.
    + apply bind_Done in Htag as (rs & w1 & Hget & Htag).
      injection Hget as ? ?; subst rs w1.
      apply bind_Done in Htag as (? & w1 & Hput & Hsave).
      injection Hput as ?; subst w1. injection Hsave as ?; subst w'. simpl.
      split; [done|]. split; [done|]. apply grows_app.
Qed.

Lemma Tag_only_adds_witness :
  ∃ w', Tag (example.ref "acme/tools/app" "app" "v2")
            (example.ref "acme/prod/app" "app" "v2") example.w_prod = Done () w' ∧
        files w' = files example.w_prod ∧
        grows "v2" example.rs_prod (Repositories w').
Proof.
  assert (∃ w', Tag (example.ref "acme/tools/app" "app" "v2")
                    (example.ref "acme/prod/app" "app" "v2") example.w_prod = Done () w')
    as [w' Hrun] by (eexists; vm_compute; reflexivity).
  exists w'. split; [exact Hrun|].
  destruct (Tag_only_adds _ _ _ _ _ Hrun) as (Hfiles & _ & Hgrows).
  split; [exact Hfiles | exact Hgrows].
Defined.

(** ** Remove and the Repository record *)

Lemma Remove_name_last_tag_Repositories `{core.Host} name w w' p a :
  GetArtefact (Repositories w) name = Found p →
  deref (Repositories w) p = Some a →
  Tags a = [core.Tag name] →
  Remove_name name w = Done () w' →
  Repositories w' = removeRepoByName (set_Tags p [] (Repositories w)) name.
Proof.
  intros Hp Ha Htags. unfold Remove_name.
  rewrite (bind_eq _ _ w (Some p) w) by (unfold getArtefact; by rewrite Hp).
  rewrite (bind_eq _ _ w a w) by (unfold load; by rewrite Ha).
  rewrite (bind_eq _ _ _ _ _ (unTag_Found _ _ _ _ _ Hp Ha)).
  rewrite Htags. cbn [core.RemoveElement]. rewrite String.eqb_refl.
  set (w1 := with_Repositories _ w).
  rewrite (bind_eq _ _ w1 (with_Tags [] a) w1)
    by (unfold load; simpl; by rewrite (deref_set_Tags _ _ _ _ Ha)).
  cbn [with_Tags Tags length Nat.ltb Nat.leb Nat.eqb].
  intros (u1 & w2 & Hrepo & Hrest)%bind_Done.
  apply bind_Done in Hrest as (u2 & w3 & Hsave & Hprint).
  injection Hsave as ?; subst w3. injection Hprint as ?; subst w'. simpl.
  apply bind_Done in Hrepo as (rs & w4 & Hget & Hrepo).
  injection Hget as ? ?; subst rs w4.
  apply bind_Done in Hrepo as (u3 & w5 & Hput & Hrepo).
  injection Hput as ?; subst w5.
  apply bind_Done in Hrepo as (rs' & w6 & Hget & Hrepo).
  injection Hget as ? ?; subst rs' w6. simpl in Hrepo.
  destruct (negb _).
  - by apply removeFiles_Done in Hrepo as [-> _].
  - by injection Hrepo as ?; subst w2.
Qed.

(** X17: [Remove] of the only tag of an Artifact in the Repository that
    the reference names removes that Repository record as a whole: the
    registry has one Repository less, and every Repository left is one of
    the others, as it was.  Any other Artifact of the Repository leaves
    the index with it. *)
Theorem Remove_last_tag_drops_repository `{core.Host} (name : core.ArtieName)
    (w w' : world) (i j : nat) (a : artefact) :
  GetArtefact (Repositories w) name = Found (i, j) →
  find_index (named name) (Repositories w) = Some i →
  deref (Repositories w) (i, j) = Some a →
  Tags a = [core.Tag name] →
  Remove_name name w = Done () w' →
  length (Repositories w') = (length (Repositories w) - 1)%nat ∧
  ∀ repo', repo' ∈ Repositories w' → ∃ k, k ≠ i ∧ Repositories w !! k = Some repo'.
Proof.
  intros Hp Hi Ha Htags Hrun.
  rewrite (Remove_name_last_tag_Repositories _ _ _ _ _ Hp Ha Htags Hrun).
  unfold removeRepoByName. rewrite find_index_named_set_Tags, Hi.
  set (rs1 := set_Tags _ _ _).
  assert (length rs1 = length (Repositories w)) as Hlen
    by (unfold rs1, set_Tags; apply length_alter).
  assert (i < length rs1)%nat as Hlt by (rewrite Hlen; by eapply find_index_lt).
  split.
  - destruct (swap_remove_lookup i rs1 Hlt) as (_ & _ & -> & _). by rewrite Hlen.
  - intros repo' (k & Hne & Hk)%swap_remove_elem; [|done].
    exists k. split; [done|]. unfold rs1, set_Tags in Hk.
    by rewrite list_lookup_alter_ne in Hk.
Qed.

Lemma Remove_last_tag_drops_repository_witness :
  ∃ w', Remove_name (example.ref "acme/tools/app" "app" "v1") example.w_app = Done () w' ∧
        Repositories w' = [].
Proof.
  assert (∃ w', Remove_name (example.ref "acme/tools/app" "app" "v1") example.w_app
                = Done () w') as [w' Hrun] by (eexists; vm_compute; reflexivity).
  exists w'. split; [exact Hrun|].
  destruct (Remove_last_tag_drops_repository
              (example.ref "acme/tools/app" "app" "v1") example.w_app w' 0 0
              (example.art "sha256:10a2b3c4e5f60718" "app1" ["v1"])
              eq_refl eq_refl eq_refl eq_refl Hrun) as [Hlen _].
  by apply nil_length_inv.
Defined.

(** ** The Artifacts of a Repository, and unTagAll *)

Lemma lookups_seq {A} (l : list A) :
  (λ j, l !! j) <$> seq 0 (length l) = Some <$> l.
Proof.
  apply list_eq. intros k. rewrite !list_lookup_fmap.
  destruct (decide (k < length l)%nat) as [Hlt|Hge].
  - rewrite lookup_seq_lt by done. simpl.
    destruct (lookup_lt_is_Some_2 l k Hlt) as [x Hx]. by rewrite Hx.
  - rewrite lookup_seq_ge by lia. by rewrite lookup_ge_None_2 by lia.
Qed.

Lemma GetArtefactsByName_Some rs name ps :
  GetArtefactsByName rs name = Some ps →
  ∃ i repo, find_index (named name) rs = Some i ∧ rs !! i = Some repo ∧
            ps = (λ j, (i, j)) <$> seq 0 (length (Artefacts repo)).
Proof.
  unfold GetArtefactsByName. destruct (find_index (named name) rs) as [i|] eqn:Hi; [|done].
  destruct (rs !! i) as [repo|] eqn:Hrepo; [|done].
  destruct (0 <? _)%nat; [|done]. intros [= <-]. by exists i, repo.
Qed.

(** X18: [GetArtefactsByName] returns the Artifacts of the first
    Repository that has the reference's fully-qualified name, all of them
    and in their order, as pointers into the registry; it reports that
    nothing exists when no Repository has that name and also when the
    first one that has it holds no Artifact. *)
Theorem GetArtefactsByName_first_repository (rs : list repository)
    (name : core.ArtieName) :
  match GetArtefactsByName rs name with
  | Some ps =>
      ∃ i repo, find_index (named name) rs = Some i ∧ rs !! i = Some repo ∧
                Artefacts repo ≠ [] ∧
                ps = (λ j, (i, j)) <$> seq 0 (length (Artefacts repo)) ∧
                deref rs <$> ps = Some <$> Artefacts repo
  | None =>
      ∀ i repo, find_index (named name) rs = Some i → rs !! i = Some repo →
                Artefacts repo = []
  end.
Proof.
  unfold GetArtefactsByName. destruct (find_index (named name) rs) as [i|] eqn:Hi.
  - destruct (lookup_lt_is_Some_2 _ _ (find_index_lt _ _ _ Hi)) as [repo Hrepo].
    rewrite Hrepo, length_fmap, length_seq.
    destruct (0 <? length (Artefacts repo))%nat eqn:Hlen.
    + exists i, repo. split; [done|]. split; [done|]. split.
      * apply Nat.ltb_lt in Hlen. intros Hnil. rewrite Hnil in Hlen. simpl in Hlen. lia.
      * split; [done|]. rewrite <- list_fmap_compose, <- lookups_seq.
        apply list_fmap_ext. intros _ j _. simpl. unfold deref. simpl. by rewrite Hrepo.
    + intros i' repo' [= <-] Hrepo'. assert (repo' = repo) as -> by congruence.
      apply Nat.ltb_ge in Hlen. apply nil_length_inv. lia.
  - simpl. by intros i repo [=].
Qed.

(** The registry [rs'] is [rs] but for the tag lists of the Artifacts of
    the Repository at index [i]. *)
Definition retagged (i : nat) (rs rs' : list repository) : Prop :=
  length rs' = length rs ∧
  ∀ k repo, rs !! k = Some repo →
    ∃ repo', rs' !! k = Some repo' ∧ Repository repo' = Repository repo ∧
             (k ≠ i → repo' = repo) ∧
             length (Artefacts repo') = length (Artefacts repo) ∧
             ∀ j a, Artefacts repo !! j = Some a →
               ∃ tags, Artefacts repo' !! j = Some (with_Tags tags a).

Lemma with_Tags_Tags (a : artefact) : with_Tags (Tags a) a = a.
Proof. by destruct a. Qed.

Lemma retagged_refl i rs : retagged i rs rs.
Proof.
  split; [done|]. intros k repo Hrepo. exists repo. repeat split; [done..|].
  intros j a Ha. exists (Tags a). by rewrite with_Tags_Tags.
Qed.

Lemma retagged_deref i rs rs1 j a :
  retagged i rs rs1 → deref rs (i, j) = Some a →
  ∃ tags, deref rs1 (i, j) = Some (with_Tags tags a).
Proof.
  intros [_ Hall] (repo & Hrepo & Ha)%deref_Some_inv.
  destruct (Hall i repo Hrepo) as (repo' & Hrepo' & _ & _ & _ & Harts).
  destruct (Harts j a Ha) as [tags Ha']. exists tags. by eapply deref_Some.
Qed.

Lemma retagged_set_Tags i rs rs1 j cur tags :
  retagged i rs rs1 → deref rs1 (i, j) = Some cur →
  retagged i rs (set_Tags (i, j) tags rs1).
Proof.
  intros [Hlen Hall] Hcur. split.
  - unfold set_Tags. by rewrite length_alter.
  - intros k repo Hrepo.
    destruct (Hall k repo Hrepo) as (repo1 & Hrepo1 & Hname & Hsame & Hlen1 & Harts).
    destruct (set_Tags_lookup rs1 (i, j) cur tags k repo1 Hcur Hrepo1)
      as (repo2 & Hrepo2 & Hname2 & Hlook).
    exists repo2. split; [done|]. split; [congruence|]. split; [|split].
    + intros Hne. rewrite <- (Hsame Hne). unfold set_Tags in Hrepo2.
      rewrite list_lookup_alter_ne in Hrepo2 by (simpl; congruence). congruence.
    + rewrite <- Hlen1. apply deref_Some_inv in Hcur as (r & Hr & Hcur).
      rewrite (set_Tags_insert _ _ _ _ _ _ Hr Hcur) in Hrepo2.
      destruct (decide (k = i)) as [->|Hne].
      * rewrite list_lookup_insert_eq in Hrepo2 by (by eapply lookup_lt_Some).
        injection Hrepo2 as <-. simpl. rewrite length_insert. congruence.
      * rewrite list_lookup_insert_ne in Hrepo2 by done. congruence.
    + intros m a Ha. destruct (Harts m a Ha) as [tags1 Ha1]. rewrite Hlook.
      destruct (decide ((k, m) = (i, j))) as [[= -> ->]|_]; [|by exists tags1].
      exists tags. apply deref_Some_inv in Hcur as (r & Hr & Hcur).
      assert (r = repo1) as -> by congruence.
      assert (cur = with_Tags tags1 a) as -> by congruence. done.
Qed.

(** The frame of a run: the document, the files and the console are as
    they were. *)
Definition index_only (w w' : world) : Prop :=
  document w' = document w ∧ files w' = files w ∧ console w' = console w.

Lemma unTagAll_tags i rs j a (tags : list string) w1 :
  deref rs (i, j) = Some a → retagged i rs (Repositories w1) →
  ∃ w2, foldr (λ tag rest',
                 cur ← load (i, j)%nat;
                 store_Tags (i, j)%nat (core.RemoveElement (Tags cur) tag);;
                 rest')
              (mret ()) tags w1 = Done () w2 ∧
        retagged i rs (Repositories w2) ∧ index_only w1 w2.
Proof.
  intros Ha. revert w1. induction tags as [|tag tags IH]; intros w1 Hre; simpl.
  - exists w1. split; [done|]. split; [done|]. by unfold index_only.
  - destruct (retagged_deref _ _ _ _ _ Hre Ha) as [t Hcur].
    rewrite (bind_eq _ _ w1 (with_Tags t a) w1) by (unfold load; by rewrite Hcur).
    rewrite (bind_eq _ _ _ _ _ (store_Tags_Done _ _ _)).
    set (w2 := with_Repositories _ w1).
    destruct (IH w2) as (w3 & Hrun & Hre3 & Hd & Hf & Hc).
    { unfold w2. simpl. by eapply retagged_set_Tags. }
    exists w3. split; [done|]. split; [done|]. by repeat split.
Qed.

Lemma unTagAll_artefacts i rs (js : list nat) w1 :
  (∀ j, j ∈ js → is_Some (deref rs (i, j))) → retagged i rs (Repositories w1) →
  ∃ w2, foldr (λ p rest,
                 artef ← load p;
                 foldr (λ tag rest',
                          cur ← load p;
                          store_Tags p (core.RemoveElement (Tags cur) tag);;
                          rest')
                       (mret ()) (Tags artef);;
                 rest)
              (mret ()) ((λ j, (i, j)) <$> js) w1 = Done () w2 ∧
        retagged i rs (Repositories w2) ∧ index_only w1 w2.
Proof.
  revert w1. induction js as [|j js IH]; intros w1 Hjs Hre; simpl.
  - exists w1. split; [done|]. split; [done|]. by unfold index_only.
  - destruct (Hjs j) as [a Ha]; [left|].
    destruct (retagged_deref _ _ _ _ _ Hre Ha) as [t Hcur].
    rewrite (bind_eq _ _ w1 (with_Tags t a) w1) by (unfold load; by rewrite Hcur).
    destruct (unTagAll_tags i rs j a (Tags (with_Tags t a)) w1 Ha Hre)
      as (w2 & Hrun & Hre2 & Hd2 & Hf2 & Hc2).
    rewrite (bind_eq _ _ _ _ _ Hrun).
    destruct (IH w2) as (w3 & Hrun3 & Hre3 & Hd3 & Hf3 & Hc3).
    { intros j' Hj'. apply Hjs. by right. }
    { done. }
    exists w3. split; [done|]. split; [done|]. repeat split; congruence.
Qed.


(** ** The table of List *)

(** The tag column of an Artifact: its tags, or the one entry for an
    Artifact that has none. *)
Definition shown_tags (a : artefact) : list string :=
  match Tags a with
  | [] => ["<none>"]
  | tags => tags
  end.

(** The age label of a creation time that parses. *)
Definition age `{core.Host} (a : artefact) : string :=
  match core.ParseRFC850 (Created a) with
  | Some created => elapsedLabel (Go.Sub core.Now created)
  | None => EmptyString
  end.

Definition row `{core.Host} (repo : repository) (a : artefact) (tag : string) : string :=
  cells [Repository repo; tag; substring 7 12 (Id a); Type_ a; age a; Size a].

Definition table `{core.Host} (rs : list repository) : list string :=
  concat ((λ repo, concat ((λ a, row repo a <$> shown_tags a) <$> Artefacts repo)) <$> rs).

(** Every Artifact has an Id of at least 19 bytes and a creation time
    that parses. *)
Definition listable `{core.Host} (rs : list repository) : Prop :=
  ∀ repo a, repo ∈ rs → a ∈ Artefacts repo →
    (19 ≤ String.length (Id a))%nat ∧ is_Some (core.ParseRFC850 (Created a)).

Lemma traverse_Done_fmap {A B} (f : A → M B) (g : A → B) l :
  (∀ x w y w', x ∈ l → f x w = Done y w' → y = g x ∧ w' = w) →
  ∀ w ys w', traverse f l w = Done ys w' → ys = g <$> l ∧ w' = w.
Proof.
  induction l as [|x l IH]; intros Hf w ys w' Ht; simpl in Ht.
  - by injection Ht as <- <-.
  - apply bind_Done in Ht as (y & w1 & Hx & Ht).
    apply bind_Done in Ht as (ys' & w2 & Hl & Hret). injection Hret as <- <-.
    apply Hf in Hx as [-> ->]; [|left].
    apply IH in Hl as [-> ->]; [done|].
    intros z w0 y0 w0' Hz. apply Hf. by right.
Qed.

Lemma traverse_all_Done {A B} (f : A → M B) (g : A → B) l :
  (∀ x w, x ∈ l → f x w = Done (g x) w) →
  ∀ w, traverse f l w = Done (g <$> l) w.
Proof.
  induction l as [|x l IH]; intros Hf w; simpl; [done|].
  rewrite (bind_eq _ _ _ _ _ (Hf x w (list_elem_of_here _ _))).
  rewrite (bind_eq _ _ w (g <$> l) w); [done|].
  apply IH. intros y w0 Hy. apply Hf. by right.
Qed.

Lemma List_row_inv `{core.Host} repo tag a w r w' :
  List_row repo tag a w = Done r w' → r = row repo a tag ∧ w' = w.
Proof.
  unfold List_row. intros (short & w1 & Hshort & Hrest)%bind_Done.
  pose proof (short_Id_Done _ _ _ _ Hshort) as Hlen.
  rewrite short_Id_long in Hshort by done. injection Hshort as <- <-.
  apply bind_Done in Hrest as (label & w2 & Hage & Hret). injection Hret as <- <-.
  unfold toElapsedLabel in Hage. unfold row, age.
  destruct (core.ParseRFC850 (Created a)); [|done]. by injection Hage as <- <-.
Qed.

Lemma List_row_listable `{core.Host} repo tag a w :
  (19 ≤ String.length (Id a))%nat → is_Some (core.ParseRFC850 (Created a)) →
  List_row repo tag a w = Done (row repo a tag) w.
Proof.
  intros Hlen [created Hcreated]. unfold List_row.
  rewrite (bind_eq _ _ _ _ _ (short_Id_long a w Hlen)).
  rewrite (bind_eq _ _ w (elapsedLabel (Go.Sub core.Now created)) w)
    by (unfold toElapsedLabel; by rewrite Hcreated).
  unfold row, age. by rewrite Hcreated.
Qed.

Lemma List_artefact_inv `{core.Host} repo a w rows w' :
  List_artefact repo a w = Done rows w' → rows = row repo a <$> shown_tags a ∧ w' = w.
Proof.
  unfold List_artefact, shown_tags. intros (d & w1 & Hd & Hrest)%bind_Done.
  apply bind_Done in Hrest as (t & w2 & Ht & Hret). injection Hret as <- <-.
  destruct (Tags a) as [|tag tags]; simpl in Hd.
  - apply bind_Done in Hd as (r & w3 & [-> ->]%List_row_inv & Hret).
    injection Hret as <- <-. simpl in Ht. by injection Ht as <- <-.
  - injection Hd as <- <-.
    apply (traverse_Done_fmap _ (row repo a)) in Ht as [-> ->]; [done|].
    intros x w0 y w0' _. apply List_row_inv.
Qed.

Lemma List_artefact_listable `{core.Host} repo a w :
  (19 ≤ String.length (Id a))%nat → is_Some (core.ParseRFC850 (Created a)) →
  List_artefact repo a w = Done (row repo a <$> shown_tags a) w.
Proof.
  intros Hlen Hcreated. unfold List_artefact, shown_tags.
  destruct (Tags a) as [|tag tags]; simpl length; cbn [Nat.eqb].
  - rewrite (bind_eq _ _ w [row repo a "<none>"] w)
      by (by rewrite (bind_eq _ _ _ _ _ (List_row_listable repo "<none>" a w Hlen Hcreated))).
    reflexivity.
  - rewrite (bind_eq _ _ w [] w) by done.
    rewrite (bind_eq _ _ w (row repo a <$> tag :: tags) w); [done|].
    apply traverse_all_Done. intros t w0 _. by apply List_row_listable.
Qed.

(** X20: what [List] writes.  When every Artifact has an Id of at least
    19 bytes and a creation time that parses, [List] returns and has
    written the header and then, Repository by Repository and Artifact by
    Artifact in store order, one row for every tag of the Artifact, or one
    row with the tag [<none>] for an Artifact without tags; whenever
    [List] returns it has written exactly that.  The index, the document
    and the files are as they were. *)
Theorem List_writes_the_table `{core.Host} (w : world) :
  (listable (Repositories w) →
   List w = Done () (flushed w (header :: table (Repositories w)))) ∧
  (∀ u w', List w = Done u w' → w' = flushed w (header :: table (Repositories w))).
Proof.
  split.
  - intros Hok. unfold List. rewrite (bind_eq _ _ w (Repositories w) w) by done.
    rewrite (bind_eq _ _ w
               ((λ repo, concat ((λ a, row repo a <$> shown_tags a) <$> Artefacts repo))
                  <$> Repositories w) w); [done|].
    apply traverse_all_Done. intros repo w0 Hrepo.
    rewrite (bind_eq _ _ w0 ((λ a, row repo a <$> shown_tags a) <$> Artefacts repo) w0);
      [done|].
    apply traverse_all_Done. intros a w1 Ha.
    destruct (Hok repo a Hrepo Ha) as [Hlen Hcreated]. by apply List_artefact_listable.
  - intros u w'. unfold List. rewrite (bind_eq _ _ w (Repositories w) w) by done.
    intros (rows & w1 & Hrows & Hflush)%bind_Done.
    apply (traverse_Done_fmap _
             (λ repo, concat ((λ a, row repo a <$> shown_tags a) <$> Artefacts repo)))
      in Hrows as [-> ->].
    + by injection Hflush as <-.
    + intros repo w0 y w0' _ (per & w2 & Hper & Hret)%bind_Done. injection Hret as <- <-.
      apply (traverse_Done_fmap _ (λ a, row repo a <$> shown_tags a)) in Hper as [-> ->];
        [done|].
      intros a w3 y w3' _. apply List_artefact_inv.
Qed.

Lemma List_writes_the_table_witness :
  ∃ w', List example.w_stolen = Done () w' ∧
        length (console w') = 4%nat ∧ Repositories w' = example.rs_stolen.
Proof.
  assert (listable (Repositories example.w_stolen)) as Hok.
  { intros repo a Hrepo Ha. each_element Hrepo. simpl in Ha.
    each_element Ha; (split; [vm_compute; lia | by eexists]). }
  eexists. split; [exact (proj1 (List_writes_the_table example.w_stolen) Hok)|].
  split; reflexivity.
Defined.

(** ** The file reference of an added Artifact *)

Lemma Ext_from_suffix (p ext : string) :
  Go.Ext_from p ext = ext ∨ Go.Ext_from p ext = EmptyString ∨
  ∃ pre, p = pre +:+ Go.Ext_from p ext.
Proof.
  revert ext. induction p as [|c p IH]; intros ext; simpl; [by left|].
  destruct (Ascii.eqb c "/").
  - destruct (IH EmptyString) as [Hr | [Hr | [pre Hpre]]]; [by auto | by auto |].
    right. right. exists (String c pre).
    change (String c p = String c (pre +:+ Go.Ext_from p EmptyString)). by f_equal.
  - destruct (Ascii.eqb_spec c ".") as [->|_].
    + destruct (IH (String "." p)) as [Hr | [Hr | [pre Hpre]]].
      * right. right. exists EmptyString. by rewrite Hr.
      * by auto.
      * right. right. exists (String "." pre).
        change (String "." p = String "." (pre +:+ Go.Ext_from p (String "." p))).
        by f_equal.
    + destruct (IH ext) as [Hr | [Hr | [pre Hpre]]]; [by auto | by auto |].
      right. right. exists (String c pre).
      change (String c p = String c (pre +:+ Go.Ext_from p ext)). by f_equal.
Qed.

Lemma length_append (s t : string) :
  String.length (s +:+ t) = (String.length s + String.length t)%nat.
Proof.
  induction s as [|c s IH]; [done|].
  change (S (String.length (s +:+ t)) = S (String.length s + String.length t)).
  by rewrite IH.
Qed.

Lemma substring_whole (t : string) : substring 0 (String.length t) t = t.
Proof. induction t as [|c t IH]; simpl; [done | by rewrite IH]. Qed.

Lemma substring_prefix (s t : string) : substring 0 (String.length s) (s +:+ t) = s.
Proof.
  induction s as [|c s IH]; [by destruct t|].
  change (String c (substring 0 (String.length s) (s +:+ t)) = String c s).
  by rewrite IH.
Qed.

Lemma substring_suffix (s t : string) :
  substring (String.length s) (String.length t) (s +:+ t) = t.
Proof.
  induction s as [|c s IH]; [apply substring_whole|].
  change (substring (String.length s) (String.length t) (s +:+ t) = t). done.
Qed.

Lemma TrimSuffix_append (s suffix : string) : Go.TrimSuffix (s +:+ suffix) suffix = s.
Proof.
  unfold Go.TrimSuffix, Go.HasSuffix. rewrite length_append.
  replace (String.length s + String.length suffix - String.length suffix)%nat
    with (String.length s) by lia.
  rewrite substring_suffix, String.eqb_refl, substring_prefix.
  by replace (String.length suffix <=? String.length s + String.length suffix)%nat
    with true by (symmetry; apply Nat.leb_le; lia).
Qed.

(** A base name with the extension [.zip] is its part before the
    extension, and [.zip]. *)
Lemma TrimSuffix_Ext_zip (basename : string) :
  Go.Ext basename = ".zip" →
  Go.TrimSuffix basename (Go.Ext basename) +:+ ".zip" = basename.
Proof.
  intros Hext. unfold Go.Ext in Hext.
  destruct (Ext_from_suffix basename EmptyString) as [Hr | [Hr | [pre Hpre]]];
    [rewrite Hext in Hr; discriminate | rewrite Hext in Hr; discriminate |].
  unfold Go.Ext. rewrite Hext in Hpre |- *. rewrite Hpre at 1.
  by rewrite TrimSuffix_append.
Qed.



(** ** Backing files that are not there *)

Lemma append_inv_head (p s t : string) : p +:+ s = p +:+ t → s = t.
Proof.
  induction p as [|c p IH]; [done|].
  change (String c (p +:+ s) = String c (p +:+ t) → s = t). intros [= Heq]. by apply IH.
Qed.

Lemma removeFiles_Abort_files `{core.Host} a w e w' :
  removeFiles a w = Abort e w' →
  let zip := core.RegistryPath +:+ "/" +:+ FileRef a +:+ ".zip" in
  let json := core.RegistryPath +:+ "/" +:+ FileRef a +:+ ".json" in
  ((zip ∉ files w) ∧ files w' = files w) ∨
  ((zip ∈ files w) ∧ (json ∉ files w) ∧ files w' = filter (λ f, f ≠ zip) (files w)).
Proof.
  intros Hrun zip json. unfold removeFiles in Hrun. fold zip json in Hrun.
  unfold on_files, Go.os_Remove in Hrun.
  apply bind_Abort in Hrun as [Hzip | (u & w1 & Hzip & Hjson)].
  - left. destruct (bool_decide_reflect (zip ∈ files w)) as [Hin|Hin]; [done|].
    by injection Hzip as _ <-.
  - right. destruct (bool_decide_reflect (zip ∈ files w)) as [Hin|Hin]; [|done].
    injection Hzip as _ <-. simpl in Hjson.
    destruct (bool_decide_reflect (json ∈ filter (λ f, f ≠ zip) (files w)))
      as [Hin'|Hin']; [done|].
    injection Hjson as _ <-. split; [done|]. split; [|done].
    intros Hj. apply Hin', list_elem_of_filter. split; [|done].
    unfold json, zip. intros Heq. do 3 apply append_inv_head in Heq. discriminate Heq.
Qed.

(** X22: [removeFiles] fails when the zip file or the seal file of the
    Artifact is not there, and the two removals are not undone: with the
    zip file missing nothing is removed, with only the seal file missing
    the zip file is gone when the process ends.  The index, the document
    and the console are as they were. *)
Theorem removeFiles_fails_half_way `{core.Host} (a : artefact) (w w' : world)
    (e : failure) :
  removeFiles a w = Abort e w' →
  let zip := core.RegistryPath +:+ "/" +:+ FileRef a +:+ ".zip" in
  let json := core.RegistryPath +:+ "/" +:+ FileRef a +:+ ".json" in
  e = IOErr ∧ Repositories w' = Repositories w ∧ document w' = document w ∧
  console w' = console w ∧
  (((zip ∉ files w) ∧ files w' = files w) ∨
   ((zip ∈ files w) ∧ (json ∉ files w) ∧ files w' = filter (λ f, f ≠ zip) (files w))).
Proof.
  intros Hrun zip json.
  destruct (removeFiles_Abort_inv a w e w' Hrun) as (He & Hrs & Hdoc & Hcon).
  repeat (split; [done|]). apply (removeFiles_Abort_files a w e w' Hrun).
Qed.

Lemma removeFiles_fails_half_way_witness :
  ∃ w', removeFiles (example.art "sha256:10a2b3c4e5f60718" "app1" ["v1"])
          (example.in_memory example.rs_app ["/home/dev/.artie/app1.zip"])
        = Abort IOErr w' ∧ files w' = [].
Proof.
  assert (∃ w', removeFiles (example.art "sha256:10a2b3c4e5f60718" "app1" ["v1"])
                  (example.in_memory example.rs_app ["/home/dev/.artie/app1.zip"])
                = Abort IOErr w') as [w' Hrun] by (eexists; vm_compute; reflexivity).
  exists w'. split; [exact Hrun|].
  destruct (removeFiles_fails_half_way _ _ _ _ Hrun)
    as (_ & _ & _ & _ & [[Hno _] | (_ & _ & Hf)]).
  - exfalso. apply Hno. apply list_elem_of_In. vm_compute. tauto.
  - rewrite Hf. reflexivity.
Defined.

(** ** References that resolve to nothing *)

(** X23: [Remove] goes on after a reference that resolves to nothing:
    when none of the references resolves, it returns with one line
    [name ... not found] written for every reference, in their order, and
    with the index, the document and the files as they were. *)
Theorem Remove_unresolved_names `{core.Host} (names : list core.ArtieName) (w : world) :
  (∀ name, name ∈ names → GetArtefact (Repositories w) name = NotFound) →
  Remove names w =
    Done () (flushed w ((λ name, "name " +:+ core.Name name +:+ " not found") <$> names)).
Proof.
  revert w. induction names as [|name names IH]; intros w Hnone.
  - simpl. unfold flushed. simpl. rewrite app_nil_r. by destruct w.
  - assert (Remove_name name w =
            Done () (flushed w ["name " +:+ core.Name name +:+ " not found"])) as Hname.
    { unfold Remove_name.
      rewrite (bind_eq _ _ w None w)
        by (unfold getArtefact; by rewrite (Hnone name (list_elem_of_here _ _))).
      reflexivity. }
    cbn [Remove]. rewrite (bind_eq _ _ _ _ _ Hname).
    rewrite IH by (intros n Hn; simpl; apply Hnone; by right).
    unfold flushed. simpl. by rewrite <- app_assoc.
Qed.

Lemma Remove_unresolved_names_witness :
  Remove [example.ref "acme/tools/app" "app" "v7";
          example.ref "acme/infra/cache" "cache" "v1"]
         example.w_app
  = Done () (flushed example.w_app ["name app not found"; "name cache not found"]).
Proof.
  apply (Remove_unresolved_names
           [example.ref "acme/tools/app" "app" "v7";
            example.ref "acme/infra/cache" "cache" "v1"]
           example.w_app).
  intros name Hname. each_element Hname; reflexivity.
Defined.

(** ** Tagging twice *)

(** The repositories after the first one that has the reference's name
    play no part in the lookup. *)
Lemma GetArtefact_app rs l name i :
  find_index (named name) rs = Some i →
  GetArtefact (rs ++ l) name = GetArtefact rs name.
Proof.
  intros Hi. destruct (lookup_lt_is_Some_2 _ _ (find_index_lt _ _ _ Hi)) as [repo Hrepo].
  unfold GetArtefact.
  rewrite (GetArtefact_from_split 0 (rs ++ l) name [] i repo
             (find_index_app_Some _ _ _ _ Hi) (lookup_app_l_Some _ _ _ _ Hrepo)).
  rewrite (GetArtefact_from_split 0 rs name [] i repo Hi Hrepo).
  rewrite take_app_le; [done|]. apply Nat.lt_le_incl. by eapply find_index_lt.
Qed.

(** X24: two tags given to the same Artifact in a Repository that is new
    to the registry end in one record there.  The first [Tag] appends the
    Repository with a record of the Artifact, the second finds that record
    by the Artifact's Id and adds the second tag to it; the index is
    persisted.  The source reference names a Repository of the registry,
    and [findRepository] resolves neither target reference before. *)
Theorem Tag_twice_one_record (sourceName target1 target2 : core.ArtieName) (w : world)
    (sp : nat * nat) (sourceArtie : artefact) (i : nat) :
  find_index (named sourceName) (Repositories w) = Some i →
  GetArtefact (Repositories w) sourceName = Found sp →
  deref (Repositories w) sp = Some sourceArtie →
  core.IsInTheSameRepositoryAs target1 sourceName = false →
  core.FullyQualifiedName target2 = core.FullyQualifiedName target1 →
  core.Tag target2 ≠ core.Tag target1 →
  findRepository (Repositories w) target1 = None →
  findRepository (Repositories w) target2 = None →
  (Tag sourceName target1;; Tag sourceName target2) w =
    Done () (recorded
               (Repositories w ++
                  [{| Repository := core.FullyQualifiedName target1;
                      Artefacts :=
                        [with_Tags [core.Tag target1; core.Tag target2] sourceArtie] |}])
               w).
Proof.
  intros Hi Hsp Hsource Hother Hfqn Htag Hnone1 Hnone2.
  rewrite (bind_eq _ _ _ _ _ (Tag_new_repository _ _ _ _ _ Hsp Hsource Hother Hnone1)).
  set (copy := tagged_copy sourceArtie (core.Tag target1)).
  set (repo := {| Repository := core.FullyQualifiedName target1; Artefacts := [copy] |}).
  set (rs1 := Repositories w ++ [repo]). set (w1 := recorded rs1 w).
  assert (GetArtefact rs1 sourceName = Found sp) as Hsp1
    by (unfold rs1; by rewrite (GetArtefact_app _ _ _ _ Hi)).
  assert (deref rs1 sp = Some sourceArtie) as Hsource1.
  { destruct sp as [k j]. apply deref_Some_inv in Hsource as (r & Hr & Ha).
    eapply deref_Some; [by apply lookup_app_l_Some | done]. }
  apply findRepository_None in Hnone2 as [Hnamed2 Hfresh2].
  assert (find_index (named target2) rs1 = Some (length (Repositories w))) as Hn.
  { apply find_index_snoc; [by apply find_index_None|].
    unfold named. simpl. rewrite Hfqn. apply String.eqb_refl. }
  assert (rs1 !! length (Repositories w) = Some repo) as Hrepo
    by (by apply list_lookup_middle).
  assert (GetArtefact rs1 target2 = NotFound) as Hget2.
  { unfold GetArtefact.
    rewrite (GetArtefact_from_split 0 rs1 target2 [] _ repo Hn Hrepo).
    unfold rs1. rewrite take_app_length.
    pose proof (GetArtefact_from_unnamed 0 (Repositories w) target2 []
                  (find_index_named_unnamed _ _ Hnamed2) (Nat.le_0_l 1)) as Hpre.
    simpl in Hpre. fold (id_matches (Repositories w) (core.Name target2)) in Hpre.
    rewrite Hfresh2 in Hpre. rewrite Hpre. simpl.
    unfold HasTag. simpl. by rewrite (proj2 (String.eqb_neq _ _) (not_eq_sym Htag)). }
  unfold Tag.
  rewrite (bind_eq _ _ w1 (Some sp) w1) by (unfold getArtefact; simpl; by rewrite Hsp1).
  rewrite (bind_eq _ _ w1 sourceArtie w1) by (unfold load; simpl; by rewrite Hsource1).
  assert (core.IsInTheSameRepositoryAs target2 sourceName = false) as ->
    by (unfold core.IsInTheSameRepositoryAs in *; by rewrite Hfqn).
  rewrite (bind_eq _ _ w1 (Some (length (Repositories w))) w1)
    by (unfold findRepo; simpl; by rewrite (findRepository_named _ _ _ Hn)).
  rewrite (bind_eq _ _ w1 None w1) by (unfold getArtefact; simpl; by rewrite Hget2).
  rewrite (bind_eq _ _ w1 [copy] w1) by (unfold load_Artefacts; simpl; by rewrite Hrepo).
  cbn [find_index]. unfold copy at 1. cbn [tagged_copy Id]. rewrite String.eqb_refl.
  rewrite (bind_eq _ _ w1 copy w1)
    by (unfold load; simpl; by rewrite (deref_Some rs1 _ 0 repo copy Hrepo eq_refl)).
  rewrite (bind_eq _ _ _ _ _ (store_Tags_Done _ _ _)).
  unfold save, recorded, with_Repositories, w1. simpl. f_equal. unfold recorded. simpl.
  assert (set_Tags (length (Repositories w), 0%nat) [core.Tag target1; core.Tag target2] rs1
          = Repositories w ++
              [{| Repository := core.FullyQualifiedName target1;
                  Artefacts :=
                    [with_Tags [core.Tag target1; core.Tag target2] sourceArtie] |}]) as ->.
  { rewrite (set_Tags_insert _ _ _ repo copy) by done. unfold rs1.
    rewrite insert_app_r_alt, Nat.sub_diag by done. done. }
  done.
Qed.

Lemma Tag_twice_one_record_witness :
  (Tag (example.ref "acme/tools/app" "app" "v2") (example.ref "acme/prod/app" "app" "stable");;
   Tag (example.ref "acme/tools/app" "app" "v2") (example.ref "acme/prod/app" "app" "v2"))
    example.w_app
  = Done () (recorded
               (example.rs_app ++
                  [{| Repository := "acme/prod/app";
                      Artefacts := [example.art "sha256:3f9cdb4471aa02be" "app2"
                                      ["stable"; "v2"]] |}])
               example.w_app).
Proof.
  apply (Tag_twice_one_record
           (example.ref "acme/tools/app" "app" "v2")
           (example.ref "acme/prod/app" "app" "stable")
           (example.ref "acme/prod/app" "app" "v2") example.w_app
           (0, 1)%nat (example.art "sha256:3f9cdb4471aa02be" "app2" ["v2"]) 0%nat);
    try reflexivity.
  intros Heq. discriminate Heq.
Defined.

(** ** Add under a name that only an Id resolves *)

Lemma find_index_insert_ext {A} (f : A → bool) (l : list A) (i : nat) (x y : A) :
  l !! i = Some x → f y = f x → find_index f (<[i := y]> l) = find_index f l.
Proof.
  intros Hx Hf. rewrite <- (list_alter_insert (λ _, y) l i x Hx).
  revert i Hx. induction l as [|z l IH]; intros i Hx; [done|].
  destruct i as [|i]; simpl in Hx.
  - injection Hx as ->. simpl. by rewrite Hf.
  - change (alter (λ _, y) (S i) (z :: l)) with (z :: alter (λ _, y) i l).
    cbn [find_index]. by rewrite (IH i Hx).
Qed.

(** X25: [Add] under a reference whose fully-qualified name no Repository
    has, but whose bare name occurs in the Id of an Artifact, makes no
    Repository for the reference: the new record is appended to the
    Repository of that Artifact (the one [findRepository] falls back to),
    which has another name, and afterwards still no Repository has the
    name of the reference. *)
Theorem Add_falls_back_to_Id_repository `{core.Host} (filename : string)
    (name : core.ArtieName) (s : core.Seal) (w w' : world) (k : nat) :
  find_index (named name) (Repositories w) = None →
  findRepository (Repositories w) name = Some k →
  Add filename name s w = Done () w' →
  find_index (named name) (Repositories w') = None ∧
  length (Repositories w') = length (Repositories w) ∧
  ∃ repo arts,
    Repositories w' !! k = Some repo ∧
    Repository repo ≠ core.FullyQualifiedName name ∧
    Artefacts repo =
      arts ++ [new_artefact
                 (Go.TrimSuffix (core.Base filename) (Go.Ext (core.Base filename))) name s].
Proof.
  intros Hnone Hk (rs1 & Hun & Hadd)%Add_Done_created.
  rewrite <- (untagged_findRepository _ _ _ Hun) in Hk.
  rewrite <- (untagged_named _ _ _ Hun) in Hnone.
  assert (length rs1 = length (Repositories w)) as Hlen.
  { destruct Hun as [[_ ->] | (p & a & _ & _ & ->)]; [done|].
    unfold set_Tags. apply length_alter. }
  destruct Hadd as [(i & repo1 & Hi & Hrepo1 & ->) | [Hfr _]]; [|congruence].
  assert (i = k) as -> by congruence.
  split; [|split].
  - by rewrite (find_index_insert_ext _ _ _ repo1).
  - by rewrite length_insert.
  - eexists _, (Artefacts repo1).
    split; [apply list_lookup_insert_eq; by eapply lookup_lt_Some|].
    split; [|done]. simpl.
    apply (find_index_named_unnamed _ _ Hnone). by eapply list_elem_of_lookup_2.
Qed.

Lemma Add_falls_back_to_Id_repository_witness :
  ∃ w', Add "/tmp/b/db1.zip" (example.ref "acme/infra/db" "db" "v1")
            (example.seal "sha256:e07a15c2990f4a6b") example.w_app = Done () w' ∧
        find_index (named (example.ref "acme/infra/db" "db" "v1")) (Repositories w') = None ∧
        length (Repositories w') = 1%nat.
Proof.
  assert (∃ w', Add "/tmp/b/db1.zip" (example.ref "acme/infra/db" "db" "v1")
                    (example.seal "sha256:e07a15c2990f4a6b") example.w_app = Done () w')
    as [w' Hrun] by (eexists; vm_compute; reflexivity).
  exists w'. split; [exact Hrun|].
  destruct (Add_falls_back_to_Id_repository
              "/tmp/b/db1.zip" (example.ref "acme/infra/db" "db" "v1")
              (example.seal "sha256:e07a15c2990f4a6b") example.w_app w' 0%nat
              eq_refl eq_refl Hrun)
    as (Hnone & Hlen & _).
  split; [exact Hnone | exact Hlen].
Defined.
